(** * Mangrove AI service: heuristic image triage and batch aggregation

    A shallow embedding of [backend/python/ai_service.py]: the per-image
    heuristic [analyze_image_heuristic] (colour masks, texture variance,
    edge density, additive scoring, arg-max selection, "unknown" fallback)
    and the batch endpoint [classify_images].

    Numbers.  The pixel planes are [int32] copies of 8-bit channels, so the
    mask comparisons never wrap: they are modelled over [Z].  Python floats
    are modelled by exact rationals [Q]; every decimal literal of the source
    stands for the decimal it is written as, and [round(x, n)] is rounding
    half to even on the exact value.  Exceptions are values of type [exn];
    the [try]/[except] of the source is a [match] on the result.

    The outside world (the file system and the PIL decoder) is a record of
    functions, [filesystem], that every operation takes as an argument.

    Module [Binary64] repeats the scoring and selection statements over IEEE
    binary64, the arithmetic Python floats have, and is used to evaluate the
    boundary cases of the counterexamples in that arithmetic as well. *)

From Stdlib Require Import ZArith QArith Qminmax Qround Qabs Lqa Lia List Bool.
From Stdlib Require PrimFloat.
From stdpp Require Import gmap strings.

Open Scope Q_scope.

(** ** Python numerics over exact rationals *)

(** [x < y] as a boolean, the test Python's comparisons perform. *)
Definition Qltb (x y : Q) : bool := negb (Qle_bool y x).

(** [min(a, b)]: the running minimum starts at [a] and is replaced by [b]
    only when [b < a]. *)
Definition py_min (a b : Q) : Q := if Qltb b a then b else a.

(** [max(a, b)]: the running maximum starts at [a] and is replaced by [b]
    only when [b > a]. *)
Definition py_max (a b : Q) : Q := if Qltb a b then b else a.

(** Nearest integer, ties to the even neighbour. *)
Definition round_half_even (x : Q) : Z :=
  let f := Qfloor x in
  let r := x - inject_Z f in
  if Qltb r (1 # 2) then f
  else if Qltb (1 # 2) r then (f + 1)%Z
  else if Z.even f then f else (f + 1)%Z.

(** [round(x, ndigits)]. *)
Definition py_round (x : Q) (ndigits : nat) : Q :=
  let scale := inject_Z (10 ^ Z.of_nat ndigits) in
  inject_Z (round_half_even (x * scale)) / scale.

(** [sum(xs)]: a left fold that starts from 0. *)
Definition py_sum (xs : list Q) : Q := fold_left Qplus xs 0.

(** [float(n)] for a non-negative Python int. *)
Definition of_nat (n : nat) : Q := inject_Z (Z.of_nat n).

(** [max(xs, key=key)]: the first element is the running maximum and a later
    element replaces it only when its key is strictly greater, so among equal
    keys the earliest element wins.  [None] stands for the [ValueError] raised
    on an empty sequence. *)
Definition py_max_by {A K : Type} (ltb : K -> K -> bool) (key : A -> K)
    (xs : list A) : option A :=
  match xs with
  | [] => None
  | x :: rest =>
      Some (fold_left (fun best y => if ltb (key best) (key y) then y else best)
                      rest x)
  end.

(** ** Exceptions *)

(** A raised exception; [str(e)] is its message. *)
Record exn := Exception { exn_message : string }.

Definition result (A : Type) : Type := exn + A.

Definition ret {A : Type} (a : A) : result A := inr a.
Definition raise {A : Type} (msg : string) : result A := inl (Exception msg).
Definition bind {A B : Type} (m : result A) (k : A -> result B) : result B :=
  match m with
  | inl e => inl e
  | inr a => k a
  end.

Notation "x <- m ;; k" := (bind m (fun x => k))
  (at level 100, m at next level, right associativity).

(** ** Rasters and colour masks *)

(** One RGB pixel; the three channels after [astype(np.int32)]. *)
Definition pixel : Type := Z * Z * Z.

(** An [h] x [w] x 3 array as its list of rows. *)
Definition image : Type := list (list pixel).

Definition height (arr : image) : nat := length arr.

Definition width (arr : image) : nat :=
  match arr with
  | [] => 0%nat
  | row :: _ => length row
  end.

(** Every row has the width of the array (numpy arrays are rectangular). *)
Definition rectangular (arr : image) : bool :=
  forallb (fun row => Nat.eqb (length row) (width arr)) arr.

Definition green_mask (p : pixel) : bool :=
  let '(r, g, b) := p in
  (r + 20 <? g)%Z && (b + 10 <? g)%Z && (80 <? g)%Z.

Definition brown_mask (p : pixel) : bool :=
  let '(r, g, b) := p in
  (100 <? r)%Z && (60 <? g)%Z && (b <? 80)%Z && (g <? r)%Z && (b <? g)%Z.

Definition blue_mask (p : pixel) : bool :=
  let '(r, g, b) := p in
  (r + 15 <? b)%Z && (g + 10 <? b)%Z && (60 <? b)%Z.

Definition gray_mask (p : pixel) : bool :=
  let '(r, g, b) := p in
  (Z.abs (r - g) <? 20)%Z && (Z.abs (g - b) <? 20)%Z && (Z.abs (r - b) <? 20)%Z.

(** [np.count_nonzero(mask)] for a mask computed pixel by pixel. *)
Definition count_nonzero (mask : pixel -> bool) (arr : image) : nat :=
  length (List.filter mask (concat arr)).

(** ** Array statistics *)

(** [np.mean] of a two-dimensional array. *)
Definition np_mean (xs : list (list Q)) : Q :=
  py_sum (concat xs) / of_nat (length (concat xs)).

(** [np.var]: the mean of the squared deviations from the mean. *)
Definition np_var (xs : list (list Q)) : Q :=
  let m := np_mean xs in
  np_mean (map (map (fun x => Qabs (x - m) * Qabs (x - m))) xs).

(** [(r + g + b) / 3.0] at one pixel. *)
Definition brightness (p : pixel) : Q :=
  let '(r, g, b) := p in inject_Z (r + g + b) / 3.

(** [np.dot(arr[..., :3], [0.2989, 0.5870, 0.1140])] at one pixel. *)
Definition luminance (p : pixel) : Q :=
  let '(r, g, b) := p in
  inject_Z r * 0.2989 + inject_Z g * 0.5870 + inject_Z b * 0.1140.

(** [np.gradient] along one line of samples: one-sided differences at the two
    ends, central differences inside.  The caller checks that there are at
    least two samples. *)
Definition gradient_1d (f : list Q) : list Q :=
  let n := length f in
  map (fun i =>
         if Nat.eqb i 0 then nth 1 f 0 - nth 0 f 0
         else if Nat.eqb i (n - 1) then nth (n - 1) f 0 - nth (n - 2) f 0
         else (nth (i + 1) f 0 - nth (i - 1) f 0) / 2)
      (seq 0 n).

Definition row_sub (a b : list Q) : list Q := zip_with Qminus a b.
Definition row_add (a b : list Q) : list Q := zip_with Qplus a b.

Definition too_small : string :=
  "Shape of array too small to calculate a numerical gradient, at least (edge_order + 1) elements are required.".

(** [np.gradient(f, axis=1)]: each row is differentiated on its own. *)
Definition gradient_axis1 (f : list (list Q)) (w : nat) : result (list (list Q)) :=
  if (w <? 2)%nat then raise too_small
  else ret (map gradient_1d f).

(** [np.gradient(f, axis=0)]: the same stencil applied to whole rows. *)
Definition gradient_axis0 (f : list (list Q)) : result (list (list Q)) :=
  let h := length f in
  if (h <? 2)%nat then raise too_small
  else ret (map (fun i =>
                   if Nat.eqb i 0 then row_sub (nth 1 f []) (nth 0 f [])
                   else if Nat.eqb i (h - 1)
                        then row_sub (nth (h - 1) f []) (nth (h - 2) f [])
                        else map (fun d => d / 2)
                                 (row_sub (nth (i + 1) f []) (nth (i - 1) f [])))
                (seq 0 h)).

(** ** The feature vector *)

Record features := Features {
  green_ratio : Q;
  brown_ratio : Q;
  blue_ratio : Q;
  gray_ratio : Q;
  avg_brightness : Q;
  texture_variance : Q;
  edge_density : Q
}.

(** [float(count) / total]; dividing by a zero [total] raises. *)
Definition ratio (count total : nat) : result Q :=
  if Nat.eqb total 0 then raise "float division by zero"
  else ret (of_nat count / of_nat total).

(** Lines 111-138 of [analyze_image_heuristic]. *)
Definition extract_features (arr : image) : result features :=
  let h := height arr in
  let w := width arr in
  let total := (h * w)%nat in
  green <- ratio (count_nonzero green_mask arr) total ;;
  brown <- ratio (count_nonzero brown_mask arr) total ;;
  blue <- ratio (count_nonzero blue_mask arr) total ;;
  gray <- ratio (count_nonzero gray_mask arr) total ;;
  let avg := np_mean (map (map brightness) arr) in
  let gray_img := map (map luminance) arr in
  let variance := np_var gray_img in
  gx <- gradient_axis1 gray_img w ;;
  gy <- gradient_axis0 gray_img ;;
  let grad_x := map (map Qabs) gx in
  let grad_y := map (map Qabs) gy in
  ret (Features green brown blue gray avg variance
         (np_mean (zip_with row_add grad_x grad_y))).

(** ** The classification engine *)

(** The four accumulators of lines 141-144. *)
Record scores := Scores {
  mangrove_score : Q;
  cutting_score : Q;
  pollution_score : Q;
  encroachment_score : Q
}.

Definition zero_scores : scores := Scores 0.0 0.0 0.0 0.0.

(** Colour-based scoring, lines 147-158; each [if] updates the accumulators
    left by the previous one. *)
Definition score_green (fv : features) (s : scores) : scores :=
  if Qltb 0.25 (green_ratio fv) && Qltb 0.05 (blue_ratio fv)
  then Scores (mangrove_score s + (0.4 + py_min 0.3 (green_ratio fv)))
              (cutting_score s) (pollution_score s) (encroachment_score s)
  else s.

Definition score_brown (fv : features) (s : scores) : scores :=
  if Qltb 0.2 (brown_ratio fv) && Qltb (green_ratio fv) 0.1
  then Scores (mangrove_score s)
              (cutting_score s + (0.4 + py_min 0.3 (brown_ratio fv)))
              (pollution_score s) (encroachment_score s)
  else s.

Definition score_blue (fv : features) (s : scores) : scores :=
  if Qltb 0.4 (blue_ratio fv)
  then Scores (mangrove_score s) (cutting_score s)
              (pollution_score s + (0.4 + py_min 0.3 (blue_ratio fv)))
              (encroachment_score s)
  else s.

Definition score_gray (fv : features) (s : scores) : scores :=
  if Qltb 0.3 (gray_ratio fv)
  then Scores (mangrove_score s) (cutting_score s)
              (pollution_score s + 0.2) (encroachment_score s + 0.2)
  else s.

(** Texture-based scoring, lines 161-164. *)
Definition score_texture (fv : features) (s : scores) : scores :=
  if Qltb 500 (texture_variance fv)
  then Scores (mangrove_score s + 0.2) (cutting_score s)
              (pollution_score s) (encroachment_score s)
  else if Qltb (texture_variance fv) 100
  then Scores (mangrove_score s) (cutting_score s)
              (pollution_score s) (encroachment_score s + 0.3)
  else s.

(** Edge-based scoring, lines 167-169. *)
Definition score_edges (fv : features) (s : scores) : scores :=
  if Qltb 10 (edge_density fv)
  then Scores (mangrove_score s) (cutting_score s + 0.2)
              (pollution_score s) (encroachment_score s + 0.2)
  else s.

(** Lines 141-169: the six statements in program order. *)
Definition heuristic_scores (fv : features) : scores :=
  score_edges fv
    (score_texture fv
       (score_gray fv
          (score_blue fv
             (score_brown fv
                (score_green fv zero_scores))))).

(** The dict literal of lines 172-177.  A Python dict iterates in insertion
    order, so it is kept as an association list. *)
Definition scores_dict (s : scores) : list (string * Q) :=
  [ ("mangrove", mangrove_score s);
    ("cutting", cutting_score s);
    ("pollution", pollution_score s);
    ("encroachment", encroachment_score s) ].

(** Line 179, [max(scores.keys(), key=lambda k: scores[k])]: the keys are
    visited in the order of the entries and each is ranked by its own value. *)
Definition primary_entry (s : scores) : option (string * Q) :=
  py_max_by Qltb snd (scores_dict s).

(** Line 180. *)
Definition capped_confidence (winning_score : Q) : Q := py_min winning_score 0.95.

(** Line 185. *)
Definition fallback_confidence (fv : features) : Q :=
  0.4 + py_max 0.0 (py_min 0.2 (green_ratio fv)).

(** Lines 179-185: the class name and the confidence before rounding. *)
Definition select_class (fv : features) : result (string * Q) :=
  match primary_entry (heuristic_scores fv) with
  | None => raise "max() arg is an empty sequence"
  | Some (primary_class, winning_score) =>
      let confidence := capped_confidence winning_score in
      if Qltb confidence 0.3
      then ret ("unknown", fallback_confidence fv)
      else ret (primary_class, confidence)
  end.

(** ** Predictions *)

(** A JSON-like value, for the [details] dict. *)
#[warnings="-register-all"]
Inductive value :=
| VFloat (x : Q)
| VInt (n : Z)
| VStr (s : string)
| VDict (entries : list (string * value)).

Record ImagePrediction := {
  class_name : string;
  confidence : Q;
  model : string;
  timestamp : option string;
  details : list (string * value)
}.

(** The field defaults declared by the class, used where the constructor call
    leaves a field out. *)
Definition default_model : string := "python-heuristic-v1".
Definition default_timestamp : option string := None.

(** Lines 187-202. *)
Definition success_prediction (arr : image) (fv : features) (s : scores)
    (primary_class : string) (conf : Q) : ImagePrediction :=
  {| class_name := primary_class;
     confidence := py_round conf 3;
     model := "python-heuristic-v2";
     timestamp := default_timestamp;
     details :=
       [ ("greenRatio", VFloat (py_round (green_ratio fv) 4));
         ("brownRatio", VFloat (py_round (brown_ratio fv) 4));
         ("blueRatio", VFloat (py_round (blue_ratio fv) 4));
         ("grayRatio", VFloat (py_round (gray_ratio fv) 4));
         ("averageBrightness", VFloat (py_round (avg_brightness fv) 2));
         ("textureVariance", VFloat (py_round (texture_variance fv) 2));
         ("edgeDensity", VFloat (py_round (edge_density fv) 2));
         ("dimensions", VDict [ ("width", VInt (Z.of_nat (width arr)));
                                ("height", VInt (Z.of_nat (height arr))) ]);
         ("scores", VDict (map (fun kv => (fst kv, VFloat (py_round (snd kv) 3)))
                               (scores_dict s))) ] |}.

(** Lines 206-211, the [except] branch. *)
Definition failure_prediction (e : exn) : ImagePrediction :=
  {| class_name := "invalid";
     confidence := 0.0;
     model := "python-heuristic-v2";
     timestamp := default_timestamp;
     details := [ ("error", VStr (exn_message e)) ] |}.

(** The body of the [try] once the file is decoded, lines 110-202. *)
Definition analyze_array (arr : image) : result ImagePrediction :=
  fv <- extract_features arr ;;
  cls <- select_class fv ;;
  ret (success_prediction arr fv (heuristic_scores fv) (fst cls) (snd cls)).

(** ** The outside world *)

(** [abspath] is [os.path.abspath], [path_exists] is [os.path.exists] and
    [load_rgb] is [Image.open(path)] followed by [convert("RGB")] and
    [np.array]: it either raises or yields the pixel array. *)
Record filesystem := {
  abspath : string -> string;
  path_exists : string -> bool;
  load_rgb : string -> result image
}.

(** Lines 105-211. *)
Definition analyze_image_heuristic (fs : filesystem) (image_path : string)
    : ImagePrediction :=
  match (arr <- load_rgb fs image_path ;; analyze_array arr) with
  | inr prediction => prediction
  | inl e => failure_prediction e
  end.

(** ** The batch endpoint *)

Record ImageClassificationRequest := {
  image_paths : list string;
  options : option (list (string * value))
}.

Record ImageClassificationResponse := {
  predictions : list ImagePrediction;
  averageConfidence : Q;
  primaryClass : string;
  isValid : bool;
  totalImages : nat;
  validImages : nat
}.

Record HTTPException := { status_code : Z; detail : string }.

(** The global [models] dict and what [lifespan] does to it. *)
Definition lifespan_startup (models : gmap string bool) : gmap string bool :=
  <["initialized" := true]> models.

Definition lifespan_shutdown (models : gmap string bool) : gmap string bool := ∅.

(** [models.get("initialized", False)]. *)
Definition initialized (models : gmap string bool) : bool :=
  default false (models !! "initialized").

(** Lines 231-235: the prediction appended for a path that does not exist.
    The call names three fields; [model] and [timestamp] keep their
    defaults. *)
Definition not_found_prediction (abs_path : string) : ImagePrediction :=
  {| class_name := "invalid";
     confidence := 0.0;
     model := default_model;
     timestamp := default_timestamp;
     details := [ ("error", VStr (String.append "File not found: " abs_path)) ] |}.

(** One iteration of the loop of lines 226-238. *)
Definition predict_path (fs : filesystem) (image_path : string) : ImagePrediction :=
  let abs_path := abspath fs image_path in
  if negb (path_exists fs abs_path)
  then not_found_prediction abs_path
  else analyze_image_heuristic fs abs_path.

Definition is_valid_prediction (p : ImagePrediction) : bool :=
  negb (String.eqb (class_name p) "invalid").

(** Line 242. *)
Definition mean_confidence (valid_predictions : list ImagePrediction) : Q :=
  match valid_predictions with
  | [] => 0.0
  | _ => py_sum (map confidence valid_predictions)
         / of_nat (length valid_predictions)
  end.

(** [class_counts[name] = class_counts.get(name, 0) + 1] on a dict kept in
    insertion order. *)
Fixpoint count_class (class_counts : list (string * nat)) (name : string)
    : list (string * nat) :=
  match class_counts with
  | [] => [ (name, 1%nat) ]
  | (k, n) :: rest =>
      if String.eqb k name then (k, S n) :: rest
      else (k, n) :: count_class rest name
  end.

(** Lines 245-249. *)
Definition vote (valid_predictions : list ImagePrediction) : string :=
  let class_counts := fold_left count_class (map class_name valid_predictions) [] in
  match py_max_by Nat.ltb snd class_counts with
  | Some (k, _) => k
  | None => "unknown"
  end.

(** Lines 214-259. *)
Definition classify_images (models : gmap string bool) (fs : filesystem)
    (request : ImageClassificationRequest)
    : HTTPException + ImageClassificationResponse :=
  if negb (initialized models)
  then inl {| status_code := 503; detail := "AI models not loaded" |}
  else
    match image_paths request with
    | [] => inl {| status_code := 400; detail := "No image paths provided" |}
    | _ =>
        let predictions := map (predict_path fs) (image_paths request) in
        let valid_predictions := List.filter is_valid_prediction predictions in
        let avg_confidence := mean_confidence valid_predictions in
        let primary_class := vote valid_predictions in
        let is_valid := Qltb 0.6 avg_confidence in
        inr {| predictions := predictions;
               averageConfidence := py_round avg_confidence 3;
               primaryClass := primary_class;
               isValid := is_valid;
               totalImages := length (image_paths request);
               validImages := length valid_predictions |}
    end.

(** ** The engine over binary64 *)

(** Lines 141-185 and 242-250 once more, statement by statement, over
    primitive binary64 floats. *)
Module Binary64.
Import PrimFloat.
#[local] Set Warnings "-inexact-float".
Local Open Scope float_scope.

Record features64 := Features64 {
  green_ratio64 : float;
  brown_ratio64 : float;
  blue_ratio64 : float;
  gray_ratio64 : float;
  texture_variance64 : float;
  edge_density64 : float
}.

Definition min64 (a b : float) : float := if b <? a then b else a.
Definition max64 (a b : float) : float := if a <? b then b else a.

(** The four accumulators after line 169, in the order mangrove, cutting,
    pollution, encroachment. *)
Definition heuristic_scores64 (fv : features64) : float * float * float * float :=
  let mangrove := 0.0 in
  let cutting := 0.0 in
  let pollution := 0.0 in
  let encroachment := 0.0 in
  let mangrove :=
    if (0.25 <? green_ratio64 fv) && (0.05 <? blue_ratio64 fv)
    then mangrove + (0.4 + min64 0.3 (green_ratio64 fv)) else mangrove in
  let cutting :=
    if (0.2 <? brown_ratio64 fv) && (green_ratio64 fv <? 0.1)
    then cutting + (0.4 + min64 0.3 (brown_ratio64 fv)) else cutting in
  let pollution :=
    if 0.4 <? blue_ratio64 fv
    then pollution + (0.4 + min64 0.3 (blue_ratio64 fv)) else pollution in
  let pollution := if 0.3 <? gray_ratio64 fv then pollution + 0.2 else pollution in
  let encroachment :=
    if 0.3 <? gray_ratio64 fv then encroachment + 0.2 else encroachment in
  let mangrove :=
    if 500 <? texture_variance64 fv then mangrove + 0.2 else mangrove in
  let encroachment :=
    if 500 <? texture_variance64 fv then encroachment
    else if texture_variance64 fv <? 100 then encroachment + 0.3
    else encroachment in
  let cutting := if 10 <? edge_density64 fv then cutting + 0.2 else cutting in
  let encroachment :=
    if 10 <? edge_density64 fv then encroachment + 0.2 else encroachment in
  (mangrove, cutting, pollution, encroachment).

(** Lines 172-185: the class name and the confidence before rounding. *)
Definition select_class64 (fv : features64) : string * float :=
  let '(mangrove, cutting, pollution, encroachment) := heuristic_scores64 fv in
  let keep (best y : string * float) := if snd best <? snd y then y else best in
  let primary :=
    fold_left keep
      [ ("cutting", cutting); ("pollution", pollution);
        ("encroachment", encroachment) ]
      ("mangrove", mangrove) in
  let confidence := min64 (snd primary) 0.95 in
  if confidence <? 0.3
  then ("unknown", 0.4 + max64 0.0 (min64 0.2 (green_ratio64 fv)))
  else (fst primary, confidence).

(** A list length as a float (exact below 2^53). *)
Fixpoint float_of_nat (n : nat) : float :=
  match n with
  | O => 0
  | S m => float_of_nat m + 1
  end.

(** Lines 242 and 250 on the confidences of the valid predictions. *)
Definition mean_confidence64 (confidences : list float) : float :=
  match confidences with
  | [] => 0.0
  | _ => fold_left add confidences 0 / float_of_nat (length confidences)
  end.

Definition is_valid64 (confidences : list float) : bool :=
  0.6 <? mean_confidence64 confidences.

End Binary64.

(** ** A concrete world for the examples *)

(** An [h] x [w] raster filled with one colour. *)
Definition uniform_image (h w : nat) (p : pixel) : image := repeat (repeat p w) h.

(** A 2 x 3 raster: one pure-green pixel among five dull red ones. *)
Definition speck_image : image :=
  [ [ (0, 255, 0); (150, 100, 100); (150, 100, 100) ];
    [ (150, 100, 100); (150, 100, 100); (150, 100, 100) ] ]%Z.

(** Four files exist under [/img]: three decode, [bad.png] does not; paths
    are already absolute. *)
Definition demo_fs : filesystem :=
  {| abspath := fun p => p;
     path_exists := fun p =>
       String.eqb p "/img/green.png" || String.eqb p "/img/blue.png"
       || String.eqb p "/img/speck.png" || String.eqb p "/img/bad.png";
     load_rgb := fun p =>
       if String.eqb p "/img/green.png" then ret (uniform_image 100 100 (0, 255, 0)%Z)
       else if String.eqb p "/img/blue.png" then ret (uniform_image 2 2 (0, 0, 255)%Z)
       else if String.eqb p "/img/speck.png" then ret speck_image
       else raise "cannot identify image file" |}.

Definition demo_request (paths : list string) : ImageClassificationRequest :=
  {| image_paths := paths; options := Some [] |}.

(** ** The specification's reading of the scoring rules *)

(** Componentwise sum and equality of score vectors. *)
Definition scores_add (a b : scores) : scores :=
  Scores (mangrove_score a + mangrove_score b)
         (cutting_score a + cutting_score b)
         (pollution_score a + pollution_score b)
         (encroachment_score a + encroachment_score b).

Definition scores_eq (a b : scores) : Prop :=
  mangrove_score a == mangrove_score b
  /\ cutting_score a == cutting_score b
  /\ pollution_score a == pollution_score b
  /\ encroachment_score a == encroachment_score b.

Definition no_contribution : scores := Scores 0 0 0 0.

(** The six rules as the specification words them: each looks at the feature
    vector alone and says what it adds, and [spec_scores] below is the sum of
    the six contributions. *)
Definition spec_rule1 (fv : features) : scores :=
  match Qlt_le_dec 0.25 (green_ratio fv), Qlt_le_dec 0.05 (blue_ratio fv) with
  | left _, left _ => Scores (0.4 + Qmin 0.3 (green_ratio fv)) 0 0 0
  | _, _ => no_contribution
  end.

Definition spec_rule2 (fv : features) : scores :=
  match Qlt_le_dec 0.2 (brown_ratio fv), Qlt_le_dec (green_ratio fv) 0.1 with
  | left _, left _ => Scores 0 (0.4 + Qmin 0.3 (brown_ratio fv)) 0 0
  | _, _ => no_contribution
  end.

Definition spec_rule3 (fv : features) : scores :=
  if Qlt_le_dec 0.4 (blue_ratio fv)
  then Scores 0 0 (0.4 + Qmin 0.3 (blue_ratio fv)) 0
  else no_contribution.

Definition spec_rule4 (fv : features) : scores :=
  if Qlt_le_dec 0.3 (gray_ratio fv) then Scores 0 0 0.2 0.2 else no_contribution.

Definition spec_rule5 (fv : features) : scores :=
  if Qlt_le_dec 500 (texture_variance fv) then Scores 0.2 0 0 0
  else if Qlt_le_dec (texture_variance fv) 100 then Scores 0 0 0 0.3
  else no_contribution.

Definition spec_rule6 (fv : features) : scores :=
  if Qlt_le_dec 10 (edge_density fv) then Scores 0 0.2 0 0.2 else no_contribution.

Definition spec_scores (fv : features) : scores :=
  fold_right scores_add no_contribution
    [ spec_rule1 fv; spec_rule2 fv; spec_rule3 fv;
      spec_rule4 fv; spec_rule5 fv; spec_rule6 fv ].



(** The sentinel prediction of a failed image: class "invalid", confidence
    0.0 and the message under the key "error" of the details. *)
Definition invalid_with (msg : string) (p : ImagePrediction) : Prop :=
  class_name p = "invalid"
  /\ confidence p = 0.0
  /\ details p = [ ("error", VStr msg) ].

(** What the batch loop owes one path: whatever goes wrong for it (the file
    is missing, the decoder raises, the feature extraction raises) ends in the
    sentinel prediction carrying the message of that failure. *)
Definition recovered_locally (fs : filesystem) (path : string)
    (p : ImagePrediction) : Prop :=
  let abs_path := abspath fs path in
  (path_exists fs abs_path = false ->
   invalid_with (String.append "File not found: " abs_path) p)
  /\ (forall e, path_exists fs abs_path = true ->
                load_rgb fs abs_path = inl e ->
                invalid_with (exn_message e) p)
  /\ (forall arr e, path_exists fs abs_path = true ->
                    load_rgb fs abs_path = inr arr ->
                    analyze_array arr = inl e ->
                    invalid_with (exn_message e) p).

(** The predictions that are, and are not, the sentinel. *)
Definition valid_of (ps : list ImagePrediction) : list ImagePrediction :=
  List.filter (fun p => negb (String.eqb (class_name p) "invalid")) ps.


(** Every pixel has three equal channels. *)
Definition gray_pixels (arr : image) : bool :=
  forallb (forallb (fun '(r, g, b) => (r =? g)%Z && (g =? b)%Z)) arr.

(** Every entry of a two-dimensional array is zero. *)
Definition all_zero (xs : list (list Q)) : Prop :=
  Forall (Forall (fun q => q == 0)) xs.

(** ** Further rasters for the examples *)

(** Every channel is an 8-bit value, as [np.array] of an RGB image gives. *)
Definition channels_8bit (arr : image) : bool :=
  forallb (forallb (fun '(r, g, b) =>
    (0 <=? r)%Z && (r <=? 255)%Z && (0 <=? g)%Z && (g <=? 255)%Z
    && (0 <=? b)%Z && (b <=? 255)%Z)) arr.

(** A single row of three gray pixels. *)
Definition strip_image : image := [ [ (90, 90, 90); (90, 90, 90); (90, 90, 90) ] ]%Z.

(** Two files: a one-row strip and the speck raster. *)
Definition edge_fs : filesystem :=
  {| abspath := fun p => p;
     path_exists := fun p =>
       String.eqb p "/img/strip.png" || String.eqb p "/img/speck.png";
     load_rgb := fun p =>
       if String.eqb p "/img/strip.png" then ret strip_image
       else if String.eqb p "/img/speck.png" then ret speck_image
       else raise "No such file or directory" |}.

(** ** Vocabulary for the vote *)

(** How often a class name occurs in a list of names. *)
Definition occurrences (c : string) (names : list string) : nat :=
  length (List.filter (String.eqb c) names).

(** The count a tally holds for a key, 0 when the key is absent
    ([class_counts.get(k, 0)]). *)
Fixpoint tally_get (class_counts : list (string * nat)) (k : string) : nat :=
  match class_counts with
  | [] => 0%nat
  | (k', n) :: rest => if String.eqb k' k then n else tally_get rest k
  end.

(** The distinct names of a list in the order of their first appearance. *)
Definition first_seen (names : list string) : list string :=
  fold_left (fun seen x => if existsb (String.eqb x) seen then seen else seen ++ [x])
            names [].

(** ** JSON values and uncaught exceptions *)

(** A JSON value as the request parser hands it to the endpoint
    ([Dict[str, Any]]); an object keeps its entries in order. *)
#[warnings="-register-all"]
Inductive json :=
| JNull
| JBool (b : bool)
| JInt (n : Z)
| JFloat (x : Q)
| JStr (s : string)
| JList (items : list json)
| JDict (entries : list (string * json)).

(** [d.get(key, default)] on a dict kept as an association list. *)
Fixpoint dict_get {V : Type} (d : list (string * V)) (key : string) (default : V) : V :=
  match d with
  | [] => default
  | (k, v) :: rest => if String.eqb k key then v else dict_get rest key default
  end.

(** [needle in s] for two strings: [needle] occurs in [s] as a substring. *)
Fixpoint str_contains (needle s : string) : bool :=
  String.prefix needle s
  || match s with
     | EmptyString => false
     | String _ rest => str_contains needle rest
     end.

(** [needle in v] for a string [needle]: membership in a list (by [==]),
    substring of a string, key of a dict; any other value is not iterable and
    the test raises [TypeError]. *)
Definition py_in (needle : string) (v : json) : result bool :=
  match v with
  | JList items =>
      ret (existsb (fun x => match x with
                             | JStr s => String.eqb needle s
                             | _ => false
                             end) items)
  | JStr s => ret (str_contains needle s)
  | JDict entries => ret (existsb (fun kv => String.eqb needle (fst kv)) entries)
  | JNull | JBool _ | JInt _ | JFloat _ => raise "argument is not iterable"
  end.

(** How a request ends: with a response, with an [HTTPException] raised by
    the handler, or with an exception nobody catches (the framework answers
    500). *)
Inductive outcome (A : Type) :=
| Returned (a : A)
| Rejected (e : HTTPException)
| Crashed (e : exn).

Arguments Returned {A} a.
Arguments Rejected {A} e.
Arguments Crashed {A} e.

(** ** The health and anomaly endpoints of the image service *)

Module Anomaly.

Record HealthStatus := {
  status : string;
  models_loaded : bool;
  service : string
}.

(** Lines 96-103. *)
Definition health_check (models : gmap string bool) : HealthStatus :=
  {| status := "healthy";
     models_loaded := initialized models;
     service := "mangrove-ai" |}.

Record AnomalyDetectionRequest := {
  reporter_id : string;
  coordinates : list Q;
  options : option (list (string * json))
}.

Record AnomalyFlag := {
  type : string;
  severity : string;
  description : string;
  details : list (string * json)
}.

Record AnomalyDetectionResponse := {
  score : Q;
  flags : list AnomalyFlag;
  isSuspicious : bool;
  analysis : list (string * json)
}.

Definition coordinates_json (request : AnomalyDetectionRequest) : json :=
  JList (map JFloat (coordinates request)).

(** Lines 280-287. *)
Definition check_zero (request : AnomalyDetectionRequest) (lon lat : Q)
    (st : list AnomalyFlag * Q) : list AnomalyFlag * Q :=
  if Qeq_bool lon 0.0 && Qeq_bool lat 0.0
  then (fst st ++ [ {| type := "suspicious_coordinates";
                       severity := "high";
                       description := "Coordinates are exactly (0,0)";
                       details := [ ("coordinates", coordinates_json request) ] |} ],
        snd st + 0.8)
  else st.

(** Lines 290-297. *)
Definition check_range (request : AnomalyDetectionRequest) (lon lat : Q)
    (st : list AnomalyFlag * Q) : list AnomalyFlag * Q :=
  if negb (Qle_bool (-180) lon && Qle_bool lon 180)
     || negb (Qle_bool (-90) lat && Qle_bool lat 90)
  then (fst st ++ [ {| type := "invalid_coordinates";
                       severity := "high";
                       description := "Coordinates outside valid range";
                       details := [ ("coordinates", coordinates_json request) ] |} ],
        snd st + 0.9)
  else st.

(** Lines 276-297: the checks run only on a list of exactly two numbers. *)
Definition check_coordinates (request : AnomalyDetectionRequest)
    (st : list AnomalyFlag * Q) : list AnomalyFlag * Q :=
  match coordinates request with
  | [ lon; lat ] => check_range request lon lat (check_zero request lon lat st)
  | _ => st
  end.

(** Lines 300-307; [request.options] may be [None], and the value under
    "simulate" may be anything. *)
Definition check_frequency (request : AnomalyDetectionRequest)
    (st : list AnomalyFlag * Q) : result (list AnomalyFlag * Q) :=
  match options request with
  | None => raise "'NoneType' object has no attribute 'get'"
  | Some opts =>
      hit <- py_in "high_frequency" (dict_get opts "simulate" (JList [])) ;;
      if hit
      then ret (fst st ++ [ {| type := "frequent_reporter";
                               severity := "medium";
                               description := "High reporting frequency detected";
                               details := [ ("timeframe", JStr "24h");
                                            ("count", JInt 15) ] |} ],
                snd st + 0.4)
      else ret st
  end.

(** Lines 262-320. *)
Definition detect_anomalies (models : gmap string bool)
    (request : AnomalyDetectionRequest) : outcome AnomalyDetectionResponse :=
  if negb (initialized models)
  then Rejected {| status_code := 503; detail := "AI models not loaded" |}
  else
    match check_frequency request (check_coordinates request ([], 0.0)) with
    | inl e => Crashed e
    | inr (flags, score) =>
        Returned {| score := py_round score 3;
                    flags := flags;
                    isSuspicious := Qltb 0.6 score;
                    analysis :=
                      [ ("checks_performed",
                         JList [ JStr "coordinate_validation";
                                 JStr "frequency_analysis" ]);
                        ("reporter_id", JStr (reporter_id request));
                        ("coordinates", coordinates_json request) ] |}
    end.

(** What each kind of flag adds to the score. *)
Definition flag_weight (f : AnomalyFlag) : Q :=
  if String.eqb (type f) "suspicious_coordinates" then 0.8
  else if String.eqb (type f) "invalid_coordinates" then 0.9
  else if String.eqb (type f) "frequent_reporter" then 0.4
  else 0.

(** The coordinates are a pair that is exactly (0, 0) or leaves the valid
    ranges of longitude and latitude. *)
Definition coordinate_anomaly (request : AnomalyDetectionRequest) : Prop :=
  exists lon lat,
    coordinates request = [ lon; lat ]
    /\ ((lon == 0 /\ lat == 0)
        \/ ~ (-180 <= lon <= 180)
        \/ ~ (-90 <= lat <= 90)).

(** The value under "simulate" can be searched. *)
Definition searchable (v : json) : Prop :=
  match v with
  | JList _ | JStr _ | JDict _ => True
  | _ => False
  end.

End Anomaly.

(** ** The stand-alone worker ([ai_worker.py]) *)

Module Worker.

(** The [details] dict of a classified image; the ratios are not rounded. *)
Record details := {
  greenRatio : Q;
  brownRatio : Q;
  blueRatio : Q;
  averageBrightness : Q;
  dimensions : nat * nat
}.

(** The dict [analyze_image] returns, in its two shapes: a classified image
    has the keys class, confidence, model, timestamp and details; a failed one
    has class, confidence, model and error. *)
Inductive prediction :=
| Classified (cls : string) (conf : Q) (model : string)
    (timestamp : option string) (info : details)
| Failed (cls : string) (conf : Q) (model : string) (error : string).

(** [pred.get("class")] and [pred.get("confidence", 0)]; both keys are
    present in either shape. *)
Definition class (p : prediction) : string :=
  match p with
  | Classified cls _ _ _ _ => cls
  | Failed cls _ _ _ => cls
  end.

Definition confidence (p : prediction) : Q :=
  match p with
  | Classified _ conf _ _ _ => conf
  | Failed _ conf _ _ => conf
  end.

(** Lines 46-57: the first branch whose test holds decides. *)
Definition classify (green_ratio brown_ratio blue_ratio : Q) : string * Q :=
  if Qltb 0.25 green_ratio && Qltb 0.05 blue_ratio
  then ("mangrove", 0.6 + py_min 0.3 green_ratio)
  else if Qltb 0.2 brown_ratio && Qltb green_ratio 0.1
  then ("cutting", 0.55 + py_min 0.25 brown_ratio)
  else if Qltb 0.4 blue_ratio
  then ("water_pollution", 0.6 + py_min 0.25 blue_ratio)
  else ("unknown", 0.4 + py_max 0.0 (py_min 0.2 green_ratio)).

(** Lines 26-71, the body of the [try] once the file is decoded. *)
Definition analyze_array (arr : image) : result prediction :=
  let h := height arr in
  let w := width arr in
  let total := (h * w)%nat in
  green <- ratio (count_nonzero green_mask arr) total ;;
  brown <- ratio (count_nonzero brown_mask arr) total ;;
  blue <- ratio (count_nonzero blue_mask arr) total ;;
  let avg := np_mean (map (map brightness) arr) in
  let '(cls, conf) := classify green brown blue in
  ret (Classified cls (py_round (py_min conf 0.98) 3) "python-heuristic-v1" None
         {| greenRatio := green;
            brownRatio := brown;
            blueRatio := blue;
            averageBrightness := avg;
            dimensions := (w, h) |}).

(** Lines 22-73. *)
Definition analyze_image (fs : filesystem) (path : string) : prediction :=
  match (arr <- load_rgb fs path ;; analyze_array arr) with
  | inr p => p
  | inl e => Failed "invalid" 0.0 "python-heuristic-v1" (exn_message e)
  end.

Record batch := {
  predictions : list prediction;
  averageConfidence : Q;
  primaryClass : string;
  isValid : bool;
  totalImages : nat;
  validImages : nat
}.

Definition is_valid (p : prediction) : bool := negb (String.eqb (class p) "invalid").

(** Line 94. *)
Definition avg_conf (valid : list prediction) : Q :=
  match valid with
  | [] => 0.0
  | _ => py_sum (map confidence valid) / of_nat (length valid)
  end.

(** Lines 95-100 and [primary or "unknown"] of line 105. *)
Definition primary_class (valid : list prediction) : string :=
  match valid with
  | [] => "unknown"
  | _ =>
      match py_max_by Nat.ltb snd (fold_left count_class (map class valid) []) with
      | Some (k, _) => if String.eqb k "" then "unknown" else k
      | None => "unknown"
      end
  end.

(** Lines 87-109 for a list of path strings. *)
Definition classify_paths (fs : filesystem) (image_paths : list string) : batch :=
  let predictions := map (fun p => analyze_image fs (abspath fs p)) image_paths in
  let valid := List.filter is_valid predictions in
  {| predictions := predictions;
     averageConfidence := py_round (avg_conf valid) 3;
     primaryClass := primary_class valid;
     isValid := Qltb 0.6 (avg_conf valid);
     totalImages := length image_paths;
     validImages := length valid |}.

(** What the process writes and how it ends. *)
Inductive output :=
| Batch (out : batch)
| ErrorObject (error : string) (message : option string) (exit_code : Z)
| Traceback (e : exn).

(** [for p in image_paths: os.path.abspath(p)]: what the loop visits.  A list
    must hold strings, a string is visited character by character, a dict key
    by key; anything else cannot be iterated. *)
Definition iterate_paths (image_paths : json) : result (list string) :=
  match image_paths with
  | JList items =>
      fold_right (fun item acc =>
                    match item with
                    | JStr s => rest <- acc ;; ret (s :: rest)
                    | _ => raise "expected str, bytes or os.PathLike object"
                    end)
                 (ret []) items
  | JStr s => ret (map (fun c => String c EmptyString) (String.list_ascii_of_string s))
  | JDict entries => ret (map fst entries)
  | JNull | JBool _ | JInt _ | JFloat _ => raise "object is not iterable"
  end.

(** Lines 76-114; [parsed] is what [json.load(sys.stdin)] gave. *)
Definition main (fs : filesystem) (parsed : result json) : output :=
  match parsed with
  | inl e => ErrorObject "invalid input" (Some (exn_message e)) 1
  | inr (JDict payload) =>
      match dict_get payload "action" JNull with
      | JStr "classify_images" =>
          match iterate_paths (dict_get payload "image_paths" (JList [])) with
          | inr paths => Batch (classify_paths fs paths)
          | inl e => Traceback e
          end
      | _ => ErrorObject "unsupported action" None 0
      end
  | inr _ => Traceback (Exception "object has no attribute 'get'")
  end.

End Worker.

(** ** The satellite service ([satellite_service.py]) *)

Module Satellite.

(** *** Dates *)

(** A [datetime]: the wall-clock reading in microseconds since
    0001-01-01T00:00:00, and the UTC offset in microseconds when the value is
    timezone-aware ([None] for a naive value). *)
Record datetime := { ticks : Z; utcoffset : option Z }.

Definition day : Z := 86400 * 1000000.

(** [datetime.max], 9999-12-31T23:59:59.999999. *)
Definition max_ticks : Z := 3652059 * day - 1.

(** [dt + timedelta(days=n)]: the wall-clock reading moves, the offset stays,
    and a result outside year 1..9999 raises [OverflowError]. *)
Definition add_days (dt : datetime) (n : Z) : result datetime :=
  let t := (ticks dt + n * day)%Z in
  if (0 <=? t)%Z && (t <=? max_ticks)%Z
  then ret {| ticks := t; utcoffset := utcoffset dt |}
  else raise "date value out of range".

(** The instant a value denotes, for comparing two naive or two aware
    values. *)
Definition instant (dt : datetime) : Z :=
  match utcoffset dt with
  | Some off => (ticks dt - off)%Z
  | None => ticks dt
  end.

Definition same_kind (a b : datetime) : bool :=
  match utcoffset a, utcoffset b with
  | Some _, Some _ | None, None => true
  | _, _ => false
  end.

(** [(b - a).days]; mixing a naive and an aware value raises [TypeError]. *)
Definition days_between (a b : datetime) : result Z :=
  if same_kind a b then ret ((instant b - instant a) / day)%Z
  else raise "can't subtract offset-naive and offset-aware datetimes".

(** *** The outside world *)

Record modis_query := {
  latitude : Q;
  longitude : Q;
  startDate : string;
  endDate : string;
  bearer : string
}.

(** What [requests.get] returned: [resp.ok], [resp.status_code], [resp.text]
    and the outcome of [resp.json()]. *)
Record http_response := {
  ok : bool;
  http_status : Z;
  text : string;
  body : result json
}.

(** The clock, the environment, the date parser and formatters of the
    standard library, [float] on a string, and the HTTP client.  The readings
    of the clock during one request are taken to be equal. *)
Record world := {
  utcnow : datetime;
  getenv : string -> option string;
  fromisoformat : string -> result datetime;
  strftime_ymd : datetime -> string;
  isoformat : datetime -> string;
  parse_float : string -> result Q;
  requests_get : modis_query -> result http_response
}.

(** *** The MODIS lookup *)

Record ndvi_data := { ndvi : Q; confidence : Q; dataPoints : nat }.

(** Truthiness of a parsed JSON value. *)
Definition truthy (v : json) : bool :=
  match v with
  | JNull => false
  | JBool b => b
  | JInt n => negb (n =? 0)%Z
  | JFloat x => negb (Qeq_bool x 0)
  | JStr s => negb (String.eqb s "")
  | JList items => match items with [] => false | _ => true end
  | JDict entries => match entries with [] => false | _ => true end
  end.

(** [for item in subset]: the items a value yields when iterated. *)
Definition iterate (v : json) : result (list json) :=
  match v with
  | JList items => ret items
  | JStr s => ret (map (fun c => JStr (String c EmptyString))
                       (String.list_ascii_of_string s))
  | JDict entries => ret (map (fun kv => JStr (fst kv)) entries)
  | JNull | JBool _ | JInt _ | JFloat _ => raise "object is not iterable"
  end.

(** [value / 10000.0]. *)
Definition scaled (value : json) : result Q :=
  match value with
  | JInt n => ret (inject_Z n / 10000)
  | JFloat x => ret (x / 10000)
  | JBool b => ret ((if b then 1 else 0) / 10000)
  | _ => raise "unsupported operand type(s) for /"
  end.

(** One step of the comprehension of line 78: the item must offer [get]; it
    contributes when its band is the NDVI band and its value is not [None]. *)
Definition ndvi_value (item : json) : result (option Q) :=
  match item with
  | JDict entries =>
      match dict_get entries "band" JNull with
      | JStr "250m_16_days_NDVI" =>
          match dict_get entries "value" JNull with
          | JNull => ret None
          | value => v <- scaled value ;; ret (Some v)
          end
      | _ => ret None
      end
  | _ => raise "object has no attribute 'get'"
  end.

Fixpoint ndvi_values (items : list json) : result (list Q) :=
  match items with
  | [] => ret []
  | item :: rest =>
      v <- ndvi_value item ;;
      vs <- ndvi_values rest ;;
      ret (match v with Some x => x :: vs | None => vs end)
  end.

(** Lines 76-83, on the parsed body. *)
Definition summarize (data : json) : result (option ndvi_data) :=
  match data with
  | JDict entries =>
      let found := dict_get entries "subset" JNull in
      let subset := if truthy found then found else JList [] in
      items <- iterate subset ;;
      ndvi_vals <- ndvi_values items ;;
      match ndvi_vals with
      | [] => ret None
      | _ =>
          let avg := py_sum ndvi_vals / of_nat (length ndvi_vals) in
          let confidence := py_min 1.0 (of_nat (length ndvi_vals) / 5.0) in
          ret (Some {| ndvi := avg;
                       confidence := confidence;
                       dataPoints := length ndvi_vals |})
      end
  | _ => raise "object has no attribute 'get'"
  end.

(** Lines 54-56. *)
Definition format_date_for_nasa (w : world) (date : datetime) (day_offset : Z)
    : result string :=
  target <- add_days date day_offset ;;
  ret (strftime_ymd w target).

(** Lines 59-86; every exception inside the [try] ends in [None].  Both
    callers pass a non-empty key, which goes into the Authorization header. *)
Definition get_nasa_modis_ndvi (w : world) (lon lat : Q) (date : datetime)
    (api_key : string) : option ndvi_data :=
  match (start <- format_date_for_nasa w date (-16) ;;
         stop <- format_date_for_nasa w date 16 ;;
         resp <- requests_get w {| latitude := lat;
                                   longitude := lon;
                                   startDate := start;
                                   endDate := stop;
                                   bearer := api_key |} ;;
         if negb (ok resp) then ret None
         else data <- body resp ;; summarize data)
  with
  | inr r => r
  | inl _ => None
  end.

(** [if api_key:] on the value of [os.getenv]. *)
Definition usable_key (w : world) : option string :=
  match getenv w "NASA_API_KEY" with
  | Some k => if String.eqb k "" then None else Some k
  | None => None
  end.

(** *** The NDVI endpoint *)

Record NDVIRequest := {
  req_longitude : Q;
  req_latitude : Q;
  days_back : option Z
}.

Record NdviAnalysis := {
  beforeNDVI : option Q;
  afterNDVI : option Q;
  difference : option Q;
  changeDetected : bool;
  satelliteSource : string;
  analysisDate : string;
  analysis_confidence : Q
}.

Record VegetationLoss := {
  percentage : option Q;
  area : option Q;
  confirmed : bool
}.

Record Metadata := {
  pastDate : option string;
  currentDate : option string;
  coordinates : list Q
}.

Record NdviResponse := {
  ndviAnalysis : NdviAnalysis;
  vegetationLoss : VegetationLoss;
  metadata : Metadata
}.

(** [float(os.getenv("NDVI_CHANGE_THRESHOLD", "0.2"))]. *)
Definition change_threshold (w : world) : result Q :=
  match getenv w "NDVI_CHANGE_THRESHOLD" with
  | Some s => parse_float w s
  | None => ret 0.2
  end.

(** Lines 103-105. *)
Definition vegetation_loss_pct (past_ndvi current_ndvi : Q) : Q :=
  if Qltb 0 past_ndvi
  then ((past_ndvi - current_ndvi) / past_ndvi) * 100
  else 0.0.

(** Lines 99-127. *)
Definition ndvi_report (w : world) (req : NDVIRequest) (now past : datetime)
    (past_data current_data : ndvi_data) : result NdviResponse :=
  let ndvi_diff := ndvi past_data - ndvi current_data in
  threshold <- change_threshold w ;;
  let pct := vegetation_loss_pct (ndvi past_data) (ndvi current_data) in
  ret {| ndviAnalysis :=
           {| beforeNDVI := Some (py_round (ndvi past_data) 3);
              afterNDVI := Some (py_round (ndvi current_data) 3);
              difference := Some (py_round ndvi_diff 3);
              changeDetected := Qltb threshold (Qabs ndvi_diff);
              satelliteSource := "nasa-modis";
              analysisDate := isoformat w now;
              analysis_confidence :=
                py_min (confidence past_data) (confidence current_data) |};
         vegetationLoss :=
           {| percentage := Some (py_round pct 2);
              area := None;
              confirmed := Qltb 15 pct |};
         metadata :=
           {| pastDate := Some (isoformat w past);
              currentDate := Some (isoformat w now);
              coordinates := [ req_longitude req; req_latitude req ] |} |}.

(** Lines 130-142. *)
Definition ndvi_fallback (w : world) (req : NDVIRequest) (now : datetime)
    : NdviResponse :=
  {| ndviAnalysis :=
       {| beforeNDVI := None;
          afterNDVI := None;
          difference := None;
          changeDetected := false;
          satelliteSource := "unavailable";
          analysisDate := isoformat w now;
          analysis_confidence := 0.0 |};
     vegetationLoss := {| percentage := None; area := None; confirmed := false |};
     metadata :=
       {| pastDate := None;
          currentDate := None;
          coordinates := [ req_longitude req; req_latitude req ] |} |}.

(** Lines 90-142; an exception here is caught by nobody. *)
Definition ndvi_endpoint (w : world) (req : NDVIRequest) : result NdviResponse :=
  let now := utcnow w in
  match days_back req with
  | None => raise "unsupported type for timedelta days component: NoneType"
  | Some d =>
      past <- add_days now (- d) ;;
      match usable_key w with
      | Some api_key =>
          let past_data :=
            get_nasa_modis_ndvi w (req_longitude req) (req_latitude req) past api_key in
          let current_data :=
            get_nasa_modis_ndvi w (req_longitude req) (req_latitude req) now api_key in
          match past_data, current_data with
          | Some p, Some c => ndvi_report w req now past p c
          | _, _ => ret (ndvi_fallback w req now)
          end
      | None => ret (ndvi_fallback w req now)
      end
  end.

(** *** The deforestation endpoint *)

Record DeforestRequest := {
  def_longitude : Q;
  def_latitude : Q;
  sensitivity : option string
}.

Record DeforestResponse := {
  detected : bool;
  def_confidence : Q;
  severity : string;
  analysis : NdviResponse;
  def_coordinates : list Q
}.

(** Lines 187-202 on the two values read from the NDVI response. *)
Definition assess (before after : option Q) : bool * Q * string :=
  match before, after with
  | Some b, Some a =>
      if negb (Qeq_bool b 0) && Qltb 0 b
      then
        let pct := ((b - a) / b) * 100 in
        let detected := Qltb (0.2 * 100) pct in
        if Qltb 50 pct then (detected, 0.9, "critical")
        else if Qltb 25 pct then (detected, 0.75, "high")
        else if Qltb 10 pct then (detected, 0.6, "medium")
        else (detected, 0.5, "low")
      else (false, 0.0, "low")
  | _, _ => (false, 0.0, "low")
  end.

(** Lines 175-210. *)
Definition deforestation (w : world) (req : DeforestRequest)
    : result DeforestResponse :=
  past <- add_days (utcnow w) (-60) ;;
  ndvi_resp <- ndvi_endpoint w {| req_longitude := def_longitude req;
                                  req_latitude := def_latitude req;
                                  days_back := Some 60%Z |} ;;
  let before := beforeNDVI (ndviAnalysis ndvi_resp) in
  let after := afterNDVI (ndviAnalysis ndvi_resp) in
  let '(detected, confidence, severity) := assess before after in
  ret {| detected := detected;
         def_confidence := confidence;
         severity := severity;
         analysis := ndvi_resp;
         def_coordinates := [ def_longitude req; def_latitude req ] |}.

(** *** The historical endpoint *)

Record HistoricalRequest := {
  hist_longitude : Q;
  hist_latitude : Q;
  hist_startDate : string;
  hist_endDate : string
}.

Record entry := {
  date : string;
  entry_ndvi : option Q;
  entry_confidence : Q
}.

(** Lines 162-168: one pass of the loop body. *)
Definition make_entry (w : world) (req : HistoricalRequest) (current : datetime)
    : entry :=
  match usable_key w with
  | Some api_key =>
      match get_nasa_modis_ndvi w (hist_longitude req) (hist_latitude req)
              current api_key with
      | Some nd => {| date := strftime_ymd w current;
                      entry_ndvi := Some (py_round (ndvi nd) 3);
                      entry_confidence := confidence nd |}
      | None => {| date := strftime_ymd w current;
                   entry_ndvi := None;
                   entry_confidence := 0 |}
      end
  | None => {| date := strftime_ymd w current;
               entry_ndvi := None;
               entry_confidence := 0 |}
  end.

(** Lines 161-169, [while current <= end]; [current] is of the kind of
    [start], which the subtraction of line 153 has found to be the kind of
    [end], so the comparison is one of instants.  [None] when the fuel runs
    out before the loop ends. *)
Fixpoint sample (fuel : nat) (w : world) (req : HistoricalRequest)
    (stop : datetime) (step : Z) (current : datetime) (data : list entry)
    : option (result (list entry)) :=
  match fuel with
  | O => None
  | S fuel' =>
      if (instant current <=? instant stop)%Z
      then
        match add_days current step with
        | inl e => Some (inl e)
        | inr next =>
            sample fuel' w req stop step next (data ++ [ make_entry w req current ])
        end
      else Some (inr data)
  end.

(** Passes the loop can make between two instants, plus the pass that ends
    it. *)
Definition passes (start stop : datetime) (step : Z) : nat :=
  Z.to_nat ((instant stop - instant start) / (step * day) + 2).

(** Lines 146-171. *)
Definition historical (w : world) (req : HistoricalRequest)
    : option (outcome (list entry)) :=
  match (start <- fromisoformat w (hist_startDate req) ;;
         stop <- fromisoformat w (hist_endDate req) ;;
         ret (start, stop)) with
  | inl _ =>
      Some (Rejected {| status_code := 400;
                        detail := "Invalid date format, use ISO YYYY-MM-DD" |})
  | inr (start, stop) =>
      match days_between start stop with
      | inl e => Some (Crashed e)
      | inr d =>
          if (d <=? 0)%Z
          then Some (Rejected {| status_code := 400;
                                 detail := "endDate must be after startDate" |})
          else
            let step := Z.max 16 (d / 20) in
            match sample (passes start stop step) w req stop step start [] with
            | None => None
            | Some (inl e) => Some (Crashed e)
            | Some (inr data) => Some (Returned data)
            end
      end
  end.

End Satellite.
(** ** A concrete world for the satellite examples *)

Module SatelliteDemo.
Import Satellite.

(** Some day in the 2020s, as a naive reading. *)
Definition demo_now : datetime := {| ticks := 738000 * day; utcoffset := None |}.

(** A MODIS answer with [n] NDVI items of raw value [raw], one item of another
    band and one NDVI item without a value. *)
Definition modis_body (n : nat) (raw : Z) : json :=
  JDict [ ("subset",
           JList (JDict [ ("band", JStr "250m_16_days_EVI"); ("value", JInt 1) ]
                  :: JDict [ ("band", JStr "250m_16_days_NDVI"); ("value", JNull) ]
                  :: repeat (JDict [ ("band", JStr "250m_16_days_NDVI");
                                     ("value", JInt raw) ]) n)) ].

(** The key is set; dates more than a month old are labelled "past"; MODIS
    reports 0.8 for them and 0.5 for recent ones. *)
Definition demo_world : world :=
  {| utcnow := demo_now;
     getenv := fun k => if String.eqb k "NASA_API_KEY" then Some "secret" else None;
     fromisoformat := fun s =>
       if String.eqb s "2021-07-01"
       then ret {| ticks := 738000 * day; utcoffset := None |}
       else if String.eqb s "2021-07-01T18:00"
       then ret {| ticks := 738000 * day + 64800 * 1000000; utcoffset := None |}
       else if String.eqb s "2022-08-05"
       then ret {| ticks := 738400 * day; utcoffset := None |}
       else raise "Invalid isoformat string";
     strftime_ymd := fun d =>
       if (ticks d <? (738000 - 30) * day)%Z then "past" else "recent";
     isoformat := fun d =>
       if (ticks d <? (738000 - 30) * day)%Z then "past" else "recent";
     parse_float := fun s => raise "could not convert string to float";
     requests_get := fun q =>
       ret {| ok := true;
              http_status := 200;
              text := "";
              body := ret (if String.eqb (startDate q) "past"
                           then modis_body 3 8000
                           else modis_body 6 5000) |} |}.

(** The same world without the API key. *)
Definition keyless_world : world :=
  {| utcnow := utcnow demo_world;
     getenv := fun _ => None;
     fromisoformat := fromisoformat demo_world;
     strftime_ymd := strftime_ymd demo_world;
     isoformat := isoformat demo_world;
     parse_float := parse_float demo_world;
     requests_get := requests_get demo_world |}.

Definition demo_ndvi_request : NDVIRequest :=
  {| req_longitude := 72.8; req_latitude := 19.1; days_back := Some 60%Z |}.

Definition demo_deforest_request : DeforestRequest :=
  {| def_longitude := 72.8; def_latitude := 19.1; sensitivity := Some "medium" |}.

Definition demo_historical_request : HistoricalRequest :=
  {| hist_longitude := 72.8;
     hist_latitude := 19.1;
     hist_startDate := "2021-07-01";
     hist_endDate := "2022-08-05" |}.

End SatelliteDemo.

(** ** Reading the historical loop *)

(** The value of [current] in pass [k] of the loop of [historical]. *)
Definition nth_date (start : Satellite.datetime) (step : Z) (k : nat)
    : Satellite.datetime :=
  {| Satellite.ticks :=
       (Satellite.ticks start + Z.of_nat k * (step * Satellite.day))%Z;
     Satellite.utcoffset := Satellite.utcoffset start |}.

(** * Properties *)

(** ** Comparisons, minimum and maximum *)

Lemma Qltb_lt (x y : Q) : Qltb x y = true <-> x < y.
Proof.
  unfold Qltb. rewrite negb_true_iff, <- not_true_iff_false, Qle_bool_iff.
  split; [apply Qnot_le_lt | apply Qlt_not_le].
Qed.

Lemma Qltb_ge (x y : Q) : Qltb x y = false <-> y <= x.
Proof.
  unfold Qltb. rewrite negb_false_iff. apply Qle_bool_iff.
Qed.

(** Split on every comparison in sight, innermost first, and leave linear
    arithmetic. *)
Ltac compare_all :=
  repeat match goal with
  | |- context [Qltb ?a ?b] =>
      lazymatch a with context [Qltb _ _] => fail | _ => idtac end;
      lazymatch b with context [Qltb _ _] => fail | _ => idtac end;
      let H := fresh "Hcmp" in
      destruct (Qltb a b) eqn:H;
      [ apply Qltb_lt in H | apply Qltb_ge in H ]
  | |- context [Qlt_le_dec ?a ?b] => destruct (Qlt_le_dec a b)
  end.

#[global] Instance Qltb_proper : Proper (Qeq ==> Qeq ==> eq) Qltb.
Proof.
  intros a b Hab c d Hcd. unfold Qltb. now rewrite Hab, Hcd.
Qed.


Lemma py_max_Qmax (a b : Q) : py_max a b == Qmax a b.
Proof.
  unfold py_max. compare_all.
  - symmetry. apply Q.max_r. lra.
  - symmetry. apply Q.max_l. lra.
Qed.

Lemma py_min_le_l (a b : Q) : py_min a b <= a.
Proof. unfold py_min. compare_all; lra. Qed.

Lemma py_min_le_r (a b : Q) : py_min a b <= b.
Proof. unfold py_min. compare_all; lra. Qed.

Lemma py_min_glb (a b c : Q) : c <= a -> c <= b -> c <= py_min a b.
Proof. unfold py_min. compare_all; lra. Qed.

(** ** The scoring rules (refinement of the six rules) *)

Lemma scores_eq_refl (a : scores) : scores_eq a a.
Proof. repeat split; reflexivity. Qed.

Lemma scores_eq_trans (a b c : scores) :
  scores_eq a b -> scores_eq b c -> scores_eq a c.
Proof.
  intros (H1 & H2 & H3 & H4) (K1 & K2 & K3 & K4).
  repeat split; etransitivity; eassumption.
Qed.

Lemma scores_add_eq_l (a b r : scores) :
  scores_eq a b -> scores_eq (scores_add a r) (scores_add b r).
Proof.
  intros (H1 & H2 & H3 & H4). repeat split; simpl; lra.
Qed.

(** Each statement of the source adds exactly the contribution of its rule to
    the accumulators it is given. *)
Ltac min_cases :=
  repeat match goal with
  | |- context [Qmin ?a ?b] =>
      let H := fresh "Hmin" in
      let m := fresh "m" in
      pose proof (Q.min_spec a b) as H;
      set (m := Qmin a b) in *; clearbody m;
      destruct H as [[? ?] | [? ?]]
  | |- context [Qmax ?a ?b] =>
      let H := fresh "Hmax" in
      let m := fresh "m" in
      pose proof (Q.max_spec a b) as H;
      set (m := Qmax a b) in *; clearbody m;
      destruct H as [[? ?] | [? ?]]
  end.

Ltac step_adds_rule :=
  intros; repeat split; unfold py_min; compare_all; simpl; min_cases; lra.

Lemma score_green_adds fv s :
  scores_eq (score_green fv s) (scores_add s (spec_rule1 fv)).
Proof. unfold score_green, spec_rule1. step_adds_rule. Qed.

Lemma score_brown_adds fv s :
  scores_eq (score_brown fv s) (scores_add s (spec_rule2 fv)).
Proof. unfold score_brown, spec_rule2. step_adds_rule. Qed.

Lemma score_blue_adds fv s :
  scores_eq (score_blue fv s) (scores_add s (spec_rule3 fv)).
Proof. unfold score_blue, spec_rule3. step_adds_rule. Qed.

Lemma score_gray_adds fv s :
  scores_eq (score_gray fv s) (scores_add s (spec_rule4 fv)).
Proof. unfold score_gray, spec_rule4. step_adds_rule. Qed.

Lemma score_texture_adds fv s :
  scores_eq (score_texture fv s) (scores_add s (spec_rule5 fv)).
Proof. unfold score_texture, spec_rule5. step_adds_rule. Qed.

Lemma score_edges_adds fv s :
  scores_eq (score_edges fv s) (scores_add s (spec_rule6 fv)).
Proof. unfold score_edges, spec_rule6. step_adds_rule. Qed.

(** The six statements in program order: the accumulators start at zero and
    receive the contributions of rules 1 to 6 one after the other. *)
Lemma heuristic_scores_accumulate (fv : features) :
  scores_eq (heuristic_scores fv)
    (scores_add
       (scores_add
          (scores_add
             (scores_add
                (scores_add (scores_add zero_scores (spec_rule1 fv))
                   (spec_rule2 fv))
                (spec_rule3 fv))
             (spec_rule4 fv))
          (spec_rule5 fv))
       (spec_rule6 fv)).
Proof.
  unfold heuristic_scores.
  eapply scores_eq_trans; [apply score_edges_adds |].
  apply scores_add_eq_l.
  eapply scores_eq_trans; [apply score_texture_adds |].
  apply scores_add_eq_l.
  eapply scores_eq_trans; [apply score_gray_adds |].
  apply scores_add_eq_l.
  eapply scores_eq_trans; [apply score_blue_adds |].
  apply scores_add_eq_l.
  eapply scores_eq_trans; [apply score_brown_adds |].
  apply scores_add_eq_l.
  apply score_green_adds.
Qed.

(** C1. For every feature vector the four accumulators computed by the six
    statements of lines 141-169 are the sum of the contributions of the six
    rules of the specification, each rule deciding on the feature vector
    alone: rule 1 adds 0.4 + min(0.3, greenRatio) to mangrove iff
    greenRatio > 0.25 and blueRatio > 0.05, rule 2 adds
    0.4 + min(0.3, brownRatio) to cutting iff brownRatio > 0.2 and
    greenRatio < 0.1, rule 3 adds 0.4 + min(0.3, blueRatio) to pollution iff
    blueRatio > 0.4, rule 4 adds 0.2 to pollution and to encroachment iff
    grayRatio > 0.3, rule 5 adds 0.2 to mangrove iff textureVariance > 500 and
    otherwise 0.3 to encroachment iff textureVariance < 100, rule 6 adds 0.2
    to cutting and to encroachment iff edgeDensity > 10; nothing else
    contributes. *)
Theorem scores_are_the_six_rules (fv : features) :
  scores_eq (heuristic_scores fv) (spec_scores fv).
Proof.
  destruct (heuristic_scores_accumulate fv) as (Hm & Hc & Hp & He).
  unfold scores_eq, spec_scores.
  cbn [fold_right scores_add mangrove_score cutting_score pollution_score
       encroachment_score zero_scores no_contribution] in *.
  repeat split.
  - rewrite Hm. ring.
  - rewrite Hc. ring.
  - rewrite Hp. ring.
  - rewrite He. ring.
Qed.

(** ** Ranges of the rule contributions and of the scores *)

Ltac rule_range := repeat split; compare_all; simpl; min_cases; lra.

Lemma spec_rule1_range fv :
  let r := spec_rule1 fv in
  (0 <= mangrove_score r <= 0.7) /\ cutting_score r == 0
  /\ pollution_score r == 0 /\ encroachment_score r == 0.
Proof. unfold spec_rule1, no_contribution. rule_range. Qed.

Lemma spec_rule2_range fv :
  let r := spec_rule2 fv in
  mangrove_score r == 0 /\ (0 <= cutting_score r <= 0.7)
  /\ pollution_score r == 0 /\ encroachment_score r == 0.
Proof. unfold spec_rule2, no_contribution. rule_range. Qed.

Lemma spec_rule3_range fv :
  let r := spec_rule3 fv in
  mangrove_score r == 0 /\ cutting_score r == 0
  /\ (0 <= pollution_score r <= 0.7) /\ encroachment_score r == 0.
Proof. unfold spec_rule3, no_contribution. rule_range. Qed.

Lemma spec_rule4_range fv :
  let r := spec_rule4 fv in
  mangrove_score r == 0 /\ cutting_score r == 0
  /\ (0 <= pollution_score r <= 0.2) /\ (0 <= encroachment_score r <= 0.2).
Proof. unfold spec_rule4, no_contribution. rule_range. Qed.

Lemma spec_rule5_range fv :
  let r := spec_rule5 fv in
  (0 <= mangrove_score r <= 0.2) /\ cutting_score r == 0
  /\ pollution_score r == 0 /\ (0 <= encroachment_score r <= 0.3).
Proof. unfold spec_rule5, no_contribution. rule_range. Qed.

Lemma spec_rule6_range fv :
  let r := spec_rule6 fv in
  mangrove_score r == 0 /\ (0 <= cutting_score r <= 0.2)
  /\ pollution_score r == 0 /\ (0 <= encroachment_score r <= 0.2).
Proof. unfold spec_rule6, no_contribution. rule_range. Qed.

(** Bring the refinement and the six ranges into the context. *)
Ltac use_rules fv :=
  let H := fresh "Hspec" in
  pose proof (heuristic_scores_accumulate fv) as H;
  unfold scores_eq, scores_add, zero_scores in H;
  simpl in H;
  pose proof (spec_rule1_range fv); pose proof (spec_rule2_range fv);
  pose proof (spec_rule3_range fv); pose proof (spec_rule4_range fv);
  pose proof (spec_rule5_range fv); pose proof (spec_rule6_range fv);
  cbv zeta in *.

Lemma score_bounds (fv : features) :
  let s := heuristic_scores fv in
  (0 <= mangrove_score s <= 0.9) /\ (0 <= cutting_score s <= 0.9)
  /\ (0 <= pollution_score s <= 0.9) /\ (0 <= encroachment_score s <= 0.7).
Proof.
  use_rules fv. repeat split; lra.
Qed.

(** ** The arg-max of [max(..., key=...)] *)

Section ArgMax.
Context {A : Type} (key : A -> Q).

(** The running maximum splits the sequence: everything before it is
    strictly smaller, nothing after it is larger. *)
Lemma fold_max_split (rest : list A) (x r : A) :
  fold_left (fun best y => if Qltb (key best) (key y) then y else best)
    rest x = r ->
  exists pre post,
    x :: rest = pre ++ r :: post
    /\ Forall (fun e => key e < key r) pre
    /\ Forall (fun e => key e <= key r) post.
Proof.
  revert x. induction rest as [| y rest IH]; intros x Hr; simpl in Hr.
  - subst r. exists [], []. repeat split; constructor.
  - destruct (Qltb (key x) (key y)) eqn:Hxy.
    + apply Qltb_lt in Hxy.
      destruct (IH y Hr) as (pre & post & Heq & Hpre & Hpost).
      assert (Hy : key y <= key r).
      { destruct pre as [| p pre]; simpl in Heq;
          injection Heq as Hhead _.
        - rewrite Hhead. apply Qle_refl.
        - rewrite Hhead. apply Qlt_le_weak.
          exact (Forall_inv Hpre). }
      exists (x :: pre), post. repeat split.
      * simpl. now rewrite Heq.
      * constructor; [lra | assumption].
      * assumption.
    + apply Qltb_ge in Hxy.
      destruct (IH x Hr) as (pre & post & Heq & Hpre & Hpost).
      destruct pre as [| p pre]; simpl in Heq;
        injection Heq as Hhead Htail.
      * exists [], (y :: post). repeat split.
        -- simpl. now rewrite Hhead, Htail.
        -- constructor.
        -- constructor; [rewrite <- Hhead; exact Hxy | assumption].
      * exists (p :: y :: pre), post. repeat split.
        -- simpl. now rewrite Hhead, Htail.
        -- pose proof (Forall_inv Hpre) as Hp. rewrite <- Hhead in Hp.
           constructor; [exact (Forall_inv Hpre) |].
           constructor; [lra | exact (Forall_inv_tail Hpre)].
        -- assumption.
Qed.

Lemma py_max_by_split (x : A) (rest : list A) :
  exists r pre post,
    py_max_by Qltb key (x :: rest) = Some r
    /\ x :: rest = pre ++ r :: post
    /\ Forall (fun e => key e < key r) pre
    /\ Forall (fun e => key e <= key r) post.
Proof.
  destruct (fold_max_split rest x _ eq_refl) as (pre & post & H).
  eexists _, pre, post. split; [reflexivity | exact H].
Qed.
End ArgMax.

(** ** Rounding *)

Lemma round_half_even_le (x : Q) (n : Z) :
  x <= inject_Z n -> (round_half_even x <= n)%Z.
Proof.
  intros Hx. unfold round_half_even.
  assert (Hf : (Qfloor x <= n)%Z).
  { rewrite <- (Qfloor_Z n). now apply Qfloor_resp_le. }
  assert (Hup : 1 # 2 <= x - inject_Z (Qfloor x) -> (Qfloor x + 1 <= n)%Z).
  { intros Hr. assert (Hlt : inject_Z (Qfloor x) < inject_Z n) by lra.
    rewrite <- Zlt_Qlt in Hlt. lia. }
  compare_all.
  - exact Hf.
  - apply Hup. lra.
  - destruct (Z.even (Qfloor x)); [exact Hf | apply Hup; lra].
Qed.

Lemma round_half_even_ge (x : Q) (n : Z) :
  inject_Z n <= x -> (n <= round_half_even x)%Z.
Proof.
  intros Hx. unfold round_half_even.
  assert (Hf : (n <= Qfloor x)%Z).
  { rewrite <- (Qfloor_Z n). now apply Qfloor_resp_le. }
  compare_all; [| | destruct (Z.even (Qfloor x))]; lia.
Qed.

(** Rounding to three decimals never crosses a multiple of 0.001. *)
Lemma py_round3_bounds (c : Q) (lo hi : Z) :
  lo # 1000 <= c <= hi # 1000 ->
  lo # 1000 <= py_round c 3 <= hi # 1000.
Proof.
  assert (E : forall z, z # 1000 == inject_Z z * (1 # 1000)).
  { intros z. unfold Qeq. simpl. lia. }
  rewrite (E lo), (E hi). intros [Hlo Hhi]. unfold py_round.
  change (inject_Z (10 ^ Z.of_nat 3)) with (inject_Z 1000).
  unfold Qdiv. change (/ inject_Z 1000) with (1 # 1000).
  assert (Hscale : inject_Z 1000 == 1000) by reflexivity.
  set (r := round_half_even (c * inject_Z 1000)).
  assert (Hr : (lo <= r <= hi)%Z).
  { split.
    - apply round_half_even_ge. rewrite Hscale.
      generalize dependent (inject_Z lo). intros; lra.
    - apply round_half_even_le. rewrite Hscale.
      generalize dependent (inject_Z hi). intros; lra. }
  destruct Hr as [Hr1 Hr2].
  rewrite Zle_Qle in Hr1, Hr2.
  generalize dependent (inject_Z lo). generalize dependent (inject_Z hi).
  generalize (inject_Z r). intros; lra.
Qed.

(** ** Selection of the class and the confidence *)

Lemma primary_entry_split (s : scores) :
  exists k v pre post,
    primary_entry s = Some (k, v)
    /\ scores_dict s = pre ++ (k, v) :: post
    /\ Forall (fun e => snd e < v) pre
    /\ Forall (fun e => snd e <= v) post.
Proof.
  unfold primary_entry, scores_dict.
  match goal with
  | |- context [py_max_by Qltb snd (?x :: ?rest)] =>
      destruct (py_max_by_split snd x rest) as ([k v] & pre & post & H)
  end.
  exists k, v, pre, post. exact H.
Qed.

Lemma scores_dict_entry (fv : features) (k : string) (v : Q) :
  In (k, v) (scores_dict (heuristic_scores fv)) ->
  In k ["mangrove"; "cutting"; "pollution"; "encroachment"] /\ 0 <= v <= 0.9.
Proof.
  pose proof (score_bounds fv) as Hb. cbv zeta in Hb.
  unfold scores_dict. simpl.
  intros [H | [H | [H | [H | []]]]]; injection H as <- <-; split; auto; lra.
Qed.

Lemma capped_confidence_id (v : Q) : v <= 0.9 -> capped_confidence v = v.
Proof.
  intros Hv. unfold capped_confidence, py_min.
  destruct (Qltb 0.95 v) eqn:H; [apply Qltb_lt in H; lra | reflexivity].
Qed.

Lemma fallback_confidence_range (fv : features) :
  0.4 <= fallback_confidence fv <= 0.6.
Proof.
  unfold fallback_confidence, py_max, py_min. compare_all; lra.
Qed.


(** What [select_class] returns, in terms of the winning entry. *)
Lemma select_class_cases (fv : features) :
  exists k v pre post,
    primary_entry (heuristic_scores fv) = Some (k, v)
    /\ scores_dict (heuristic_scores fv) = pre ++ (k, v) :: post
    /\ Forall (fun e => snd e < v) pre
    /\ Forall (fun e => snd e <= v) post
    /\ (capped_confidence v < 0.3 ->
        select_class fv = inr ("unknown", fallback_confidence fv))
    /\ (0.3 <= capped_confidence v ->
        select_class fv = inr (k, capped_confidence v)).
Proof.
  destruct (primary_entry_split (heuristic_scores fv))
    as (k & v & pre & post & Hmax & Hsplit & Hpre & Hpost).
  exists k, v, pre, post. repeat split; try assumption.
  - intros Hlow. unfold select_class. rewrite Hmax.
    apply Qltb_lt in Hlow. now rewrite Hlow.
  - intros Hhigh. unfold select_class. rewrite Hmax.
    apply Qltb_ge in Hhigh. now rewrite Hhigh.
Qed.


(** The outcome of the selection: a name among the five, a confidence
    between 0.3 and 0.9, and at most 0.6 for "unknown". *)
Lemma select_class_range (fv : features) :
  exists cls c,
    select_class fv = inr (cls, c)
    /\ In cls ["mangrove"; "cutting"; "pollution"; "encroachment"; "unknown"]
    /\ 0.3 <= c <= 0.9
    /\ (cls = "unknown" -> c <= 0.6).
Proof.
  destruct (select_class_cases fv)
    as (k & v & pre & post & Hmax & Hsplit & _ & _ & Hlow & Hhigh).
  assert (Hin : In (k, v) (scores_dict (heuristic_scores fv))).
  { rewrite Hsplit. apply in_or_app. right. now left. }
  apply scores_dict_entry in Hin. destruct Hin as [Hk Hv].
  pose proof (fallback_confidence_range fv) as Hfb.
  destruct (Qlt_le_dec (capped_confidence v) 0.3) as [Hc | Hc].
  - exists "unknown", (fallback_confidence fv).
    split; [auto |]. split; [simpl; tauto |]. split; [lra |]. intros _; lra.
  - exists k, (capped_confidence v). split; [auto |].
    rewrite capped_confidence_id in * by lra.
    split; [simpl in *; tauto |]. split; [lra |].
    intros ->. simpl in Hk.
    destruct Hk as [H | [H | [H | [H | []]]]]; discriminate H.
Qed.

(** ** Predictions of one image *)

Lemma analyze_array_success (arr : image) (p : ImagePrediction) :
  analyze_array arr = inr p ->
  exists fv cls c,
    extract_features arr = inr fv
    /\ select_class fv = inr (cls, c)
    /\ p = success_prediction arr fv (heuristic_scores fv) cls c.
Proof.
  unfold analyze_array, bind, ret.
  destruct (extract_features arr) as [e | fv]; [discriminate |].
  destruct (select_class fv) as [e | [cls c]] eqn:Hsel; [discriminate |].
  intros H. injection H as <-. exists fv, cls, c. repeat split. exact Hsel.
Qed.

(** A prediction made from a decoded array: one of the five class names and a
    rounded confidence between 0.3 and 0.9, at most 0.6 for "unknown". *)
Lemma analyze_array_range (arr : image) (p : ImagePrediction) :
  analyze_array arr = inr p ->
  In (class_name p) ["mangrove"; "cutting"; "pollution"; "encroachment"; "unknown"]
  /\ 0.3 <= confidence p <= 0.9
  /\ (class_name p = "unknown" -> confidence p <= 0.6)
  /\ model p = "python-heuristic-v2".
Proof.
  intros H. apply analyze_array_success in H.
  destruct H as (fv & cls & c & _ & Hsel & ->).
  destruct (select_class_range fv) as (cls' & c' & Hsel' & Hcls & Hc & Hunk).
  rewrite Hsel in Hsel'. injection Hsel' as <- <-. simpl.
  split; [exact Hcls |].
  split; [| split; [| reflexivity]].
  - pose proof (py_round3_bounds c 300 900) as Hr. lra.
  - intros Hu. specialize (Hunk Hu).
    pose proof (py_round3_bounds c 300 600) as Hr. lra.
Qed.

Lemma analyze_image_heuristic_cases (fs : filesystem) (path : string) :
  let p := analyze_image_heuristic fs path in
  (exists e, p = failure_prediction e)
  \/ (exists arr, load_rgb fs path = inr arr /\ analyze_array arr = inr p).
Proof.
  unfold analyze_image_heuristic, bind.
  destruct (load_rgb fs path) as [e | arr].
  - left. now exists e.
  - destruct (analyze_array arr) as [e | p] eqn:H.
    + left. now exists e.
    + right. now exists arr.
Qed.

Lemma predict_path_cases (fs : filesystem) (path : string) :
  let p := predict_path fs path in
  (path_exists fs (abspath fs path) = false
   /\ p = not_found_prediction (abspath fs path))
  \/ (path_exists fs (abspath fs path) = true
      /\ p = analyze_image_heuristic fs (abspath fs path)).
Proof.
  unfold predict_path. destruct (path_exists fs (abspath fs path)); simpl; auto.
Qed.

(** Every prediction is either the sentinel with confidence 0.0 or a
    successful classification. *)
Lemma analyze_image_heuristic_range (fs : filesystem) (path : string) :
  let p := analyze_image_heuristic fs path in
  (class_name p = "invalid" /\ confidence p = 0.0)
  \/ (In (class_name p) ["mangrove"; "cutting"; "pollution"; "encroachment"; "unknown"]
      /\ 0.3 <= confidence p <= 0.9
      /\ (class_name p = "unknown" -> confidence p <= 0.6)).
Proof.
  destruct (analyze_image_heuristic_cases fs path) as [[e He] | [arr [_ Ha]]];
    cbv zeta.
  - left. rewrite He. split; reflexivity.
  - right. apply analyze_array_range in Ha. tauto.
Qed.

Lemma predict_path_range (fs : filesystem) (path : string) :
  let p := predict_path fs path in
  (class_name p = "invalid" /\ confidence p = 0.0)
  \/ (In (class_name p) ["mangrove"; "cutting"; "pollution"; "encroachment"; "unknown"]
      /\ 0.3 <= confidence p <= 0.9
      /\ (class_name p = "unknown" -> confidence p <= 0.6)).
Proof.
  destruct (predict_path_cases fs path) as [[_ ->] | [_ ->]]; cbv zeta.
  - left. split; reflexivity.
  - apply analyze_image_heuristic_range.
Qed.

Lemma five_classes_valid (name : string) :
  In name ["mangrove"; "cutting"; "pollution"; "encroachment"; "unknown"] ->
  name <> "invalid".
Proof.
  simpl. intros [H | [H | [H | [H | [H | []]]]]] ->; discriminate H.
Qed.

(** C4. For every feature vector the confidence computed by the
    classification engine lies in [0, 0.95] before rounding and still does
    after rounding to three decimals; every prediction (of the per-image
    analysis and of the batch loop) whose class is not "invalid" carries a
    confidence in [0, 0.95], and every "invalid" prediction carries exactly
    0.0. *)
Theorem confidence_in_range :
  (forall fv : features,
      exists cls c,
        select_class fv = inr (cls, c)
        /\ 0 <= c <= 0.95
        /\ 0 <= py_round c 3 <= 0.95)
  /\ (forall (fs : filesystem) (path : string),
         let p := analyze_image_heuristic fs path in
         (class_name p <> "invalid" -> 0 <= confidence p <= 0.95)
         /\ (class_name p = "invalid" -> confidence p = 0.0))
  /\ (forall (fs : filesystem) (path : string),
         let p := predict_path fs path in
         (class_name p <> "invalid" -> 0 <= confidence p <= 0.95)
         /\ (class_name p = "invalid" -> confidence p = 0.0)).
Proof.
  split; [| split].
  - intros fv.
    destruct (select_class_range fv) as (cls & c & Hsel & _ & Hc & _).
    exists cls, c. split; [exact Hsel |].
    pose proof (py_round3_bounds c 300 900) as Hr. lra.
  - intros fs path p. subst p.
    destruct (analyze_image_heuristic_range fs path) as [[Hn Hc] | (Hn & Hc & _)];
      split; intros H.
    + contradiction.
    + exact Hc.
    + lra.
    + now apply five_classes_valid in Hn.
  - intros fs path p. subst p.
    destruct (predict_path_range fs path) as [[Hn Hc] | (Hn & Hc & _)];
      split; intros H.
    + contradiction.
    + exact Hc.
    + lra.
    + now apply five_classes_valid in Hn.
Qed.

(** C10. For every feature vector each of the four scores is at most 0.9
    (encroachment at most 0.7), so the cap of 0.95 leaves the winning score
    unchanged; and every prediction that is not "invalid" has a confidence of
    at most 0.9, at most 0.6 when its class is "unknown". *)
Theorem scores_and_confidence_at_most_0_9 :
  (forall fv : features,
      let s := heuristic_scores fv in
      mangrove_score s <= 0.4 + 0.3 + 0.2
      /\ cutting_score s <= 0.4 + 0.3 + 0.2
      /\ pollution_score s <= 0.4 + 0.3 + 0.2
      /\ encroachment_score s <= 0.2 + 0.3 + 0.2)
  /\ (forall (fv : features) (k : string) (v : Q),
         primary_entry (heuristic_scores fv) = Some (k, v) ->
         v <= 0.9 /\ capped_confidence v = v)
  /\ (forall (fs : filesystem) (path : string),
         let p := predict_path fs path in
         class_name p <> "invalid" ->
         confidence p <= 0.9
         /\ (class_name p = "unknown" -> confidence p <= 0.6)).
Proof.
  split; [| split].
  - intros fv s. pose proof (score_bounds fv) as Hb. cbv zeta in Hb.
    subst s. repeat split; lra.
  - intros fv k v Hmax.
    destruct (primary_entry_split (heuristic_scores fv))
      as (k' & v' & pre & post & Hmax' & Hsplit & _).
    rewrite Hmax in Hmax'. injection Hmax' as <- <-.
    assert (Hin : In (k, v) (scores_dict (heuristic_scores fv))).
    { rewrite Hsplit. apply in_or_app. right. now left. }
    apply scores_dict_entry in Hin. destruct Hin as [_ Hv].
    split; [lra | apply capped_confidence_id; lra].
  - intros fs path p Hvalid. subst p.
    destruct (predict_path_range fs path) as [[Hn _] | (_ & Hc & Hunk)].
    + contradiction.
    + split; [lra | exact Hunk].
Qed.

(** ** The batch endpoint *)

Lemma initialized_before_startup : initialized ∅ = false.
Proof. reflexivity. Qed.

Lemma initialized_after_startup (models : gmap string bool) :
  initialized (lifespan_startup models) = true.
Proof.
  unfold initialized, lifespan_startup. now rewrite lookup_insert_eq.
Qed.

Lemma initialized_after_shutdown (models : gmap string bool) :
  initialized (lifespan_shutdown models) = false.
Proof. reflexivity. Qed.

(** Past the two guards the response is built from the per-path predictions. *)
Lemma classify_images_accepts models fs request :
  initialized models = true ->
  image_paths request <> [] ->
  classify_images models fs request =
    inr {| predictions := map (predict_path fs) (image_paths request);
           averageConfidence :=
             py_round (mean_confidence
                         (List.filter is_valid_prediction
                            (map (predict_path fs) (image_paths request)))) 3;
           primaryClass :=
             vote (List.filter is_valid_prediction
                     (map (predict_path fs) (image_paths request)));
           isValid :=
             Qltb 0.6 (mean_confidence
                         (List.filter is_valid_prediction
                            (map (predict_path fs) (image_paths request))));
           totalImages := length (image_paths request);
           validImages :=
             length (List.filter is_valid_prediction
                       (map (predict_path fs) (image_paths request))) |}.
Proof.
  intros Hinit Hpaths. unfold classify_images. rewrite Hinit. simpl.
  destruct (image_paths request); [contradiction | reflexivity].
Qed.

Lemma classify_images_inversion models fs request resp :
  classify_images models fs request = inr resp ->
  initialized models = true /\ image_paths request <> [].
Proof.
  unfold classify_images.
  destruct (initialized models); simpl; [| discriminate].
  destruct (image_paths request); [discriminate |]. intros _. split; [reflexivity | discriminate].
Qed.

Lemma predict_path_recovers (fs : filesystem) (path : string) :
  recovered_locally fs path (predict_path fs path).
Proof.
  unfold recovered_locally, predict_path, invalid_with. cbv zeta.
  split; [| split].
  - intros ->. simpl. repeat split.
  - intros e -> Hload. simpl.
    unfold analyze_image_heuristic, bind. rewrite Hload. repeat split.
  - intros arr e -> Hload Hfail. simpl.
    unfold analyze_image_heuristic, bind. rewrite Hload, Hfail. repeat split.
Qed.

(** C5. For every request that passes the two guards, the batch returns a
    response (no per-image error escapes), whose predictions are the
    per-path predictions in input order, exactly [totalImages] of them, one per
    path; and the prediction of a path whose file is missing, whose decoding
    raises or whose analysis raises is the "invalid" sentinel with confidence
    0.0 and the error message in its details. *)
Theorem batch_recovers_every_failure models fs request :
  initialized models = true ->
  image_paths request <> [] ->
  exists resp,
    classify_images models fs request = inr resp
    /\ totalImages resp = length (image_paths request)
    /\ length (predictions resp) = totalImages resp
    /\ (forall (i : nat) (path : string),
           image_paths request !! i = Some path ->
           predictions resp !! i = Some (predict_path fs path)
           /\ recovered_locally fs path (predict_path fs path)).
Proof.
  intros Hinit Hpaths. eexists. split.
  - apply classify_images_accepts; assumption.
  - simpl. split; [reflexivity |]. split; [apply length_map |].
    intros i path Hi. split.
    + rewrite list_lookup_fmap, Hi. reflexivity.
    + apply predict_path_recovers.
Qed.

Lemma batch_recovers_every_failure_witness :
  initialized (lifespan_startup ∅) = true
  /\ image_paths (demo_request ["/img/bad.png"; "/img/none.png"]) <> []
  /\ exists resp,
       classify_images (lifespan_startup ∅) demo_fs
         (demo_request ["/img/bad.png"; "/img/none.png"]) = inr resp
       /\ totalImages resp = 2%nat
       /\ length (predictions resp) = totalImages resp
       /\ (forall (i : nat) (path : string),
              ["/img/bad.png"; "/img/none.png"] !! i = Some path ->
              predictions resp !! i = Some (predict_path demo_fs path)
              /\ recovered_locally demo_fs path (predict_path demo_fs path)).
Proof.
  split; [reflexivity |]. split; [discriminate |].
  apply (batch_recovers_every_failure (lifespan_startup ∅) demo_fs
           (demo_request ["/img/bad.png"; "/img/none.png"])).
  - reflexivity.
  - discriminate.
Defined.

(** C7. A request made while the service is not initialized, or with an empty
    path list, is answered with a request-level error (503 in the first case,
    otherwise 400) and with no response object at all. *)
Theorem request_level_rejection models fs request :
  initialized models = false \/ image_paths request = [] ->
  exists e,
    classify_images models fs request = inl e
    /\ (forall resp, classify_images models fs request <> inr resp)
    /\ (initialized models = false ->
        e = {| status_code := 503; detail := "AI models not loaded" |})
    /\ (initialized models = true ->
        e = {| status_code := 400; detail := "No image paths provided" |}).
Proof.
  intros H. unfold classify_images.
  destruct (initialized models) eqn:Hinit; simpl.
  - destruct H as [H | H]; [discriminate |]. rewrite H.
    eexists. split; [reflexivity |]. split; [discriminate |].
    split; [discriminate | reflexivity].
  - eexists. split; [reflexivity |]. split; [discriminate |].
    split; [reflexivity | discriminate].
Qed.

Lemma request_level_rejection_witness :
  (initialized ∅ = false \/ image_paths (demo_request []) = [])
  /\ exists e,
       classify_images ∅ demo_fs (demo_request []) = inl e
       /\ (forall resp, classify_images ∅ demo_fs (demo_request []) <> inr resp)
       /\ (initialized ∅ = false ->
           e = {| status_code := 503; detail := "AI models not loaded" |})
       /\ (initialized ∅ = true ->
           e = {| status_code := 400; detail := "No image paths provided" |}).
Proof.
  split; [left; reflexivity |].
  apply (request_level_rejection ∅ demo_fs (demo_request [])).
  left. reflexivity.
Defined.

(** ** Aggregation *)

Lemma fold_left_Qplus (xs : list Q) (a : Q) :
  fold_left Qplus xs a == a + fold_right Qplus 0 xs.
Proof.
  revert a. induction xs as [| x xs IH]; intros a; simpl.
  - lra.
  - rewrite IH. lra.
Qed.

Lemma py_sum_fold_right (xs : list Q) : py_sum xs == fold_right Qplus 0 xs.
Proof. unfold py_sum. rewrite fold_left_Qplus. lra. Qed.

#[global] Instance round_half_even_proper : Proper (Qeq ==> eq) round_half_even.
Proof.
  intros x y Hxy. unfold round_half_even. cbv zeta.
  rewrite (Qfloor_comp x y Hxy).
  assert (E : x - inject_Z (Qfloor y) == y - inject_Z (Qfloor y))
    by now rewrite Hxy.
  rewrite (Qltb_proper _ _ E _ _ (Qeq_refl _)).
  rewrite (Qltb_proper _ _ (Qeq_refl _) _ _ E).
  reflexivity.
Qed.

#[global] Instance py_round_proper : Proper (Qeq ==> eq ==> eq) py_round.
Proof.
  intros x y Hxy n m <-. unfold py_round. now rewrite Hxy.
Qed.







(** ** The two kinds of "invalid" prediction *)

(** C8, evaluated on the code. The sentinel built by the batch loop for a
    missing file and the sentinel built by the [except] branch for a decoding
    failure agree on the class, the confidence, the timestamp and the keys of
    the details, and differ in the error text; but they also differ in the
    model identifier: the missing-file sentinel leaves [model] out and so
    carries the class default "python-heuristic-v1", while the decoding
    sentinel carries "python-heuristic-v2". *)
Theorem invalid_predictions_differ_in_model fs missing broken e :
  path_exists fs (abspath fs missing) = false ->
  path_exists fs (abspath fs broken) = true ->
  load_rgb fs (abspath fs broken) = inl e ->
  let p := predict_path fs missing in
  let q := predict_path fs broken in
  class_name p = "invalid" /\ class_name q = "invalid"
  /\ confidence p = 0.0 /\ confidence q = 0.0
  /\ timestamp p = timestamp q
  /\ map fst (details p) = ["error"] /\ map fst (details q) = ["error"]
  /\ model p = "python-heuristic-v1"
  /\ model q = "python-heuristic-v2"
  /\ model p <> model q.
Proof.
  intros Hmissing Hexists Hload p q. subst p q.
  unfold predict_path, analyze_image_heuristic, bind.
  rewrite Hmissing, Hexists, Hload. simpl.
  repeat split. discriminate.
Qed.

Lemma invalid_predictions_differ_in_model_witness :
  path_exists demo_fs (abspath demo_fs "/img/none.png") = false
  /\ path_exists demo_fs (abspath demo_fs "/img/bad.png") = true
  /\ load_rgb demo_fs (abspath demo_fs "/img/bad.png")
     = inl (Exception "cannot identify image file")
  /\ model (predict_path demo_fs "/img/none.png") = "python-heuristic-v1"
  /\ model (predict_path demo_fs "/img/bad.png") = "python-heuristic-v2".
Proof.
  split; [reflexivity |]. split; [reflexivity |]. split; [reflexivity |].
  pose proof (invalid_predictions_differ_in_model demo_fs
                "/img/none.png" "/img/bad.png"
                (Exception "cannot identify image file")
                eq_refl eq_refl eq_refl) as H.
  cbv zeta in H. tauto.
Defined.

(** ** Feature extraction *)

Lemma forallb_weaken {A : Type} (f g : A -> bool) (l : list A) :
  (forall x, f x = true -> g x = true) ->
  forallb f l = true -> forallb g l = true.
Proof.
  intros Hfg. induction l as [| x l IH]; simpl; [reflexivity |].
  rewrite !andb_true_iff. intros [Hx Hl]. split; auto.
Qed.

Lemma forallb_concat {A : Type} (f : A -> bool) (ls : list (list A)) :
  forallb (forallb f) ls = forallb f (concat ls).
Proof.
  induction ls as [| l ls IH]; simpl; [reflexivity |].
  now rewrite forallb_app, IH.
Qed.

Lemma filter_all {A : Type} (f : A -> bool) (l : list A) :
  forallb f l = true -> List.filter f l = l.
Proof.
  induction l as [| x l IH]; simpl; [reflexivity |].
  rewrite andb_true_iff. intros [Hx Hl]. rewrite Hx. now rewrite IH.
Qed.

Lemma filter_none {A : Type} (f : A -> bool) (l : list A) :
  forallb (fun x => negb (f x)) l = true -> List.filter f l = [].
Proof.
  induction l as [| x l IH]; simpl; [reflexivity |].
  rewrite andb_true_iff, negb_true_iff. intros [Hx Hl]. rewrite Hx. now apply IH.
Qed.

Lemma count_nonzero_all (mask : pixel -> bool) (arr : image) :
  forallb (forallb mask) arr = true ->
  count_nonzero mask arr = length (concat arr).
Proof.
  intros H. unfold count_nonzero. rewrite forallb_concat in H.
  now rewrite filter_all.
Qed.

Lemma count_nonzero_none (mask : pixel -> bool) (arr : image) :
  forallb (forallb (fun p => negb (mask p))) arr = true ->
  count_nonzero mask arr = 0%nat.
Proof.
  intros H. unfold count_nonzero. rewrite forallb_concat in H.
  now rewrite filter_none.
Qed.

Lemma length_concat_rows {A : Type} (rows : list (list A)) (w : nat) :
  forallb (fun row => Nat.eqb (length row) w) rows = true ->
  length (concat rows) = (length rows * w)%nat.
Proof.
  induction rows as [| row rows IH]; simpl; [reflexivity |].
  rewrite andb_true_iff, Nat.eqb_eq. intros [Hrow Hrows].
  rewrite length_app, IH by assumption. lia.
Qed.

Lemma length_concat_rectangular (arr : image) :
  rectangular arr = true ->
  length (concat arr) = (height arr * width arr)%nat.
Proof. apply length_concat_rows. Qed.

(** Feature extraction succeeds on every raster with at least two rows and two
    columns, and its fields are the statistics of the source. *)
Lemma extract_features_ok (arr : image) :
  (2 <= height arr)%nat -> (2 <= width arr)%nat ->
  exists fv,
    extract_features arr = inr fv
    /\ green_ratio fv
       = of_nat (count_nonzero green_mask arr) / of_nat (height arr * width arr)
    /\ brown_ratio fv
       = of_nat (count_nonzero brown_mask arr) / of_nat (height arr * width arr)
    /\ blue_ratio fv
       = of_nat (count_nonzero blue_mask arr) / of_nat (height arr * width arr)
    /\ gray_ratio fv
       = of_nat (count_nonzero gray_mask arr) / of_nat (height arr * width arr)
    /\ texture_variance fv = np_var (map (map luminance) arr)
    /\ (forall gx gy,
           gradient_axis1 (map (map luminance) arr) (width arr) = inr gx ->
           gradient_axis0 (map (map luminance) arr) = inr gy ->
           edge_density fv
           = np_mean (zip_with row_add (map (map Qabs) gx) (map (map Qabs) gy))).
Proof.
  intros Hh Hw. unfold extract_features, ratio, gradient_axis1, gradient_axis0.
  rewrite length_map. fold (height arr).
  assert (Ht : Nat.eqb (height arr * width arr) 0 = false).
  { apply Nat.eqb_neq. nia. }
  assert (Hw2 : (width arr <? 2)%nat = false) by (apply Nat.ltb_ge; lia).
  assert (Hh2 : (height arr <? 2)%nat = false) by (apply Nat.ltb_ge; lia).
  rewrite Ht, Hw2, Hh2. simpl.
  eexists. split; [reflexivity |]. simpl. repeat split.
  intros gx gy Hgx Hgy. injection Hgx as <-. injection Hgy as <-. reflexivity.
Qed.

Lemma of_nat_pos (n : nat) : (0 < n)%nat -> 0 < of_nat n.
Proof.
  intros H. unfold of_nat. change 0 with (inject_Z 0).
  rewrite <- Zlt_Qlt. lia.
Qed.

Lemma ratio_full (n : nat) : (0 < n)%nat -> of_nat n / of_nat n == 1.
Proof.
  intros H. apply of_nat_pos in H. field. lra.
Qed.

Lemma ratio_empty (n : nat) : of_nat 0 / of_nat n == 0.
Proof. unfold of_nat. simpl. unfold Qdiv. ring. Qed.

(** ** Gray rasters *)

Lemma gray_pixel_is_gray (p : pixel) :
  (let '(r, g, b) := p in (r =? g)%Z && (g =? b)%Z) = true ->
  gray_mask p = true.
Proof.
  destruct p as [[r g] b]. rewrite andb_true_iff, !Z.eqb_eq.
  intros [-> ->]. unfold gray_mask. rewrite Z.sub_diag. reflexivity.
Qed.

Lemma gray_pixel_not_green (p : pixel) :
  (let '(r, g, b) := p in (r =? g)%Z && (g =? b)%Z) = true ->
  negb (green_mask p) = true.
Proof.
  destruct p as [[r g] b]. rewrite andb_true_iff, !Z.eqb_eq.
  intros [-> ->]. unfold green_mask.
  replace (b + 20 <? b)%Z with false by (symmetry; apply Z.ltb_ge; lia).
  reflexivity.
Qed.

Lemma spec_rule1_off (fv : features) :
  green_ratio fv <= 0.25 \/ blue_ratio fv <= 0.05 ->
  mangrove_score (spec_rule1 fv) == 0.
Proof.
  intros H. unfold spec_rule1, no_contribution.
  compare_all; simpl; try reflexivity; destruct H; lra.
Qed.

Lemma spec_rule4_on (fv : features) :
  0.3 < gray_ratio fv ->
  pollution_score (spec_rule4 fv) == 0.2
  /\ encroachment_score (spec_rule4 fv) == 0.2.
Proof.
  intros H. unfold spec_rule4, no_contribution.
  compare_all; simpl; split; try reflexivity; lra.
Qed.

(** A class whose score stays below 0.3 is never the answer: if it wins the
    arg-max the fallback replaces it. *)
Lemma low_mangrove_not_selected (fv : features) (cls : string) (c : Q) :
  mangrove_score (heuristic_scores fv) < 0.3 ->
  select_class fv = inr (cls, c) ->
  cls <> "mangrove".
Proof.
  intros Hlow Hsel.
  destruct (select_class_cases fv)
    as (k & v & pre & post & _ & Hsplit & _ & _ & Hunk & Hwin).
  destruct (Qlt_le_dec (capped_confidence v) 0.3) as [Hc | Hc].
  - rewrite (Hunk Hc) in Hsel. injection Hsel as <- _. discriminate.
  - rewrite (Hwin Hc) in Hsel. injection Hsel as <- _. intros ->.
    assert (Hin : In ("mangrove", v) (scores_dict (heuristic_scores fv))).
    { rewrite Hsplit. apply in_or_app. right. now left. }
    unfold scores_dict in Hin. simpl in Hin.
    destruct Hin as [H | [H | [H | [H | []]]]]; try discriminate H.
    injection H as <-.
    pose proof (py_min_le_l (mangrove_score (heuristic_scores fv)) 0.95).
    unfold capped_confidence in Hc. lra.
Qed.

(** Any raster of at least 2 x 2 gray pixels: the gray rule fires, the green
    rule does not. *)
Lemma gray_raster (arr : image) :
  (2 <= height arr)%nat -> (2 <= width arr)%nat ->
  rectangular arr = true -> gray_pixels arr = true ->
  exists fv p,
    extract_features arr = inr fv
    /\ analyze_array arr = inr p
    /\ green_ratio fv == 0
    /\ gray_ratio fv == 1
    /\ 0.2 <= pollution_score (heuristic_scores fv)
    /\ 0.2 <= encroachment_score (heuristic_scores fv)
    /\ mangrove_score (heuristic_scores fv) <= 0.2
    /\ class_name p <> "mangrove".
Proof.
  intros Hh Hw Hrect Hgray.
  destruct (extract_features_ok arr Hh Hw)
    as (fv & Hfv & Hgreen & _ & _ & Hgr & _).
  assert (Hg0 : green_ratio fv == 0).
  { rewrite Hgreen, count_nonzero_none; [apply ratio_empty |].
    revert Hgray. apply forallb_weaken. intros row.
    apply forallb_weaken. exact gray_pixel_not_green. }
  assert (Hg1 : gray_ratio fv == 1).
  { rewrite Hgr, count_nonzero_all, length_concat_rectangular by
      (try assumption; revert Hgray; apply forallb_weaken; intros row;
       apply forallb_weaken; exact gray_pixel_is_gray).
    apply ratio_full. nia. }
  assert (Hscores : 0.2 <= pollution_score (heuristic_scores fv)
                    /\ 0.2 <= encroachment_score (heuristic_scores fv)
                    /\ mangrove_score (heuristic_scores fv) <= 0.2).
  { use_rules fv.
    pose proof (spec_rule1_off fv) as Hoff.
    pose proof (spec_rule4_on fv) as Hon.
    assert (green_ratio fv <= 0.25) by lra.
    assert (0.3 < gray_ratio fv) by lra.
    repeat split; lra. }
  destruct (select_class_range fv) as (cls & c & Hsel & _).
  exists fv, (success_prediction arr fv (heuristic_scores fv) cls c).
  split; [exact Hfv |]. split.
  { unfold analyze_array, bind. rewrite Hfv, Hsel. reflexivity. }
  split; [exact Hg0 |]. split; [exact Hg1 |].
  destruct Hscores as (Hp & He & Hm).
  repeat split; try assumption.
  simpl. apply (low_mangrove_not_selected fv cls c); [lra | exact Hsel].
Qed.

(** C9. A 100 x 100 raster in which the three channels are equal at every
    pixel (in particular one filled with a single gray) has grayRatio 1,
    accumulates a nonzero pollution score and a nonzero encroachment score,
    and its class is never "mangrove". *)
Theorem gray_image_never_mangrove (arr : image) :
  height arr = 100%nat -> width arr = 100%nat ->
  rectangular arr = true -> gray_pixels arr = true ->
  exists fv p,
    extract_features arr = inr fv
    /\ analyze_array arr = inr p
    /\ gray_ratio fv == 1
    /\ 0 < pollution_score (heuristic_scores fv)
    /\ 0 < encroachment_score (heuristic_scores fv)
    /\ class_name p <> "mangrove".
Proof.
  intros Hh Hw Hrect Hgray.
  destruct (gray_raster arr) as (fv & p & Hfv & Hp & _ & Hg & Hpol & Henc & _ & Hcls);
    try assumption; try lia.
  exists fv, p. repeat split; try assumption; lra.
Qed.

Lemma gray_image_never_mangrove_witness :
  height (uniform_image 100 100 (128, 128, 128)%Z) = 100%nat
  /\ width (uniform_image 100 100 (128, 128, 128)%Z) = 100%nat
  /\ rectangular (uniform_image 100 100 (128, 128, 128)%Z) = true
  /\ gray_pixels (uniform_image 100 100 (128, 128, 128)%Z) = true
  /\ exists fv p,
       extract_features (uniform_image 100 100 (128, 128, 128)%Z) = inr fv
       /\ analyze_array (uniform_image 100 100 (128, 128, 128)%Z) = inr p
       /\ gray_ratio fv == 1
       /\ 0 < pollution_score (heuristic_scores fv)
       /\ 0 < encroachment_score (heuristic_scores fv)
       /\ class_name p <> "mangrove".
Proof.
  split; [reflexivity |]. split; [reflexivity |].
  split; [vm_compute; reflexivity |]. split; [vm_compute; reflexivity |].
  apply (gray_image_never_mangrove (uniform_image 100 100 (128, 128, 128)%Z)).
  - reflexivity.
  - reflexivity.
  - vm_compute; reflexivity.
  - vm_compute; reflexivity.
Defined.

(** ** Rasters of a single colour *)

Lemma fold_right_zero (xs : list Q) :
  Forall (fun q => q == 0) xs -> fold_right Qplus 0 xs == 0.
Proof.
  induction 1 as [| x xs Hx _ IH]; simpl; [reflexivity |].
  rewrite Hx, IH. reflexivity.
Qed.

Lemma np_mean_all_zero (xs : list (list Q)) : all_zero xs -> np_mean xs == 0.
Proof.
  intros H. unfold np_mean. rewrite py_sum_fold_right, fold_right_zero.
  - unfold Qdiv. ring.
  - apply Forall_concat. exact H.
Qed.

Lemma all_zero_abs (xs : list (list Q)) :
  all_zero xs -> all_zero (map (map Qabs) xs).
Proof.
  intros H. apply Forall_map. eapply Forall_impl; [exact H |].
  intros row Hrow. apply Forall_map. eapply Forall_impl; [exact Hrow |].
  intros q Hq. simpl. rewrite Hq. reflexivity.
Qed.

Lemma row_add_zero (a b : list Q) :
  Forall (fun q => q == 0) a -> Forall (fun q => q == 0) b ->
  Forall (fun q => q == 0) (row_add a b).
Proof.
  intros Ha. revert b. induction Ha as [| x a Hx _ IH]; intros b Hb.
  - constructor.
  - destruct Hb as [| y b Hy Hb]; simpl; constructor.
    + rewrite Hx, Hy. reflexivity.
    + apply IH, Hb.
Qed.

Lemma all_zero_add (xs ys : list (list Q)) :
  all_zero xs -> all_zero ys -> all_zero (zip_with row_add xs ys).
Proof.
  intros Hx. revert ys. induction Hx as [| a xs Ha _ IH]; intros ys Hy.
  - constructor.
  - destruct Hy as [| b ys Hb Hy]; simpl; constructor.
    + now apply row_add_zero.
    + apply IH, Hy.
Qed.

Lemma row_sub_self (r : list Q) : Forall (fun q => q == 0) (row_sub r r).
Proof.
  induction r as [| x r IH]; simpl; constructor; [ring | exact IH].
Qed.

Lemma sum_repeat (x : Q) (n : nat) :
  fold_right Qplus 0 (repeat x n) == of_nat n * x.
Proof.
  induction n as [| n IH].
  - simpl. unfold of_nat. simpl. ring.
  - change (repeat x (S n)) with (x :: repeat x n).
    cbn [fold_right]. rewrite IH. unfold of_nat.
    rewrite Nat2Z.inj_succ, <- Z.add_1_r, inject_Z_plus. ring.
Qed.

Lemma concat_repeat {A : Type} (row : list A) (x : A) (w h : nat) :
  row = repeat x w -> concat (repeat row h) = repeat x (h * w).
Proof.
  intros ->. induction h as [| h IH]; simpl; [reflexivity |].
  now rewrite IH, repeat_app.
Qed.

Lemma np_mean_uniform (x : Q) (h w : nat) :
  (0 < h * w)%nat -> np_mean (repeat (repeat x w) h) == x.
Proof.
  intros Hpos. unfold np_mean.
  rewrite (concat_repeat _ x w h eq_refl), py_sum_fold_right, sum_repeat,
    repeat_length.
  apply of_nat_pos in Hpos. field. lra.
Qed.

Lemma np_var_uniform (x : Q) (h w : nat) :
  (0 < h * w)%nat -> np_var (repeat (repeat x w) h) == 0.
Proof.
  intros Hpos. unfold np_var.
  pose proof (np_mean_uniform x h w Hpos) as Hm.
  set (m := np_mean (repeat (repeat x w) h)) in *.
  apply np_mean_all_zero. unfold all_zero.
  rewrite map_repeat, map_repeat.
  apply List.Forall_forall. intros row Hrow. apply repeat_spec in Hrow. subst row.
  apply List.Forall_forall. intros q Hq. apply repeat_spec in Hq. subst q.
  cbv beta. rewrite Hm.
  assert (Hd : x - x == 0) by ring. rewrite Hd. reflexivity.
Qed.

Lemma gradient_1d_uniform (x : Q) (w : nat) :
  (2 <= w)%nat -> Forall (fun q => q == 0) (gradient_1d (repeat x w)).
Proof.
  intros Hw. unfold gradient_1d. rewrite repeat_length.
  apply Forall_map, List.Forall_forall. intros i Hi. apply in_seq in Hi. simpl.
  destruct (Nat.eqb i 0) eqn:H0.
  - rewrite !(nth_repeat_lt x 0) by lia. ring.
  - apply Nat.eqb_neq in H0. destruct (Nat.eqb i (w - 1)) eqn:H1.
    + rewrite !(nth_repeat_lt x 0) by lia. ring.
    + apply Nat.eqb_neq in H1.
      rewrite !(nth_repeat_lt x 0) by lia. field.
Qed.

Lemma gradient_axis1_uniform (x : Q) (h w : nat) :
  (2 <= w)%nat ->
  exists gx, gradient_axis1 (repeat (repeat x w) h) w = inr gx /\ all_zero gx.
Proof.
  intros Hw. unfold gradient_axis1.
  replace (w <? 2)%nat with false by (symmetry; apply Nat.ltb_ge; lia).
  eexists. split; [reflexivity |].
  unfold all_zero. rewrite map_repeat.
  apply List.Forall_forall. intros row Hrow. apply repeat_spec in Hrow. subst row.
  now apply gradient_1d_uniform.
Qed.

Lemma gradient_axis0_uniform (row : list Q) (h : nat) :
  (2 <= h)%nat ->
  exists gy, gradient_axis0 (repeat row h) = inr gy /\ all_zero gy.
Proof.
  intros Hh. unfold gradient_axis0. rewrite repeat_length.
  replace (h <? 2)%nat with false by (symmetry; apply Nat.ltb_ge; lia).
  eexists. split; [reflexivity |].
  unfold all_zero. apply Forall_map, List.Forall_forall.
  intros i Hi. apply in_seq in Hi. simpl.
  destruct (Nat.eqb i 0) eqn:H0.
  - rewrite !(nth_repeat_lt row []) by lia. apply row_sub_self.
  - apply Nat.eqb_neq in H0. destruct (Nat.eqb i (h - 1)) eqn:H1.
    + rewrite !(nth_repeat_lt row []) by lia. apply row_sub_self.
    + apply Nat.eqb_neq in H1.
      rewrite !(nth_repeat_lt row []) by lia.
      apply Forall_map. eapply Forall_impl; [apply row_sub_self |].
      intros q Hq. simpl in *. rewrite Hq. unfold Qdiv. ring.
Qed.

Lemma uniform_image_dims (h w : nat) (p : pixel) :
  (0 < h)%nat ->
  height (uniform_image h w p) = h /\ width (uniform_image h w p) = w.
Proof.
  intros Hh. unfold height, width, uniform_image. rewrite repeat_length.
  split; [reflexivity |].
  destruct h as [| h]; [lia |]. simpl. apply repeat_length.
Qed.

Lemma filter_repeat {A : Type} (f : A -> bool) (x : A) (n : nat) :
  List.filter f (repeat x n) = if f x then repeat x n else [].
Proof.
  induction n as [| n IH]; simpl.
  - now destruct (f x).
  - rewrite IH. now destruct (f x).
Qed.

Lemma uniform_image_count (mask : pixel -> bool) (h w : nat) (p : pixel) :
  count_nonzero mask (uniform_image h w p)
  = if mask p then (h * w)%nat else 0%nat.
Proof.
  unfold count_nonzero, uniform_image.
  rewrite (concat_repeat _ p w h eq_refl), filter_repeat.
  destruct (mask p); [apply repeat_length | reflexivity].
Qed.

Lemma uniform_image_ratio (mask : pixel -> bool) (h w : nat) (p : pixel) :
  (0 < h * w)%nat ->
  of_nat (count_nonzero mask (uniform_image h w p)) / of_nat (h * w)
  == if mask p then 1 else 0.
Proof.
  intros Hpos. rewrite uniform_image_count.
  destruct (mask p); [now apply ratio_full | apply ratio_empty].
Qed.

(** The feature vector of an [h] x [w] raster of one colour: each ratio is 1
    or 0 with the mask of that colour, and there is neither texture nor
    edge. *)
Lemma uniform_image_features (h w : nat) (p : pixel) :
  (2 <= h)%nat -> (2 <= w)%nat ->
  exists fv,
    extract_features (uniform_image h w p) = inr fv
    /\ green_ratio fv == (if green_mask p then 1 else 0)
    /\ brown_ratio fv == (if brown_mask p then 1 else 0)
    /\ blue_ratio fv == (if blue_mask p then 1 else 0)
    /\ gray_ratio fv == (if gray_mask p then 1 else 0)
    /\ texture_variance fv == 0
    /\ edge_density fv == 0.
Proof.
  intros Hh Hw.
  destruct (uniform_image_dims h w p) as [Hheight Hwidth]; [lia |].
  destruct (extract_features_ok (uniform_image h w p))
    as (fv & Hfv & Hgreen & Hbrown & Hblue & Hgray & Hvar & Hedge);
    try (rewrite ?Hheight, ?Hwidth; lia).
  rewrite Hheight, Hwidth in *.
  assert (Hpos : (0 < h * w)%nat) by nia.
  exists fv. split; [exact Hfv |].
  rewrite Hgreen, Hbrown, Hblue, Hgray, Hvar.
  repeat (split; [now apply uniform_image_ratio |]).
  assert (Hlum : map (map luminance) (uniform_image h w p)
                 = repeat (repeat (luminance p) w) h).
  { unfold uniform_image. now rewrite !map_repeat. }
  rewrite Hlum in *. split; [now apply np_var_uniform |].
  destruct (gradient_axis1_uniform (luminance p) h w Hw) as (gx & Hgx & Zx).
  destruct (gradient_axis0_uniform (repeat (luminance p) w) h Hh)
    as (gy & Hgy & Zy).
  rewrite (Hedge gx gy Hgx Hgy).
  apply np_mean_all_zero, all_zero_add; now apply all_zero_abs.
Qed.

(** ** Pure-green rasters *)

(** A green pixel is neither blue, brown nor gray. *)
Lemma green_pixel_exclusive (p : pixel) :
  green_mask p = true ->
  blue_mask p = false /\ brown_mask p = false /\ gray_mask p = false.
Proof.
  destruct p as [[r g] b]. unfold green_mask, blue_mask, brown_mask, gray_mask.
  rewrite !andb_true_iff, !Z.ltb_lt. intros [[Hr Hb] Hg].
  repeat split; apply not_true_iff_false;
    rewrite !andb_true_iff, !Z.ltb_lt; lia.
Qed.

(** The trace of lines 141-169 on a feature vector that is all green, flat
    and edgeless: only the low-texture branch adds anything. *)
Lemma flat_green_scores (fv : features) :
  green_ratio fv == 1 -> brown_ratio fv == 0 -> blue_ratio fv == 0 ->
  gray_ratio fv == 0 -> texture_variance fv == 0 -> edge_density fv == 0 ->
  heuristic_scores fv = Scores 0.0 0.0 0.0 (0.0 + 0.3).
Proof.
  intros Hg Hbr Hbl Hgr Htv Hed.
  assert (C1 : Qltb 0.05 (blue_ratio fv) = false) by now rewrite Hbl.
  assert (C2 : Qltb 0.2 (brown_ratio fv) = false) by now rewrite Hbr.
  assert (C3 : Qltb 0.4 (blue_ratio fv) = false) by now rewrite Hbl.
  assert (C4 : Qltb 0.3 (gray_ratio fv) = false) by now rewrite Hgr.
  assert (C5 : Qltb 500 (texture_variance fv) = false) by now rewrite Htv.
  assert (C6 : Qltb (texture_variance fv) 100 = true) by now rewrite Htv.
  assert (C7 : Qltb 10 (edge_density fv) = false) by now rewrite Hed.
  unfold heuristic_scores, score_green, score_brown, score_blue, score_gray,
    score_texture, score_edges.
  rewrite C1, C2, C3, C4, C5, C6, C7, andb_false_r. reflexivity.
Qed.

(** An [h] x [w] raster filled with one colour of the green mask. *)
Lemma green_raster (h w : nat) (p : pixel) :
  (2 <= h)%nat -> (2 <= w)%nat -> green_mask p = true ->
  exists fv pred,
    extract_features (uniform_image h w p) = inr fv
    /\ green_ratio fv == 1 /\ blue_ratio fv == 0
    /\ heuristic_scores fv = Scores 0.0 0.0 0.0 (0.0 + 0.3)
    /\ analyze_array (uniform_image h w p) = inr pred
    /\ class_name pred = "encroachment"
    /\ confidence pred = 0.300.
Proof.
  intros Hh Hw Hgreen.
  destruct (green_pixel_exclusive p Hgreen) as (Hblue & Hbrown & Hgray).
  destruct (uniform_image_features h w p Hh Hw)
    as (fv & Hfv & Hg & Hbr & Hbl & Hgr & Htv & Hed).
  rewrite Hgreen in Hg. rewrite Hbrown in Hbr. rewrite Hblue in Hbl.
  rewrite Hgray in Hgr.
  pose proof (flat_green_scores fv Hg Hbr Hbl Hgr Htv Hed) as Hs.
  assert (Hsel : select_class fv = inr ("encroachment", 0.0 + 0.3)).
  { unfold select_class. rewrite Hs. reflexivity. }
  eexists fv, _. split; [exact Hfv |]. split; [exact Hg |].
  split; [exact Hbl |]. split; [exact Hs |]. split.
  - unfold analyze_array, bind. rewrite Hfv, Hsel. reflexivity.
  - split; reflexivity.
Qed.

(** C3, as the code has it. A 100 x 100 raster filled with one pure-green
    colour has greenRatio 1 but blueRatio 0, so the mangrove rule does not
    fire; only the low-texture branch does, and the raster classifies as
    "encroachment" with confidence 0.3. *)
Theorem pure_green_image_is_encroachment (p : pixel) :
  green_mask p = true ->
  exists fv pred,
    extract_features (uniform_image 100 100 p) = inr fv
    /\ green_ratio fv == 1 /\ blue_ratio fv == 0
    /\ heuristic_scores fv = Scores 0.0 0.0 0.0 (0.0 + 0.3)
    /\ analyze_array (uniform_image 100 100 p) = inr pred
    /\ class_name pred = "encroachment"
    /\ confidence pred = 0.300.
Proof.
  intros Hgreen. apply green_raster; [lia | lia | exact Hgreen].
Qed.

Lemma pure_green_image_is_encroachment_witness :
  green_mask (0, 255, 0)%Z = true
  /\ exists fv pred,
       extract_features (uniform_image 100 100 (0, 255, 0)%Z) = inr fv
       /\ green_ratio fv == 1 /\ blue_ratio fv == 0
       /\ heuristic_scores fv = Scores 0.0 0.0 0.0 (0.0 + 0.3)
       /\ analyze_array (uniform_image 100 100 (0, 255, 0)%Z) = inr pred
       /\ class_name pred = "encroachment"
       /\ confidence pred = 0.300.
Proof.
  split; [reflexivity |].
  apply (pure_green_image_is_encroachment (0, 255, 0)%Z). reflexivity.
Defined.

(** C3 as stated fails: the 100 x 100 raster of colour (0, 255, 0) is not
    classified as "mangrove" and its confidence is below 0.4. *)
Lemma pure_green_image_not_mangrove :
  exists pred,
    analyze_array (uniform_image 100 100 (0, 255, 0)%Z) = inr pred
    /\ class_name pred = "encroachment"
    /\ confidence pred == 0.3
    /\ class_name pred <> "mangrove"
    /\ confidence pred < 0.4
    /\ ~ (class_name pred = "mangrove" /\ 0.4 <= confidence pred).
Proof.
  destruct (green_raster 100 100 (0, 255, 0)%Z)
    as (fv & pred & _ & _ & _ & _ & Hpred & Hcls & Hconf);
    [lia | lia | reflexivity |].
  exists pred. split; [exact Hpred |]. split; [exact Hcls |].
  rewrite Hconf, Hcls. split; [reflexivity |].
  split; [discriminate |]. split; [reflexivity |].
  intros [H _]. discriminate H.
Qed.

(** ** An end-to-end batch *)

(** The scenario of a pure-green file followed by a missing one: the first
    prediction is "encroachment" with 0.3, the second is the sentinel, one
    image of two is valid, and the batch is not valid. *)
Lemma end_to_end_green_and_missing :
  exists resp,
    classify_images (lifespan_startup ∅) demo_fs
      (demo_request ["/img/green.png"; "/img/missing.png"]) = inr resp
    /\ map class_name (predictions resp) = ["encroachment"; "invalid"]
    /\ map confidence (predictions resp) = [0.300; 0.0]
    /\ totalImages resp = 2%nat
    /\ validImages resp = 1%nat
    /\ averageConfidence resp = 0.300
    /\ isValid resp = false.
Proof.
  destruct (green_raster 100 100 (0, 255, 0)%Z)
    as (fv & pred & _ & _ & _ & _ & Hpred & Hcls & Hconf);
    [lia | lia | reflexivity |].
  assert (Hgreen : predict_path demo_fs "/img/green.png" = pred).
  { unfold predict_path, analyze_image_heuristic, bind.
    replace (path_exists demo_fs (abspath demo_fs "/img/green.png"))
      with true by reflexivity.
    replace (load_rgb demo_fs (abspath demo_fs "/img/green.png"))
      with (@inr exn image (uniform_image 100 100 (0, 255, 0)%Z))
      by reflexivity.
    cbn [negb]. now rewrite Hpred. }
  assert (Hmissing : predict_path demo_fs "/img/missing.png"
                     = not_found_prediction "/img/missing.png")
    by reflexivity.
  eexists. split.
  - apply classify_images_accepts; [reflexivity | discriminate].
  - cbn [predictions totalImages validImages averageConfidence isValid
         image_paths demo_request map].
    rewrite Hgreen, Hmissing.
    assert (Hvalid : List.filter is_valid_prediction
                       [pred; not_found_prediction "/img/missing.png"]
                     = [pred]).
    { cbn [List.filter]. unfold is_valid_prediction at 1. rewrite Hcls.
      reflexivity. }
    rewrite Hvalid. unfold mean_confidence. cbn [map length].
    rewrite Hcls, Hconf. repeat split.
Qed.

(** ** The boundary cases in binary64 *)

Section Binary64Facts.
Import PrimFloat.
#[local] Set Warnings "-inexact-float".

(** The feature vector of the pure-green raster: the only contribution is the
    0.3 of the low-texture branch, and 0.3 is not below the threshold 0.3. *)
Lemma b64_pure_green :
  Binary64.select_class64
    (Binary64.Features64 1 0 0 0 0 0)%float
  = ("encroachment", 0.3%float).
Proof. vm_compute. reflexivity. Qed.

(** The largest scores any feature vector can reach stay at or below 0.9. *)
Lemma b64_largest_scores :
  Binary64.heuristic_scores64
    (Binary64.Features64 1 0 1 1 600 11)%float
  = (0.89999999999999991, 0.2, 0.89999999999999991, 0.40000000000000002)%float
  /\ Binary64.heuristic_scores64
       (Binary64.Features64 0 1 0 1 0 11)%float
     = (0, 0.89999999999999991, 0.2, 0.69999999999999996)%float
  /\ PrimFloat.leb 0.89999999999999991 0.9 = true
  /\ PrimFloat.leb 0.69999999999999996 0.7 = true.
Proof. vm_compute. repeat split. Qed.

(** The speck raster (one green pixel in six, texture between 100 and 500,
    edges above 10) is "unknown"; three of it and one pure-blue raster have a
    mean above 0.6. *)
Lemma b64_mean_above_threshold :
  fst (Binary64.select_class64
         (Binary64.Features64 (1 / 6) 0 0 0 167.72 20.27)%float) = "unknown"
  /\ Binary64.select_class64
       (Binary64.Features64 0 0 1 0 0 0)%float
     = ("pollution", 0.69999999999999996%float)
  /\ Binary64.mean_confidence64 [0.567; 0.567; 0.567; 0.7]%float
     = 0.60024999999999995%float
  /\ Binary64.is_valid64 [0.567; 0.567; 0.567; 0.7]%float = true.
Proof. vm_compute. repeat split. Qed.

End Binary64Facts.

(** * Further properties of the image service *)

(** ** When the analysis of a decoded raster fails *)

Lemma extract_features_inversion (arr : image) (fv : features) :
  extract_features arr = inr fv ->
  (2 <= height arr)%nat /\ (2 <= width arr)%nat.
Proof.
  unfold extract_features, ratio, gradient_axis1, gradient_axis0.
  rewrite length_map. fold (height arr).
  destruct (Nat.eqb (height arr * width arr) 0); [discriminate |]. simpl.
  destruct (width arr <? 2)%nat eqn:Hw; [discriminate |]. simpl.
  destruct (height arr <? 2)%nat eqn:Hh; [discriminate |].
  intros _. apply Nat.ltb_ge in Hw. apply Nat.ltb_ge in Hh. lia.
Qed.

Lemma analyze_array_fails_iff (arr : image) :
  (exists e, analyze_array arr = inl e)
  <-> (height arr < 2)%nat \/ (width arr < 2)%nat.
Proof.
  split.
  - intros [e He].
    destruct (le_lt_dec 2 (height arr)) as [Hh | Hh]; [| now left].
    destruct (le_lt_dec 2 (width arr)) as [Hw | Hw]; [| now right].
    exfalso. destruct (extract_features_ok arr Hh Hw) as (fv & Hfv & _).
    destruct (select_class_range fv) as (cls & c & Hsel & _).
    unfold analyze_array, bind in He. rewrite Hfv, Hsel in He. discriminate.
  - intros Hsmall. unfold analyze_array, bind.
    destruct (extract_features arr) as [e | fv] eqn:Hfv; [now exists e |].
    apply extract_features_inversion in Hfv. lia.
Qed.

(** X1. A file that decodes to a raster with fewer than two rows or fewer
    than two columns is reported as "invalid" (the gradient of line 136 or 137
    raises), and a decoded raster is reported as "invalid" only in that
    case. *)
Theorem small_rasters_are_invalid (fs : filesystem) (path : string) (arr : image) :
  load_rgb fs path = inr arr ->
  class_name (analyze_image_heuristic fs path) = "invalid"
  <-> (height arr < 2)%nat \/ (width arr < 2)%nat.
Proof.
  intros Hload. rewrite <- analyze_array_fails_iff.
  unfold analyze_image_heuristic, bind. rewrite Hload.
  destruct (analyze_array arr) as [e | p] eqn:Ha.
  - split; [intros _; now exists e | reflexivity].
  - split.
    + intros Hinv. apply analyze_array_range in Ha. destruct Ha as [Hcls _].
      apply five_classes_valid in Hcls. contradiction.
    + intros [e He]. discriminate.
Qed.

Lemma small_rasters_are_invalid_witness :
  load_rgb edge_fs "/img/strip.png" = inr strip_image
  /\ (class_name (analyze_image_heuristic edge_fs "/img/strip.png") = "invalid"
      <-> (height strip_image < 2)%nat \/ (width strip_image < 2)%nat).
Proof.
  split; [reflexivity |].
  apply (small_rasters_are_invalid edge_fs "/img/strip.png" strip_image).
  reflexivity.
Defined.

(** ** Ranges of the features *)

Lemma of_nat_nonneg (n : nat) : 0 <= of_nat n.
Proof.
  unfold of_nat. change 0 with (inject_Z 0). rewrite <- Zle_Qle. lia.
Qed.

Lemma of_nat_le (n m : nat) : (n <= m)%nat -> of_nat n <= of_nat m.
Proof. intros H. unfold of_nat. rewrite <- Zle_Qle. lia. Qed.

Lemma of_nat_add (n m : nat) : of_nat (n + m) == of_nat n + of_nat m.
Proof. unfold of_nat. now rewrite Nat2Z.inj_add, inject_Z_plus. Qed.

Lemma ratio_in_unit (c t : nat) :
  (c <= t)%nat -> (0 < t)%nat -> 0 <= of_nat c / of_nat t <= 1.
Proof.
  intros Hc Ht. pose proof (of_nat_pos t Ht) as Hpos.
  pose proof (of_nat_nonneg c). pose proof (of_nat_le c t Hc).
  split.
  - apply Qle_shift_div_l; lra.
  - apply Qle_shift_div_r; lra.
Qed.

Lemma filter_length_le {A : Type} (f : A -> bool) (l : list A) :
  (length (List.filter f l) <= length l)%nat.
Proof.
  induction l as [| x l IH]; simpl; [lia |]. destruct (f x); simpl; lia.
Qed.

Lemma filter_disjoint3_length {A : Type} (f g h : A -> bool) (l : list A) :
  (forall x, f x && g x = false) ->
  (forall x, f x && h x = false) ->
  (forall x, g x && h x = false) ->
  (length (List.filter f l) + length (List.filter g l)
   + length (List.filter h l) <= length l)%nat.
Proof.
  intros Hfg Hfh Hgh. induction l as [| x l IH]; simpl; [lia |].
  specialize (Hfg x). specialize (Hfh x). specialize (Hgh x).
  destruct (f x), (g x), (h x); simpl in *; try discriminate; lia.
Qed.

(** A pixel satisfies at most one of the green, brown and blue masks. *)
Lemma colour_masks_disjoint (p : pixel) :
  green_mask p && brown_mask p = false
  /\ green_mask p && blue_mask p = false
  /\ brown_mask p && blue_mask p = false.
Proof.
  destruct p as [[r g] b]. unfold green_mask, brown_mask, blue_mask.
  repeat split; apply not_true_iff_false;
    rewrite !andb_true_iff, !Z.ltb_lt; lia.
Qed.

Lemma extract_features_fields (arr : image) (fv : features) :
  extract_features arr = inr fv ->
  (0 < height arr * width arr)%nat
  /\ green_ratio fv
     = of_nat (count_nonzero green_mask arr) / of_nat (height arr * width arr)
  /\ brown_ratio fv
     = of_nat (count_nonzero brown_mask arr) / of_nat (height arr * width arr)
  /\ blue_ratio fv
     = of_nat (count_nonzero blue_mask arr) / of_nat (height arr * width arr)
  /\ gray_ratio fv
     = of_nat (count_nonzero gray_mask arr) / of_nat (height arr * width arr)
  /\ avg_brightness fv = np_mean (map (map brightness) arr)
  /\ texture_variance fv = np_var (map (map luminance) arr)
  /\ exists gx gy,
       edge_density fv
       = np_mean (zip_with row_add (map (map Qabs) gx) (map (map Qabs) gy)).
Proof.
  intros H. pose proof (extract_features_inversion arr fv H) as [Hh Hw].
  revert H. unfold extract_features, ratio, gradient_axis1, gradient_axis0.
  rewrite length_map. fold (height arr).
  assert (Ht : Nat.eqb (height arr * width arr) 0 = false).
  { apply Nat.eqb_neq. nia. }
  assert (Hw2 : (width arr <? 2)%nat = false) by (apply Nat.ltb_ge; lia).
  assert (Hh2 : (height arr <? 2)%nat = false) by (apply Nat.ltb_ge; lia).
  rewrite Ht, Hw2, Hh2. simpl. intros H. injection H as <-. simpl.
  split; [nia |]. repeat split. eexists _, _. reflexivity.
Qed.

(** X2. On every rectangular raster the analysis accepts, each of the four
    mask ratios lies in [0, 1], and since no pixel is at once green, brown or
    blue the green, brown and blue ratios together are at most 1. *)
Theorem feature_ratios_bounded (arr : image) (fv : features) :
  extract_features arr = inr fv ->
  rectangular arr = true ->
  (0 <= green_ratio fv <= 1) /\ (0 <= brown_ratio fv <= 1)
  /\ (0 <= blue_ratio fv <= 1) /\ (0 <= gray_ratio fv <= 1)
  /\ green_ratio fv + brown_ratio fv + blue_ratio fv <= 1.
Proof.
  intros Hfv Hrect.
  destruct (extract_features_fields arr fv Hfv)
    as (Hpos & -> & -> & -> & -> & _).
  pose proof (length_concat_rectangular arr Hrect) as Hlen.
  assert (Hle : forall mask, (count_nonzero mask arr <= height arr * width arr)%nat).
  { intros mask. unfold count_nonzero. rewrite <- Hlen. apply filter_length_le. }
  repeat (split; [apply ratio_in_unit; [apply Hle | exact Hpos] |]).
  assert (Hsum : (count_nonzero green_mask arr + count_nonzero brown_mask arr
                  + count_nonzero blue_mask arr <= height arr * width arr)%nat).
  { unfold count_nonzero. rewrite <- Hlen.
    apply filter_disjoint3_length; intros p; apply colour_masks_disjoint. }
  apply of_nat_le in Hsum. rewrite !of_nat_add in Hsum.
  apply of_nat_pos in Hpos.
  set (t := of_nat (height arr * width arr)) in *.
  assert (E : of_nat (count_nonzero green_mask arr) / t
              + of_nat (count_nonzero brown_mask arr) / t
              + of_nat (count_nonzero blue_mask arr) / t
              == (of_nat (count_nonzero green_mask arr)
                  + of_nat (count_nonzero brown_mask arr)
                  + of_nat (count_nonzero blue_mask arr)) / t).
  { field. lra. }
  rewrite E. apply Qle_shift_div_r; lra.
Qed.

Lemma feature_ratios_bounded_witness :
  exists fv,
    extract_features speck_image = inr fv
    /\ rectangular speck_image = true
    /\ (0 <= green_ratio fv <= 1) /\ (0 <= brown_ratio fv <= 1)
    /\ (0 <= blue_ratio fv <= 1) /\ (0 <= gray_ratio fv <= 1)
    /\ green_ratio fv + brown_ratio fv + blue_ratio fv <= 1.
Proof.
  destruct (extract_features_ok speck_image) as (fv & Hfv & _);
    [simpl; lia | simpl; lia |].
  exists fv. split; [exact Hfv |]. split; [reflexivity |].
  apply (feature_ratios_bounded speck_image fv Hfv). reflexivity.
Defined.

(** ** Means of bounded values *)

Lemma sum_bounds (a b : Q) (xs : list Q) :
  Forall (fun x => a <= x <= b) xs ->
  of_nat (length xs) * a <= fold_right Qplus 0 xs <= of_nat (length xs) * b.
Proof.
  induction 1 as [| x xs Hx _ IH].
  - change (of_nat (length [])) with 0. simpl. lra.
  - cbn [length fold_right].
    assert (E : of_nat (S (length xs)) == of_nat (length xs) + 1).
    { unfold of_nat. rewrite Nat2Z.inj_succ, <- Z.add_1_r, inject_Z_plus.
      reflexivity. }
    rewrite E. lra.
Qed.

Lemma mean_bounds (a b : Q) (xs : list Q) :
  xs <> [] ->
  Forall (fun x => a <= x <= b) xs ->
  a <= py_sum xs / of_nat (length xs) <= b.
Proof.
  intros Hne Hall. pose proof (sum_bounds a b xs Hall) as [Hlo Hhi].
  assert (Hpos : 0 < of_nat (length xs)).
  { apply of_nat_pos. destruct xs; [contradiction | simpl; lia]. }
  rewrite py_sum_fold_right. split.
  - apply Qle_shift_div_l; [exact Hpos | lra].
  - apply Qle_shift_div_r; [exact Hpos | lra].
Qed.

Lemma np_mean_bounds (a b : Q) (xs : list (list Q)) :
  concat xs <> [] ->
  Forall (Forall (fun x => a <= x <= b)) xs ->
  a <= np_mean xs <= b.
Proof.
  intros Hne Hall. unfold np_mean. apply mean_bounds; [exact Hne |].
  apply Forall_concat. exact Hall.
Qed.

Lemma np_mean_nonneg (xs : list (list Q)) :
  Forall (Forall (fun x => 0 <= x)) xs -> 0 <= np_mean xs.
Proof.
  intros Hall. unfold np_mean. rewrite py_sum_fold_right.
  assert (Hsum : 0 <= fold_right Qplus 0 (concat xs)).
  { assert (H : Forall (fun x => 0 <= x) (concat xs)) by now apply Forall_concat.
    induction H as [| x l Hx _ IH]; simpl; lra. }
  unfold Qdiv. apply Qmult_le_0_compat; [exact Hsum |].
  apply Qinv_le_0_compat, of_nat_nonneg.
Qed.

Lemma row_add_nonneg (a b : list Q) :
  Forall (fun x => 0 <= x) a -> Forall (fun x => 0 <= x) b ->
  Forall (fun x => 0 <= x) (row_add a b).
Proof.
  intros Ha. revert b. induction Ha as [| x a Hx _ IH]; intros b Hb.
  - constructor.
  - destruct Hb as [| y b Hy Hb]; simpl; constructor; [lra | apply IH, Hb].
Qed.

Lemma abs_rows_nonneg (xs : list (list Q)) :
  Forall (Forall (fun x => 0 <= x)) (map (map Qabs) xs).
Proof.
  apply Forall_map, List.Forall_forall. intros row _.
  apply Forall_map, List.Forall_forall. intros q _. apply Qabs_nonneg.
Qed.

Lemma rows_add_nonneg (xs ys : list (list Q)) :
  Forall (Forall (fun x => 0 <= x)) xs ->
  Forall (Forall (fun x => 0 <= x)) ys ->
  Forall (Forall (fun x => 0 <= x)) (zip_with row_add xs ys).
Proof.
  intros Hx. revert ys. induction Hx as [| a xs Ha _ IH]; intros ys Hy.
  - constructor.
  - destruct Hy as [| b ys Hb Hy]; simpl; constructor;
      [now apply row_add_nonneg | apply IH, Hy].
Qed.

Lemma brightness_range (p : pixel) :
  (let '(r, g, b) := p in
   (0 <=? r)%Z && (r <=? 255)%Z && (0 <=? g)%Z && (g <=? 255)%Z
   && (0 <=? b)%Z && (b <=? 255)%Z) = true ->
  0 <= brightness p <= 255.
Proof.
  destruct p as [[r g] b]. rewrite !andb_true_iff, !Z.leb_le.
  intros [[[[[Hr0 Hr1] Hg0] Hg1] Hb0] Hb1]. unfold brightness.
  assert (H0 : inject_Z 0 <= inject_Z (r + g + b)) by (rewrite <- Zle_Qle; lia).
  assert (H1 : inject_Z (r + g + b) <= inject_Z 765) by (rewrite <- Zle_Qle; lia).
  change (inject_Z 0) with 0 in H0. change (inject_Z 765) with 765 in H1.
  generalize dependent (inject_Z (r + g + b)). intros q H0 H1. split.
  - apply Qle_shift_div_l; lra.
  - apply Qle_shift_div_r; lra.
Qed.

(** X3. On every raster the analysis accepts, the texture variance and the
    edge density are non-negative, and when the channels are 8-bit values the
    average brightness lies in [0, 255]. *)
Theorem texture_edges_brightness_ranges (arr : image) (fv : features) :
  extract_features arr = inr fv ->
  0 <= texture_variance fv
  /\ 0 <= edge_density fv
  /\ (channels_8bit arr = true -> 0 <= avg_brightness fv <= 255).
Proof.
  intros Hfv.
  destruct (extract_features_fields arr fv Hfv)
    as (Hpos & _ & _ & _ & _ & Hb & Hv & gx & gy & He).
  split; [| split].
  - rewrite Hv. unfold np_var. apply np_mean_nonneg.
    apply Forall_map, List.Forall_forall. intros row _.
    apply Forall_map, List.Forall_forall. intros q _.
    apply Qmult_le_0_compat; apply Qabs_nonneg.
  - rewrite He. apply np_mean_nonneg, rows_add_nonneg; apply abs_rows_nonneg.
  - intros H8. rewrite Hb. apply np_mean_bounds.
    + intros Hnil. apply (f_equal (@length Q)) in Hnil.
      rewrite length_concat, map_map in Hnil. simpl in Hnil.
      assert (Hz : forall (rows : image),
                 list_sum (map (fun x => length (map brightness x)) rows)
                 = length (concat rows)).
      { intros rows. rewrite length_concat. f_equal. apply map_ext.
        intros row. apply length_map. }
      rewrite Hz in Hnil.
      destruct arr as [| row arr]; [simpl in Hpos; lia |].
      destruct row as [| p row]; [simpl in Hpos; lia |]. discriminate Hnil.
    + unfold channels_8bit in H8. rewrite forallb_forall in H8.
      apply Forall_map, List.Forall_forall. intros row Hrow.
      specialize (H8 row Hrow). rewrite forallb_forall in H8.
      apply Forall_map, List.Forall_forall. intros p Hp.
      apply brightness_range, H8, Hp.
Qed.

Lemma texture_edges_brightness_ranges_witness :
  exists fv,
    extract_features speck_image = inr fv
    /\ 0 <= texture_variance fv
    /\ 0 <= edge_density fv
    /\ (channels_8bit speck_image = true -> 0 <= avg_brightness fv <= 255).
Proof.
  destruct (extract_features_ok speck_image) as (fv & Hfv & _);
    [simpl; lia | simpl; lia |].
  exists fv. split; [exact Hfv |].
  apply (texture_edges_brightness_ranges speck_image fv Hfv).
Defined.

(** ** The vote for the primary class *)

Lemma existsb_eqb_In (x : string) (l : list string) :
  existsb (String.eqb x) l = true <-> In x l.
Proof.
  rewrite existsb_exists. split.
  - intros (y & Hy & Heq). apply String.eqb_eq in Heq. now subst.
  - intros H. exists x. split; [exact H | apply String.eqb_refl].
Qed.

Lemma count_class_keys (t : list (string * nat)) (x : string) :
  map fst (count_class t x)
  = if existsb (String.eqb x) (map fst t) then map fst t else map fst t ++ [x].
Proof.
  induction t as [| [k n] t IH]; simpl; [reflexivity |].
  rewrite (String.eqb_sym x k).
  destruct (String.eqb k x) eqn:Hk; simpl; [reflexivity |].
  rewrite IH. now destruct (existsb (String.eqb x) (map fst t)).
Qed.

Lemma count_class_get (t : list (string * nat)) (x k : string) :
  tally_get (count_class t x) k
  = (tally_get t k + if String.eqb x k then 1 else 0)%nat.
Proof.
  induction t as [| [k' n] t IH]; simpl.
  - destruct (String.eqb x k); reflexivity.
  - destruct (String.eqb k' x) eqn:Hx; simpl.
    + apply String.eqb_eq in Hx. subst k'.
      destruct (String.eqb x k); lia.
    + destruct (String.eqb k' k) eqn:Hk; [| exact IH].
      apply String.eqb_eq in Hk. subst k'. rewrite (String.eqb_sym x k), Hx. lia.
Qed.

Lemma occurrences_snoc (c : string) (l : list string) (x : string) :
  occurrences c (l ++ [x])
  = (occurrences c l + if String.eqb x c then 1 else 0)%nat.
Proof.
  unfold occurrences. rewrite List.filter_app, length_app. simpl.
  rewrite (String.eqb_sym c x). now destruct (String.eqb x c).
Qed.

(** The tally built by the counting loop: its keys are the names in order of
    first appearance and its counts are the numbers of occurrences. *)
Lemma tally_spec (names : list string) :
  let t := fold_left count_class names [] in
  map fst t = first_seen names
  /\ forall k, tally_get t k = occurrences k names.
Proof.
  induction names as [| x l IH] using rev_ind.
  - split; [reflexivity | intros k; reflexivity].
  - cbv zeta in *. destruct IH as [Hkeys Hget].
    rewrite fold_left_app. simpl. split.
    + rewrite count_class_keys, Hkeys. unfold first_seen.
      rewrite fold_left_app. reflexivity.
    + intros k. now rewrite count_class_get, Hget, occurrences_snoc.
Qed.

Lemma first_seen_snoc (l : list string) (x : string) :
  first_seen (l ++ [x])
  = if existsb (String.eqb x) (first_seen l) then first_seen l
    else first_seen l ++ [x].
Proof. unfold first_seen. now rewrite fold_left_app. Qed.

Lemma first_seen_In (l : list string) (x : string) :
  In x (first_seen l) <-> In x l.
Proof.
  revert x. induction l as [| y l IH] using rev_ind; intros x; [reflexivity |].
  rewrite first_seen_snoc, in_app_iff. simpl.
  destruct (existsb (String.eqb y) (first_seen l)) eqn:Hy.
  - apply existsb_eqb_In in Hy. rewrite IH. apply IH in Hy.
    split; [tauto |]. intros [H | [<- | []]]; assumption.
  - rewrite in_app_iff, IH. simpl. tauto.
Qed.

Lemma first_seen_NoDup (l : list string) : NoDup (first_seen l).
Proof.
  induction l as [| y l IH] using rev_ind; [constructor |].
  rewrite first_seen_snoc.
  destruct (existsb (String.eqb y) (first_seen l)) eqn:Hy; [exact IH |].
  apply NoDup_app. split; [exact IH |]. split.
  - intros z Hz Hzy. apply list_elem_of_In in Hz, Hzy.
    destruct Hzy as [<- | []]. apply existsb_eqb_In in Hz. congruence.
  - apply NoDup_singleton.
Qed.

(** A name that follows [k] among the first-seen names does not occur before
    the first occurrence of [k]. *)
Lemma first_seen_split (l : list string) (a b : list string) (k : string) :
  first_seen l = a ++ k :: b ->
  exists l1 l2,
    l = l1 ++ k :: l2 /\ ~ In k l1 /\ forall c, In c l1 -> In c a.
Proof.
  revert a b. induction l as [| x l IH] using rev_ind; intros a b Hsplit.
  - destruct a; discriminate Hsplit.
  - rewrite first_seen_snoc in Hsplit.
    destruct (existsb (String.eqb x) (first_seen l)) eqn:Hx.
    + destruct (IH a b Hsplit) as (l1 & l2 & -> & Hk & Hbefore).
      exists l1, (l2 ++ [x]). rewrite <- app_assoc. repeat split; assumption.
    + assert (Hnew : ~ In x l).
      { rewrite <- first_seen_In, <- existsb_eqb_In. congruence. }
      destruct b as [| y b] using rev_ind.
      * apply app_inj_tail in Hsplit. destruct Hsplit as [Ha <-].
        exists l, []. repeat split; [exact Hnew |].
        intros c Hc. rewrite <- Ha. now apply first_seen_In.
      * clear IHb.
        replace (a ++ k :: b ++ [y]) with ((a ++ k :: b) ++ [y]) in Hsplit
          by now rewrite <- app_assoc.
        apply app_inj_tail in Hsplit. destruct Hsplit as [Hfs <-].
        destruct (IH a b Hfs) as (l1 & l2 & -> & Hk & Hbefore).
        exists l1, (l2 ++ [x]). rewrite <- app_assoc. repeat split; assumption.
Qed.

Lemma Nat_ltb_Qltb (a b : nat) : Nat.ltb a b = Qltb (of_nat a) (of_nat b).
Proof.
  destruct (Nat.ltb a b) eqn:H; symmetry.
  - apply Nat.ltb_lt in H. apply Qltb_lt. unfold of_nat.
    rewrite <- Zlt_Qlt. lia.
  - apply Nat.ltb_ge in H. apply Qltb_ge. now apply of_nat_le.
Qed.

Lemma of_nat_lt_inv (a b : nat) : of_nat a < of_nat b -> (a < b)%nat.
Proof. unfold of_nat. rewrite <- Zlt_Qlt. lia. Qed.

Lemma of_nat_le_inv (a b : nat) : of_nat a <= of_nat b -> (a <= b)%nat.
Proof. unfold of_nat. rewrite <- Zle_Qle. lia. Qed.

Lemma fold_left_pointwise {A B : Type} (f g : A -> B -> A) (l : list B) (a : A) :
  (forall x y, f x y = g x y) -> fold_left f l a = fold_left g l a.
Proof.
  intros Hfg. revert a. induction l as [| y l IH]; intros a; simpl;
    [reflexivity |]. now rewrite Hfg, IH.
Qed.

(** The arg-max over a tally: the winner splits the tally, with strictly
    smaller counts before it and no larger count after it. *)
Lemma py_max_by_count_split (e : string * nat) (rest : list (string * nat)) :
  exists r pre post,
    py_max_by Nat.ltb snd (e :: rest) = Some r
    /\ e :: rest = pre ++ r :: post
    /\ Forall (fun x => (snd x < snd r)%nat) pre
    /\ Forall (fun x => (snd x <= snd r)%nat) post.
Proof.
  destruct (py_max_by_split (fun x : string * nat => of_nat (snd x)) e rest)
    as (r & pre & post & Hmax & Hsplit & Hpre & Hpost).
  exists r, pre, post. split; [| split; [exact Hsplit | split]].
  - rewrite <- Hmax. unfold py_max_by. f_equal.
    apply fold_left_pointwise. intros best y. now rewrite Nat_ltb_Qltb.
  - eapply Forall_impl; [exact Hpre |]. intros x. apply of_nat_lt_inv.
  - eapply Forall_impl; [exact Hpost |]. intros x. apply of_nat_le_inv.
Qed.

Lemma tally_get_In (t : list (string * nat)) (k : string) (n : nat) :
  NoDup (map fst t) -> In (k, n) t -> tally_get t k = n.
Proof.
  induction t as [| [k' n'] t IH]; simpl; [tauto |].
  intros Hnd [Heq | Hin].
  - injection Heq as -> ->. now rewrite String.eqb_refl.
  - inversion Hnd as [| ? ? Hnotin Hnd']; subst.
    destruct (String.eqb k' k) eqn:Hk; [| now apply IH].
    apply String.eqb_eq in Hk. subst k'. exfalso. apply Hnotin.
    apply (in_map fst) in Hin. apply list_elem_of_In. exact Hin.
Qed.

(** What the vote returns on a non-empty list of names. *)
Lemma vote_names_spec (valid : list ImagePrediction) :
  valid <> [] ->
  let names := map class_name valid in
  let w := vote valid in
  (forall c, (occurrences c names <= occurrences w names)%nat)
  /\ exists l1 l2,
       names = l1 ++ w :: l2
       /\ ~ In w l1
       /\ forall c, In c l1 -> (occurrences c names < occurrences w names)%nat.
Proof.
  intros Hne names w.
  destruct (tally_spec names) as [Hkeys Hget]. cbv zeta in Hkeys, Hget.
  assert (Hnd : NoDup (map fst (fold_left count_class names []))).
  { rewrite Hkeys. apply first_seen_NoDup. }
  assert (Hw : w = vote valid) by reflexivity. unfold vote in Hw.
  fold names in Hw.
  destruct (fold_left count_class names []) as [| e rest] eqn:Ht.
  { exfalso. assert (Hfs : first_seen names = []) by now rewrite <- Hkeys.
    destruct valid as [| p valid]; [contradiction |].
    assert (Hin : In (class_name p) (first_seen names))
      by (apply first_seen_In; now left).
    rewrite Hfs in Hin. exact Hin. }
  destruct (py_max_by_count_split e rest)
    as ([k n] & pre & post & Hmax & Hsplit & Hpre & Hpost).
  rewrite Hmax in Hw. simpl in Hpre, Hpost. subst w. fold (vote valid) in *.
  assert (Hcount : forall c m, In (c, m) (e :: rest) -> occurrences c names = m).
  { intros c m Hin. rewrite <- Hget. now apply tally_get_In. }
  assert (Hk : occurrences k names = n).
  { apply Hcount. rewrite Hsplit. apply in_or_app. right. now left. }
  assert (Hvote : vote valid = k).
  { unfold vote. fold names. rewrite Ht, Hmax. reflexivity. }
  rewrite Hvote, Hk.
  assert (Hpre' : forall c, In c (map fst pre) -> (occurrences c names < n)%nat).
  { intros c Hc. apply in_map_iff in Hc. destruct Hc as ([c' m] & <- & Hin).
    simpl. rewrite (Hcount c' m) by (rewrite Hsplit; apply in_or_app; now left).
    rewrite List.Forall_forall in Hpre. apply (Hpre _ Hin). }
  split.
  - intros c. destruct (Nat.eq_dec (occurrences c names) 0%nat) as [Hz | Hpos]; [lia |].
    assert (Hc : In c (map fst (e :: rest))).
    { rewrite Hkeys. apply first_seen_In. unfold occurrences in Hpos.
      destruct (List.filter (String.eqb c) names) as [| y l] eqn:Hf;
        [contradiction |].
      assert (Hy : In y (List.filter (String.eqb c) names)) by (rewrite Hf; now left).
      apply filter_In in Hy. destruct Hy as [Hy Heq].
      apply String.eqb_eq in Heq. now subst. }
    apply in_map_iff in Hc. destruct Hc as ([c' m] & <- & Hin). simpl.
    rewrite (Hcount c' m Hin). rewrite Hsplit in Hin.
    apply in_app_or in Hin. destruct Hin as [Hin | [Heq | Hin]].
    + rewrite List.Forall_forall in Hpre. specialize (Hpre _ Hin). simpl in Hpre. lia.
    + injection Heq as _ <-. lia.
    + rewrite List.Forall_forall in Hpost. apply (Hpost _ Hin).
  - assert (Hfs : first_seen names = map fst pre ++ k :: map fst post).
    { rewrite <- Hkeys, Hsplit, map_app. reflexivity. }
    destruct (first_seen_split names _ _ _ Hfs) as (l1 & l2 & Hl & Hnot & Hbefore).
    exists l1, l2. split; [exact Hl |]. split; [exact Hnot |].
    intros c Hc. apply Hpre', Hbefore, Hc.
Qed.

(** The fields of an accepted response in terms of its predictions. *)
Lemma response_fields models fs request resp :
  classify_images models fs request = inr resp ->
  predictions resp = map (predict_path fs) (image_paths request)
  /\ primaryClass resp = vote (valid_of (predictions resp))
  /\ averageConfidence resp
     = py_round (mean_confidence (valid_of (predictions resp))) 3
  /\ isValid resp = Qltb 0.6 (mean_confidence (valid_of (predictions resp)))
  /\ validImages resp = length (valid_of (predictions resp)).
Proof.
  intros Hresp.
  destruct (classify_images_inversion _ _ _ _ Hresp) as [Hinit Hpaths].
  rewrite (classify_images_accepts _ _ _ Hinit Hpaths) in Hresp.
  injection Hresp as <-. simpl. repeat split.
Qed.


(** X4. In every accepted batch the primary class is a majority winner: with
    no valid prediction it is "unknown"; otherwise it is the class of some
    valid prediction and no class occurs more often among the valid
    predictions. *)
Theorem primary_class_is_a_majority models fs request resp :
  classify_images models fs request = inr resp ->
  let names := map class_name (valid_of (predictions resp)) in
  (names = [] -> primaryClass resp = "unknown")
  /\ (names <> [] ->
      In (primaryClass resp) names
      /\ forall c, (occurrences c names <= occurrences (primaryClass resp) names)%nat).
Proof.
  intros Hresp names.
  destruct (response_fields _ _ _ _ Hresp) as (_ & Hprimary & _).
  rewrite Hprimary. subst names. split.
  - intros Hnil. destruct (valid_of (predictions resp)); [reflexivity | discriminate].
  - intros Hne.
    assert (Hvalid : valid_of (predictions resp) <> []).
    { intros Hnil. rewrite Hnil in Hne. now apply Hne. }
    destruct (vote_names_spec _ Hvalid) as (Hmax & l1 & l2 & Hsplit & _).
    split; [| exact Hmax].
    assert (Hin : In (vote (valid_of (predictions resp)))
                     (l1 ++ vote (valid_of (predictions resp)) :: l2))
      by (apply in_or_app; right; now left).
    now rewrite <- Hsplit in Hin.
Qed.

Lemma primary_class_is_a_majority_witness :
  exists resp,
    classify_images (lifespan_startup ∅) demo_fs
      (demo_request ["/img/speck.png"; "/img/blue.png"; "/img/none.png"])
    = inr resp
    /\ let names := map class_name (valid_of (predictions resp)) in
       (names = [] -> primaryClass resp = "unknown")
       /\ (names <> [] ->
           In (primaryClass resp) names
           /\ forall c, (occurrences c names
                         <= occurrences (primaryClass resp) names)%nat).
Proof.
  eexists. split.
  - apply classify_images_accepts; [reflexivity | discriminate].
  - apply (primary_class_is_a_majority (lifespan_startup ∅) demo_fs
             (demo_request ["/img/speck.png"; "/img/blue.png"; "/img/none.png"])).
    apply classify_images_accepts; [reflexivity | discriminate].
Defined.

(** X5. In every accepted batch with a valid prediction, ties in the vote go
    to the class seen first: every class that appears among the valid
    predictions before the first appearance of the primary class occurs
    strictly less often than the primary class. *)
Theorem primary_class_tie_goes_to_first_seen models fs request resp :
  classify_images models fs request = inr resp ->
  valid_of (predictions resp) <> [] ->
  let names := map class_name (valid_of (predictions resp)) in
  exists l1 l2,
    names = l1 ++ primaryClass resp :: l2
    /\ ~ In (primaryClass resp) l1
    /\ forall c, In c l1 ->
                 (occurrences c names < occurrences (primaryClass resp) names)%nat.
Proof.
  intros Hresp Hvalid names.
  destruct (response_fields _ _ _ _ Hresp) as (_ & Hprimary & _).
  rewrite Hprimary. subst names.
  destruct (vote_names_spec _ Hvalid) as (_ & Hsplit). exact Hsplit.
Qed.

Lemma primary_class_tie_goes_to_first_seen_witness :
  exists resp,
    classify_images (lifespan_startup ∅) demo_fs
      (demo_request ["/img/speck.png"; "/img/blue.png"; "/img/none.png"])
    = inr resp
    /\ valid_of (predictions resp) <> []
    /\ let names := map class_name (valid_of (predictions resp)) in
       exists l1 l2,
         names = l1 ++ primaryClass resp :: l2
         /\ ~ In (primaryClass resp) l1
         /\ forall c, In c l1 ->
                      (occurrences c names
                       < occurrences (primaryClass resp) names)%nat.
Proof.
  assert (Hvalid : valid_of
                     (map (predict_path demo_fs)
                        ["/img/speck.png"; "/img/blue.png"; "/img/none.png"])
                   <> []) by (vm_compute; discriminate).
  eexists. split; [| split].
  - apply classify_images_accepts; [reflexivity | discriminate].
  - exact Hvalid.
  - apply (primary_class_tie_goes_to_first_seen (lifespan_startup ∅) demo_fs
             (demo_request ["/img/speck.png"; "/img/blue.png"; "/img/none.png"])).
    + apply classify_images_accepts; [reflexivity | discriminate].
    + exact Hvalid.
Defined.

(** For two classes with one vote each the earlier one wins. *)
Lemma primary_class_tie_example :
  exists resp,
    classify_images (lifespan_startup ∅) demo_fs
      (demo_request ["/img/blue.png"; "/img/speck.png"]) = inr resp
    /\ map class_name (predictions resp) = ["pollution"; "unknown"]
    /\ primaryClass resp = "pollution".
Proof.
  eexists. split.
  - apply classify_images_accepts; [reflexivity | discriminate].
  - split; vm_compute; reflexivity.
Qed.

(** ** The range of the average confidence *)

Lemma valid_of_In (ps : list ImagePrediction) (p : ImagePrediction) :
  In p (valid_of ps) <-> In p ps /\ class_name p <> "invalid".
Proof.
  unfold valid_of. rewrite filter_In, negb_true_iff.
  rewrite <- not_true_iff_false, String.eqb_eq. reflexivity.
Qed.

Lemma valid_confidences_range (fs : filesystem) (paths : list string) :
  Forall (fun c => 0.3 <= c <= 0.9)
         (map confidence (valid_of (map (predict_path fs) paths))).
Proof.
  apply Forall_map, List.Forall_forall. intros p Hp.
  apply valid_of_In in Hp. destruct Hp as [Hin Hvalid].
  apply in_map_iff in Hin. destruct Hin as (path & <- & _).
  destruct (predict_path_range fs path) as [[Hinv _] | (_ & Hc & _)];
    [contradiction | exact Hc].
Qed.

(** X6. In every accepted batch the reported average confidence is 0.0 when
    no prediction is valid (and the batch is then not valid), and otherwise
    lies between 0.3 and 0.9. *)
Theorem average_confidence_range models fs request resp :
  classify_images models fs request = inr resp ->
  (validImages resp = 0%nat
   /\ averageConfidence resp == 0 /\ isValid resp = false)
  \/ ((0 < validImages resp)%nat /\ 0.3 <= averageConfidence resp <= 0.9).
Proof.
  intros Hresp.
  destruct (response_fields _ _ _ _ Hresp) as (Hpred & _ & Havg & Hvalid & Hn).
  rewrite Havg, Hvalid, Hn, Hpred.
  pose proof (valid_confidences_range fs (image_paths request)) as Hall.
  destruct (valid_of (map (predict_path fs) (image_paths request)))
    as [| p valid] eqn:Hv.
  - left. repeat split.
  - right. split; [simpl; lia |].
    assert (Hmean : 0.3 <= mean_confidence (p :: valid) <= 0.9).
    { unfold mean_confidence. rewrite <- (length_map confidence).
      apply mean_bounds; [discriminate | exact Hall]. }
    pose proof (py_round3_bounds (mean_confidence (p :: valid)) 300 900) as Hr.
    lra.
Qed.

Lemma average_confidence_range_witness :
  exists resp,
    classify_images (lifespan_startup ∅) demo_fs
      (demo_request ["/img/speck.png"; "/img/blue.png"; "/img/none.png"])
    = inr resp
    /\ ((validImages resp = 0%nat
         /\ averageConfidence resp == 0 /\ isValid resp = false)
        \/ ((0 < validImages resp)%nat /\ 0.3 <= averageConfidence resp <= 0.9)).
Proof.
  eexists. split.
  - apply classify_images_accepts; [reflexivity | discriminate].
  - apply (average_confidence_range (lifespan_startup ∅) demo_fs
             (demo_request ["/img/speck.png"; "/img/blue.png"; "/img/none.png"])).
    apply classify_images_accepts; [reflexivity | discriminate].
Defined.

(** * The health and anomaly endpoints *)

Section AnomalyFacts.
Import Anomaly.

Lemma zero_test (lon lat : Q) :
  Qeq_bool lon 0.0 && Qeq_bool lat 0.0 = true <-> lon == 0 /\ lat == 0.
Proof.
  rewrite andb_true_iff, !Qeq_bool_iff.
  split; intros [H1 H2]; split; lra.
Qed.

Lemma range_test (lon lat : Q) :
  negb (Qle_bool (-180) lon && Qle_bool lon 180)
  || negb (Qle_bool (-90) lat && Qle_bool lat 90) = false
  <-> -180 <= lon <= 180 /\ -90 <= lat <= 90.
Proof.
  rewrite orb_false_iff, !negb_false_iff, !andb_true_iff, !Qle_bool_iff.
  tauto.
Qed.

Lemma check_zero_range_cases (request : AnomalyDetectionRequest) (lon lat : Q) :
  let st := check_range request lon lat (check_zero request lon lat ([], 0.0)) in
  (st = ([], 0.0)
   /\ ~ (lon == 0 /\ lat == 0) /\ -180 <= lon <= 180 /\ -90 <= lat <= 90)
  \/ ((exists f, st = ([ f ], 0.0 + 0.8) /\ type f = "suspicious_coordinates")
      /\ lon == 0 /\ lat == 0)
  \/ ((exists f, st = ([ f ], 0.0 + 0.9) /\ type f = "invalid_coordinates")
      /\ (~ (-180 <= lon <= 180) \/ ~ (-90 <= lat <= 90))).
Proof.
  cbv zeta. unfold check_range, check_zero.
  pose proof (zero_test lon lat) as Hz. pose proof (range_test lon lat) as Hr.
  destruct (Qeq_bool lon 0.0 && Qeq_bool lat 0.0);
    destruct (negb (Qle_bool (-180) lon && Qle_bool lon 180)
              || negb (Qle_bool (-90) lat && Qle_bool lat 90));
    cbn [fst snd app].
  - exfalso. destruct Hz as [Hz _]. destruct (Hz eq_refl) as [H1 H2].
    assert (Hin : -180 <= lon <= 180 /\ -90 <= lat <= 90) by (split; lra).
    apply Hr in Hin. discriminate Hin.
  - right. left. split; [eexists; split; reflexivity |]. now apply Hz.
  - right. right. split; [eexists; split; reflexivity |].
    destruct (Qlt_le_dec lon (-180)) as [H1 | H1]; [left; lra |].
    destruct (Qlt_le_dec 180 lon) as [H2 | H2]; [left; lra |].
    destruct (Qlt_le_dec lat (-90)) as [H3 | H3]; [right; lra |].
    destruct (Qlt_le_dec 90 lat) as [H4 | H4]; [right; lra |].
    exfalso. assert (Hin : -180 <= lon <= 180 /\ -90 <= lat <= 90) by lra.
    apply Hr in Hin. discriminate Hin.
  - left. split; [reflexivity |]. split.
    + intros H. apply Hz in H. discriminate H.
    + now apply Hr.
Qed.

(** What the coordinate checks leave behind. *)
Lemma check_coordinates_cases (request : AnomalyDetectionRequest) :
  let st := check_coordinates request ([], 0.0) in
  (st = ([], 0.0) /\ ~ coordinate_anomaly request)
  \/ ((exists f, st = ([ f ], 0.0 + 0.8) /\ type f = "suspicious_coordinates")
      /\ coordinate_anomaly request)
  \/ ((exists f, st = ([ f ], 0.0 + 0.9) /\ type f = "invalid_coordinates")
      /\ coordinate_anomaly request).
Proof.
  cbv zeta. unfold check_coordinates, coordinate_anomaly.
  destruct (coordinates request) as [| lon [| lat [| extra rest]]] eqn:Hc.
  - left. split; [reflexivity |]. intros (? & ? & H & _). discriminate H.
  - left. split; [reflexivity |]. intros (? & ? & H & _). discriminate H.
  - destruct (check_zero_range_cases request lon lat)
      as [(Hst & Hz & Hlon & Hlat) | [(Hst & Hlon & Hlat) | (Hst & Hout)]].
    + left. split; [exact Hst |].
      intros (lon' & lat' & Heq & Hbad). injection Heq as <- <-. tauto.
    + right. left. split; [exact Hst |]. exists lon, lat. tauto.
    + right. right. split; [exact Hst |]. exists lon, lat. tauto.
  - left. split; [reflexivity |]. intros (? & ? & H & _). discriminate H.
Qed.

(** A returned response, in terms of the two stages. *)
Lemma detect_anomalies_returned models request resp :
  detect_anomalies models request = Returned resp ->
  exists cflags cscore fflags total,
    check_coordinates request ([], 0.0) = (cflags, cscore)
    /\ flags resp = cflags ++ fflags
    /\ score resp = py_round total 3
    /\ isSuspicious resp = Qltb 0.6 total
    /\ ((fflags = [] /\ total = cscore)
        \/ ((exists f, fflags = [ f ] /\ type f = "frequent_reporter")
            /\ total = cscore + 0.4)).
Proof.
  unfold detect_anomalies. destruct (initialized models); [| discriminate].
  cbn [negb]. unfold check_frequency, bind, ret.
  destruct (check_coordinates request ([], 0.0)) as [cflags cscore].
  destruct (options request) as [opts |]; [| discriminate].
  destruct (py_in "high_frequency" (dict_get opts "simulate" (JList [])))
    as [e | [|]]; [discriminate | |];
    intros H; injection H as <-; cbn [fst snd flags score isSuspicious].
  - eexists cflags, cscore, _, _. split; [reflexivity |].
    split; [reflexivity |]. split; [reflexivity |]. split; [reflexivity |].
    right. split; [eexists; split; reflexivity | reflexivity].
  - exists cflags, cscore, [], cscore. rewrite app_nil_r.
    repeat split. now left.
Qed.

(** X7. A returned anomaly report is suspicious exactly when the coordinates
    are a pair that is (0, 0) or out of range; the simulated frequency flag
    alone never makes a report suspicious, and coordinates that are not a
    pair are never checked. *)
Theorem suspicious_iff_coordinate_anomaly models request resp :
  detect_anomalies models request = Returned resp ->
  isSuspicious resp = true <-> coordinate_anomaly request.
Proof.
  intros Hret.
  destruct (detect_anomalies_returned _ _ _ Hret)
    as (cflags & cscore & fflags & total & Hc & _ & _ & Hsus & Htotal).
  rewrite Hsus, Qltb_lt.
  destruct (check_coordinates_cases request)
    as [(Hst & Hno) | [((f & Hst & _) & Hyes) | ((f & Hst & _) & Hyes)]];
    cbv zeta in Hst; rewrite Hc in Hst; injection Hst as -> ->;
    destruct Htotal as [(_ & ->) | (_ & ->)];
    split; intros H; try assumption; try contradiction; try lra;
    try reflexivity.
Qed.

Lemma suspicious_iff_coordinate_anomaly_witness :
  exists resp,
    detect_anomalies (lifespan_startup ∅)
      {| reporter_id := "reporter-1";
         coordinates := [ 200; 10 ];
         options := Some [ ("simulate", JList [ JStr "high_frequency" ]) ] |}
    = Returned resp
    /\ (isSuspicious resp = true
        <-> coordinate_anomaly
              {| reporter_id := "reporter-1";
                 coordinates := [ 200; 10 ];
                 options := Some [ ("simulate", JList [ JStr "high_frequency" ]) ] |}).
Proof.
  eexists. split; [vm_compute; reflexivity |].
  apply (suspicious_iff_coordinate_anomaly (lifespan_startup ∅)).
  vm_compute. reflexivity.
Defined.

(** X8. In a returned anomaly report the score is the sum of the weights of
    the flags raised (0.8 for exact-zero coordinates, 0.9 for out-of-range
    coordinates, 0.4 for the frequency flag); the two coordinate flags exclude
    each other, so there are at most two flags and the score is at most
    1.3. *)
Theorem anomaly_score_is_sum_of_flag_weights models request resp :
  detect_anomalies models request = Returned resp ->
  score resp == py_sum (map flag_weight (flags resp))
  /\ (length (flags resp) <= 2)%nat
  /\ 0 <= score resp <= 1.3.
Proof.
  intros Hret.
  destruct (detect_anomalies_returned _ _ _ Hret)
    as (cflags & cscore & fflags & total & Hc & -> & -> & _ & Htotal).
  destruct (check_coordinates_cases request)
    as [(Hst & _) | [((f & Hst & Hf) & _) | ((f & Hst & Hf) & _)]];
    cbv zeta in Hst; rewrite Hc in Hst; injection Hst as -> ->;
    destruct Htotal as [(-> & ->) | ((g & -> & Hg) & ->)];
    cbn [app map length]; unfold py_sum; cbn [fold_left];
    unfold flag_weight; rewrite ?Hf, ?Hg; cbn [String.eqb Ascii.eqb Bool.eqb];
    (split; [vm_compute; reflexivity |]);
    (split; [lia |]); split; vm_compute; discriminate.
Qed.

Lemma anomaly_score_is_sum_of_flag_weights_witness :
  exists resp,
    detect_anomalies (lifespan_startup ∅)
      {| reporter_id := "reporter-1";
         coordinates := [ 0; 0 ];
         options := Some [ ("simulate", JList [ JStr "high_frequency" ]) ] |}
    = Returned resp
    /\ score resp == py_sum (map flag_weight (flags resp))
    /\ (length (flags resp) <= 2)%nat
    /\ 0 <= score resp <= 1.3.
Proof.
  eexists. split; [vm_compute; reflexivity |].
  apply (anomaly_score_is_sum_of_flag_weights (lifespan_startup ∅)
           {| reporter_id := "reporter-1";
              coordinates := [ 0; 0 ];
              options := Some [ ("simulate", JList [ JStr "high_frequency" ]) ] |}).
  vm_compute. reflexivity.
Defined.

Lemma py_in_searchable (needle : string) (v : json) :
  (searchable v <-> exists b, py_in needle v = inr b)
  /\ (~ searchable v <-> exists e, py_in needle v = inl e).
Proof.
  destruct v; cbn [searchable py_in raise ret]; split; split;
    try (intros _; eexists; reflexivity);
    try (intros [? H]; discriminate H);
    try tauto.
Qed.

(** X9. The anomaly endpoint answers with a report exactly when the service
    is initialised, [options] is a dict, and the value under "simulate" (an
    empty list when the key is missing) is a list, a string or a dict; an
    uninitialised service rejects with 503, and in the remaining cases the
    handler raises an exception it does not catch. *)
Theorem anomaly_answers_iff models request :
  (initialized models = false ->
   detect_anomalies models request
   = Rejected {| status_code := 503; detail := "AI models not loaded" |})
  /\ (initialized models = true ->
      (exists resp, detect_anomalies models request = Returned resp)
      <-> exists opts,
            options request = Some opts
            /\ searchable (dict_get opts "simulate" (JList [])))
  /\ (initialized models = true ->
      (exists e, detect_anomalies models request = Crashed e)
      <-> ~ exists opts,
              options request = Some opts
              /\ searchable (dict_get opts "simulate" (JList []))).
Proof.
  unfold detect_anomalies, check_frequency, bind, ret.
  destruct (initialized models); cbn [negb].
  2: { split; [reflexivity |]. split; discriminate. }
  split; [discriminate |].
  destruct (check_coordinates request ([], 0.0)) as [cflags cscore].
  destruct (options request) as [opts |].
  - destruct (py_in_searchable "high_frequency"
                (dict_get opts "simulate" (JList []))) as [Hok Hbad].
    destruct (py_in "high_frequency" (dict_get opts "simulate" (JList [])))
      as [e | hit].
    + assert (Hns : ~ searchable (dict_get opts "simulate" (JList [])))
        by (apply Hbad; now exists e).
      split; intros _; split.
      * intros [resp H]. discriminate H.
      * intros (o & Ho & Hs). injection Ho as <-. contradiction.
      * intros _ (o & Ho & Hs). injection Ho as <-. contradiction.
      * intros _. eexists. reflexivity.
    + assert (Hs : searchable (dict_get opts "simulate" (JList [])))
        by (apply Hok; now exists hit).
      split; intros _; split.
      * intros _. exists opts. split; [reflexivity | exact Hs].
      * intros _. destruct hit; eexists; reflexivity.
      * intros [e H]. destruct hit; discriminate H.
      * intros Hn. exfalso. apply Hn. exists opts. split; [reflexivity | exact Hs].
  - split; intros _; split.
    + intros [resp H]. discriminate H.
    + intros (o & Ho & _). discriminate Ho.
    + intros _ (o & Ho & _). discriminate Ho.
    + intros _. eexists. reflexivity.
Qed.

(** X10. The life cycle of the image service: once [lifespan] has started it,
    the health endpoint reports the models as loaded and every non-empty
    classification request is answered; once [lifespan] has shut it down,
    whatever the dict held, the health endpoint reports them as not loaded and
    both the classification and the anomaly endpoint reject with 503. *)
Theorem service_life_cycle (models : gmap string bool) (fs : filesystem)
    (request : ImageClassificationRequest) (report : AnomalyDetectionRequest) :
  let up := lifespan_startup models in
  let down := lifespan_shutdown up in
  models_loaded (health_check up) = true
  /\ (image_paths request <> [] ->
      exists resp, classify_images up fs request = inr resp)
  /\ models_loaded (health_check down) = false
  /\ classify_images down fs request
     = inl {| status_code := 503; detail := "AI models not loaded" |}
  /\ detect_anomalies down report
     = Rejected {| status_code := 503; detail := "AI models not loaded" |}.
Proof.
  intros up down. subst up down.
  pose proof (initialized_after_startup models) as Hup.
  split; [exact Hup |]. split.
  - intros Hne. eexists. apply classify_images_accepts; assumption.
  - repeat split.
Qed.

End AnomalyFacts.

(** * The stand-alone worker *)

Section WorkerFacts.

(** The branch taken by the worker's [if]/[elif] chain and the confidence it
    assigns, before the cap and the rounding. *)
Lemma worker_classify_table (g br bl : Q) :
  let r := Worker.classify g br bl in
  (fst r = "mangrove" /\ 0.25 < g /\ 0.05 < bl /\ 0.85 < snd r <= 0.9)
  \/ (fst r = "cutting" /\ 0.2 < br /\ g < 0.1 /\ 0.75 < snd r <= 0.8)
  \/ (fst r = "water_pollution" /\ 0.4 < bl /\ snd r == 0.85)
  \/ (fst r = "unknown" /\ 0.4 <= snd r <= 0.6).
Proof.
  cbv zeta. unfold Worker.classify.
  destruct (Qltb 0.25 g) eqn:H1; [apply Qltb_lt in H1 | apply Qltb_ge in H1];
    destruct (Qltb 0.05 bl) eqn:H2; [apply Qltb_lt in H2 | apply Qltb_ge in H2 | apply Qltb_lt in H2 | apply Qltb_ge in H2];
    cbn [andb];
    try (left; cbn [fst snd]; unfold py_min; compare_all; repeat split; lra);
    (destruct (Qltb 0.2 br) eqn:H3; [apply Qltb_lt in H3 | apply Qltb_ge in H3];
     destruct (Qltb g 0.1) eqn:H4; [apply Qltb_lt in H4 | apply Qltb_ge in H4 | apply Qltb_lt in H4 | apply Qltb_ge in H4];
     cbn [andb];
     try (right; left; cbn [fst snd]; unfold py_min; compare_all;
          repeat split; lra);
     (destruct (Qltb 0.4 bl) eqn:H5; [apply Qltb_lt in H5 | apply Qltb_ge in H5];
      [ right; right; left; cbn [fst snd]; unfold py_min; compare_all;
        repeat split; lra
      | right; right; right; cbn [fst snd]; unfold py_max, py_min; compare_all;
        repeat split; lra ])).
Qed.

Lemma worker_analyze_array_inversion (arr : image) (p : Worker.prediction) :
  Worker.analyze_array arr = inr p ->
  (0 < height arr * width arr)%nat
  /\ exists info,
       let total := of_nat (height arr * width arr) in
       let g := of_nat (count_nonzero green_mask arr) / total in
       let br := of_nat (count_nonzero brown_mask arr) / total in
       let bl := of_nat (count_nonzero blue_mask arr) / total in
       p = Worker.Classified (fst (Worker.classify g br bl))
             (py_round (py_min (snd (Worker.classify g br bl)) 0.98) 3)
             "python-heuristic-v1" None info.
Proof.
  unfold Worker.analyze_array, ratio.
  destruct (Nat.eqb (height arr * width arr) 0) eqn:Ht; [discriminate |].
  apply Nat.eqb_neq in Ht. cbn [bind ret]. cbv zeta.
  destruct (Worker.classify _ _ _) as [cls conf]. intros H. injection H as <-.
  split; [lia |]. eexists. reflexivity.
Qed.

Lemma worker_analyze_array_total (arr : image) :
  (0 < height arr * width arr)%nat ->
  exists p, Worker.analyze_array arr = inr p.
Proof.
  intros Hpos. unfold Worker.analyze_array, ratio.
  replace (Nat.eqb (height arr * width arr) 0) with false
    by (symmetry; apply Nat.eqb_neq; lia).
  cbn [bind ret]. cbv zeta. destruct (Worker.classify _ _ _). eexists. reflexivity.
Qed.

(** What [analyze_array] reports, after the cap and the rounding. *)
Lemma worker_prediction_table (arr : image) (p : Worker.prediction) :
  Worker.analyze_array arr = inr p ->
  (Worker.class p = "mangrove" /\ 0.85 <= Worker.confidence p <= 0.9)
  \/ (Worker.class p = "cutting" /\ 0.75 <= Worker.confidence p <= 0.8)
  \/ (Worker.class p = "water_pollution" /\ Worker.confidence p == 0.85)
  \/ (Worker.class p = "unknown" /\ 0.4 <= Worker.confidence p <= 0.6).
Proof.
  intros H. apply worker_analyze_array_inversion in H.
  destruct H as (_ & info & ->). cbv zeta. cbn [Worker.class Worker.confidence].
  match goal with
  | |- context [Worker.classify ?g ?br ?bl] =>
      destruct (worker_classify_table g br bl) as [T | [T | [T | T]]];
      cbv zeta in T; destruct (Worker.classify g br bl) as [cls conf]
  end; cbn [fst snd] in *.
  - destruct T as (-> & _ & _ & Hc). left. split; [reflexivity |].
    assert (E : py_min conf 0.98 = conf).
    { unfold py_min. destruct (Qltb 0.98 conf) eqn:Hb; [apply Qltb_lt in Hb; lra | reflexivity]. }
    rewrite E. pose proof (py_round3_bounds conf 850 900) as Hr. lra.
  - destruct T as (-> & _ & _ & Hc). right. left. split; [reflexivity |].
    assert (E : py_min conf 0.98 = conf).
    { unfold py_min. destruct (Qltb 0.98 conf) eqn:Hb; [apply Qltb_lt in Hb; lra | reflexivity]. }
    rewrite E. pose proof (py_round3_bounds conf 750 800) as Hr. lra.
  - destruct T as (-> & _ & Hc). right. right. left. split; [reflexivity |].
    assert (E : py_min conf 0.98 = conf).
    { unfold py_min. destruct (Qltb 0.98 conf) eqn:Hb; [apply Qltb_lt in Hb; lra | reflexivity]. }
    rewrite E. pose proof (py_round3_bounds conf 850 850) as Hr. lra.
  - destruct T as (-> & Hc). right. right. right. split; [reflexivity |].
    assert (E : py_min conf 0.98 = conf).
    { unfold py_min. destruct (Qltb 0.98 conf) eqn:Hb; [apply Qltb_lt in Hb; lra | reflexivity]. }
    rewrite E. pose proof (py_round3_bounds conf 400 600) as Hr. lra.
Qed.

(** X11. The worker's classification of a decoded raster: "mangrove" comes
    with a confidence in [0.85, 0.9], "cutting" with one in [0.75, 0.8],
    "water_pollution" always with 0.85 and "unknown" with one in [0.4, 0.6];
    no other class is produced, and the cap of 0.98 never takes effect. *)
Theorem worker_confidence_table (arr : image) (p : Worker.prediction) :
  Worker.analyze_array arr = inr p ->
  ((Worker.class p = "mangrove" /\ 0.85 <= Worker.confidence p <= 0.9)
   \/ (Worker.class p = "cutting" /\ 0.75 <= Worker.confidence p <= 0.8)
   \/ (Worker.class p = "water_pollution" /\ Worker.confidence p == 0.85)
   \/ (Worker.class p = "unknown" /\ 0.4 <= Worker.confidence p <= 0.6))
  /\ Worker.confidence p < 0.98.
Proof.
  intros H. pose proof (worker_prediction_table arr p H) as T.
  split; [exact T |].
  destruct T as [[_ Hc] | [[_ Hc] | [[_ Hc] | [_ Hc]]]]; lra.
Qed.

Lemma worker_confidence_table_witness :
  exists p,
    Worker.analyze_array speck_image = inr p
    /\ ((Worker.class p = "mangrove" /\ 0.85 <= Worker.confidence p <= 0.9)
        \/ (Worker.class p = "cutting" /\ 0.75 <= Worker.confidence p <= 0.8)
        \/ (Worker.class p = "water_pollution" /\ Worker.confidence p == 0.85)
        \/ (Worker.class p = "unknown" /\ 0.4 <= Worker.confidence p <= 0.6))
    /\ Worker.confidence p < 0.98.
Proof.
  eexists. split; [vm_compute; reflexivity |].
  apply (worker_confidence_table speck_image). vm_compute. reflexivity.
Defined.

(** X12. The worker classifies every decoded raster that has at least one
    pixel, so every raster the service classifies is classified by the worker
    too; a raster with a single row or a single column is classified by the
    worker while the service reports it as "invalid". *)
Theorem worker_accepts_more_than_service (arr : image) :
  ((exists p, Worker.analyze_array arr = inr p)
   <-> (0 < height arr * width arr)%nat)
  /\ ((exists p, analyze_array arr = inr p)
      <-> (2 <= height arr)%nat /\ (2 <= width arr)%nat)
  /\ ((exists p, analyze_array arr = inr p) ->
      exists q, Worker.analyze_array arr = inr q).
Proof.
  assert (Hw : (exists p, Worker.analyze_array arr = inr p)
               <-> (0 < height arr * width arr)%nat).
  { split.
    - intros [p Hp]. now apply worker_analyze_array_inversion in Hp.
    - apply worker_analyze_array_total. }
  assert (Hs : (exists p, analyze_array arr = inr p)
               <-> (2 <= height arr)%nat /\ (2 <= width arr)%nat).
  { pose proof (analyze_array_fails_iff arr) as Hf. split.
    - intros [p Hp].
      destruct (le_lt_dec 2 (height arr)) as [Hh | Hh];
        [destruct (le_lt_dec 2 (width arr)) as [Hw' | Hw']; [lia |] |];
        exfalso;
        (assert (Hsmall : (height arr < 2)%nat \/ (width arr < 2)%nat) by lia);
        apply Hf in Hsmall; destruct Hsmall as [e He]; congruence.
    - intros [Hh Hw'].
      destruct (analyze_array arr) as [e | p] eqn:Ha; [| now exists p].
      exfalso. destruct Hf as [Hf _].
      assert (Hsmall : (height arr < 2)%nat \/ (width arr < 2)%nat)
        by (apply Hf; now exists e).
      lia. }
  split; [exact Hw |]. split; [exact Hs |].
  intros Hp. apply Hw. apply Hs in Hp. nia.
Qed.

(** The one-row strip: classified by the worker, "invalid" for the service. *)
Lemma strip_worker_and_service :
  Worker.class (Worker.analyze_image edge_fs "/img/strip.png") = "unknown"
  /\ class_name (analyze_image_heuristic edge_fs "/img/strip.png") = "invalid".
Proof. split; vm_compute; reflexivity. Qed.


(** ** The worker and the service on the same raster *)

(** When a colour rule of the service fires, the score it feeds is high. *)
Lemma colour_rule_scores (fv : features) :
  (0.25 < green_ratio fv -> 0.05 < blue_ratio fv ->
   0.65 <= mangrove_score (heuristic_scores fv))
  /\ (0.2 < brown_ratio fv -> green_ratio fv < 0.1 ->
      0.6 <= cutting_score (heuristic_scores fv))
  /\ (0.4 < blue_ratio fv -> 0.7 <= pollution_score (heuristic_scores fv)).
Proof.
  assert (F1 : 0.25 < green_ratio fv -> 0.05 < blue_ratio fv ->
               0.65 <= mangrove_score (spec_rule1 fv)).
  { intros. unfold spec_rule1. compare_all; simpl; min_cases; lra. }
  assert (F2 : 0.2 < brown_ratio fv -> green_ratio fv < 0.1 ->
               0.6 <= cutting_score (spec_rule2 fv)).
  { intros. unfold spec_rule2. compare_all; simpl; min_cases; lra. }
  assert (F3 : 0.4 < blue_ratio fv -> 0.7 <= pollution_score (spec_rule3 fv)).
  { intros. unfold spec_rule3. compare_all; simpl; min_cases; lra. }
  use_rules fv.
  split; [| split].
  - intros A B. specialize (F1 A B). lra.
  - intros A B. specialize (F2 A B). lra.
  - intros A. specialize (F3 A). lra.
Qed.

(** A score of at least 0.3 rules the fallback out, and the confidence is at
    least that score. *)
Lemma select_class_high (fv : features) (k : string) (v : Q) :
  In (k, v) (scores_dict (heuristic_scores fv)) ->
  0.3 <= v ->
  exists cls c,
    select_class fv = inr (cls, c) /\ cls <> "unknown" /\ v <= c <= 0.9.
Proof.
  intros Hin Hv.
  destruct (select_class_cases fv)
    as (kw & vw & pre & post & _ & Hsplit & Hpre & Hpost & _ & Hwin).
  assert (Hle : v <= vw).
  { rewrite Hsplit in Hin. apply in_app_or in Hin.
    destruct Hin as [Hin | [Heq | Hin]].
    - rewrite List.Forall_forall in Hpre. specialize (Hpre _ Hin). simpl in Hpre. lra.
    - injection Heq as _ <-. lra.
    - rewrite List.Forall_forall in Hpost. apply (Hpost _ Hin). }
  assert (Hw : In (kw, vw) (scores_dict (heuristic_scores fv))).
  { rewrite Hsplit. apply in_or_app. right. now left. }
  apply scores_dict_entry in Hw. destruct Hw as [Hk Hvw].
  rewrite capped_confidence_id in Hwin by lra.
  exists kw, vw. split; [apply Hwin; lra |]. split; [| lra].
  intros ->. simpl in Hk. destruct Hk as [H | [H | [H | [H | []]]]]; discriminate H.
Qed.

(** X13. On a raster that both classify, whenever the worker recognises a
    class (its answer is not "unknown") the service does not answer "unknown"
    either and its confidence is at least 0.6; so a service answer "unknown"
    implies a worker answer "unknown". *)
Theorem worker_recognition_carries_over (arr : image)
    (p : ImagePrediction) (q : Worker.prediction) :
  analyze_array arr = inr p ->
  Worker.analyze_array arr = inr q ->
  Worker.class q <> "unknown" ->
  class_name p <> "unknown" /\ 0.6 <= confidence p.
Proof.
  intros Hp Hq Hrec.
  apply analyze_array_success in Hp.
  destruct Hp as (fv & cls & c & Hfv & Hsel & ->).
  destruct (extract_features_fields arr fv Hfv)
    as (_ & Hg & Hbr & Hbl & _).
  apply worker_analyze_array_inversion in Hq.
  destruct Hq as (_ & info & ->). cbv zeta in Hrec. cbn [Worker.class] in Hrec.
  rewrite <- Hg, <- Hbr, <- Hbl in Hrec.
  destruct (worker_classify_table (green_ratio fv) (brown_ratio fv) (blue_ratio fv))
    as [T | [T | [T | T]]]; cbv zeta in T.
  4: { destruct T as [Hu _]. contradiction. }
  all: destruct (colour_rule_scores fv) as (R1 & R2 & R3).
  all: assert (Hhigh : exists k v,
                 In (k, v) (scores_dict (heuristic_scores fv)) /\ 0.6 <= v).
  1: { destruct T as (_ & H1 & H2 & _). eexists _, _. split; [left; reflexivity |].
       specialize (R1 H1 H2). simpl. lra. }
  2: { destruct T as (_ & H1 & H2 & _). eexists _, _.
       split; [right; left; reflexivity |]. specialize (R2 H1 H2). simpl. lra. }
  3: { destruct T as (_ & H1 & _). eexists _, _.
       split; [right; right; left; reflexivity |]. specialize (R3 H1). simpl. lra. }
  all: destruct Hhigh as (k & v & Hin & Hv);
    destruct (select_class_high fv k v Hin) as (cls' & c' & Hsel' & Hcls & Hc);
    [lra |]; rewrite Hsel in Hsel'; injection Hsel' as <- <-;
    cbn [class_name confidence success_prediction]; split; [exact Hcls |];
    pose proof (py_round3_bounds c 600 900) as Hr; lra.
Qed.

Lemma worker_recognition_carries_over_witness :
  exists p q,
    analyze_array (uniform_image 2 2 (0, 0, 255)%Z) = inr p
    /\ Worker.analyze_array (uniform_image 2 2 (0, 0, 255)%Z) = inr q
    /\ Worker.class q <> "unknown"
    /\ class_name p <> "unknown" /\ 0.6 <= confidence p.
Proof.
  eexists _, _. split; [vm_compute; reflexivity |].
  split; [vm_compute; reflexivity |]. split; [vm_compute; discriminate |].
  eapply (worker_recognition_carries_over (uniform_image 2 2 (0, 0, 255)%Z)).
  - vm_compute. reflexivity.
  - vm_compute. reflexivity.
  - vm_compute. discriminate.
Defined.

(** ** The worker's batch *)



(** X15. The worker has no request-level guard: a payload that names the
    action [classify_images] and whose [image_paths] is missing or empty is
    answered with the empty batch (no predictions, average 0.0, primary class
    "unknown", not valid, zero counts), where the service rejects an empty
    list with 400. *)
Theorem worker_answers_empty_batch (fs : filesystem)
    (payload : list (string * json)) :
  dict_get payload "action" JNull = JStr "classify_images" ->
  Worker.iterate_paths (dict_get payload "image_paths" (JList [])) = inr [] ->
  exists out,
    Worker.main fs (inr (JDict payload)) = Worker.Batch out
    /\ Worker.predictions out = []
    /\ Worker.averageConfidence out == 0
    /\ Worker.primaryClass out = "unknown"
    /\ Worker.isValid out = false
    /\ Worker.totalImages out = 0%nat
    /\ Worker.validImages out = 0%nat.
Proof.
  intros Haction Hpaths. unfold Worker.main. rewrite Haction, Hpaths.
  eexists. split; [reflexivity |]. repeat split.
Qed.

Lemma worker_answers_empty_batch_witness :
  dict_get [ ("action", JStr "classify_images") ] "action" JNull
  = JStr "classify_images"
  /\ Worker.iterate_paths
       (dict_get [ ("action", JStr "classify_images") ] "image_paths" (JList []))
     = inr []
  /\ exists out,
       Worker.main edge_fs (inr (JDict [ ("action", JStr "classify_images") ]))
       = Worker.Batch out
       /\ Worker.predictions out = []
       /\ Worker.averageConfidence out == 0
       /\ Worker.primaryClass out = "unknown"
       /\ Worker.isValid out = false
       /\ Worker.totalImages out = 0%nat
       /\ Worker.validImages out = 0%nat.
Proof.
  split; [reflexivity |]. split; [reflexivity |].
  apply (worker_answers_empty_batch edge_fs [ ("action", JStr "classify_images") ]);
    reflexivity.
Defined.

End WorkerFacts.

(** * The satellite service *)

Section SatelliteFacts.
Import Satellite SatelliteDemo.

(** ** The MODIS lookup *)

Lemma summarize_some (data : json) (d : ndvi_data) :
  summarize data = inr (Some d) ->
  exists vals,
    vals <> []
    /\ dataPoints d = length vals
    /\ ndvi d = py_sum vals / of_nat (length vals)
    /\ confidence d = py_min 1.0 (of_nat (length vals) / 5.0).
Proof.
  unfold summarize. destruct data; try discriminate.
  destruct (iterate _) as [e | items]; [discriminate |]. cbn [bind].
  destruct (ndvi_values items) as [e | vals]; [discriminate |]. cbn [bind].
  destruct vals as [| v vals]; [discriminate |].
  intros H. injection H as <-. exists (v :: vals).
  split; [discriminate |]. repeat split.
Qed.

Lemma get_nasa_modis_ndvi_some (w : world) (lon lat : Q) (date : datetime)
    (key : string) (d : ndvi_data) :
  get_nasa_modis_ndvi w lon lat date key = Some d ->
  exists data, summarize data = inr (Some d).
Proof.
  unfold get_nasa_modis_ndvi, format_date_for_nasa, bind, ret.
  destruct (add_days date (-16)); [discriminate |].
  destruct (add_days date 16); [discriminate |].
  destruct (requests_get w _) as [e | resp]; [discriminate |].
  destruct (ok resp); cbn [negb]; [| discriminate].
  destruct (body resp) as [e | data]; [discriminate |].
  destruct (summarize data) as [e | r] eqn:Hs; [discriminate |].
  intros ->. now exists data.
Qed.

Lemma lookup_confidence (n : nat) :
  (1 <= n)%nat ->
  0.2 <= py_min 1.0 (of_nat n / 5.0) <= 1
  /\ (py_min 1.0 (of_nat n / 5.0) == 1 <-> (5 <= n)%nat).
Proof.
  intros Hn. assert (H1 : 1 <= of_nat n).
  { change 1 with (of_nat 1). now apply of_nat_le. }
  assert (Hq : of_nat n / 5.0 == of_nat n * (1 # 5)) by (field).
  unfold py_min. destruct (Qltb (of_nat n / 5.0) 1.0) eqn:Hc.
  - apply Qltb_lt in Hc. rewrite Hq in *. split; [lra |]. split.
    + intros E. lra.
    + intros H5. apply of_nat_le in H5. change (of_nat 5) with 5 in H5. lra.
  - apply Qltb_ge in Hc. rewrite Hq in Hc. split; [lra |]. split.
    + intros _. apply of_nat_le_inv. change (of_nat 5) with 5. lra.
    + intros _. reflexivity.
Qed.




(** ** The NDVI endpoint *)

(** How a returned NDVI response came about. *)
Lemma ndvi_endpoint_cases (w : world) (req : NDVIRequest) (resp : NdviResponse) :
  ndvi_endpoint w req = inr resp ->
  exists d past,
    days_back req = Some d
    /\ add_days (utcnow w) (- d) = inr past
    /\ (resp = ndvi_fallback w req (utcnow w)
        \/ exists key p c,
             usable_key w = Some key
             /\ get_nasa_modis_ndvi w (req_longitude req) (req_latitude req)
                  past key = Some p
             /\ get_nasa_modis_ndvi w (req_longitude req) (req_latitude req)
                  (utcnow w) key = Some c
             /\ ndvi_report w req (utcnow w) past p c = inr resp).
Proof.
  unfold ndvi_endpoint. destruct (days_back req) as [d |]; [| discriminate].
  destruct (add_days (utcnow w) (- d)) as [e | past] eqn:Hpast; [discriminate |].
  cbn [bind]. intros H. exists d, past. split; [reflexivity |].
  split; [exact Hpast |].
  destruct (usable_key w) as [key |]; [| left; now injection H].
  destruct (get_nasa_modis_ndvi w _ _ past key) as [p |] eqn:Hp;
    [| left; now injection H].
  destruct (get_nasa_modis_ndvi w _ _ (utcnow w) key) as [c |] eqn:Hc;
    [| left; now injection H].
  right. now exists key, p, c.
Qed.

Lemma lookup_confidence_range (w : world) (lon lat : Q) (date : datetime)
    (key : string) (d : ndvi_data) :
  get_nasa_modis_ndvi w lon lat date key = Some d -> 0.2 <= confidence d <= 1.
Proof.
  intros H. apply get_nasa_modis_ndvi_some in H. destruct H as [data H].
  apply summarize_some in H. destruct H as (vals & Hne & _ & _ & ->).
  apply lookup_confidence. destruct vals; [contradiction | simpl; lia].
Qed.

(** X17. The confidence of an NDVI response tells whether data was found: a
    response is either the fallback (source "unavailable", confidence 0.0, no
    NDVI values, no change and no loss reported) or a MODIS analysis (source
    "nasa-modis", all values present) whose confidence lies in [0.2, 1]. *)
Theorem ndvi_confidence_tells_availability (w : world) (req : NDVIRequest)
    (resp : NdviResponse) :
  ndvi_endpoint w req = inr resp ->
  let a := ndviAnalysis resp in
  let v := vegetationLoss resp in
  (satelliteSource a = "unavailable"
   /\ analysis_confidence a = 0.0
   /\ beforeNDVI a = None /\ afterNDVI a = None /\ difference a = None
   /\ percentage v = None
   /\ changeDetected a = false /\ confirmed v = false)
  \/ (satelliteSource a = "nasa-modis"
      /\ 0.2 <= analysis_confidence a <= 1
      /\ beforeNDVI a <> None /\ afterNDVI a <> None /\ difference a <> None
      /\ percentage v <> None).
Proof.
  intros H. destruct (ndvi_endpoint_cases w req resp H)
    as (d & past & _ & _ & [-> | (key & p & c & _ & Hp & Hc & Hrep)]); cbv zeta.
  - left. repeat split.
  - right. unfold ndvi_report, bind, ret in Hrep.
    destruct (change_threshold w) as [e | threshold]; [discriminate |].
    injection Hrep as <-. cbn.
    split; [reflexivity |]. split; [| repeat split; discriminate].
    pose proof (lookup_confidence_range _ _ _ _ _ _ Hp).
    pose proof (lookup_confidence_range _ _ _ _ _ _ Hc).
    unfold py_min. compare_all; lra.
Qed.

Lemma ndvi_confidence_tells_availability_witness :
  exists resp,
    ndvi_endpoint keyless_world demo_ndvi_request = inr resp
    /\ let a := ndviAnalysis resp in
       let v := vegetationLoss resp in
       (satelliteSource a = "unavailable"
        /\ analysis_confidence a = 0.0
        /\ beforeNDVI a = None /\ afterNDVI a = None /\ difference a = None
        /\ percentage v = None
        /\ changeDetected a = false /\ confirmed v = false)
       \/ (satelliteSource a = "nasa-modis"
           /\ 0.2 <= analysis_confidence a <= 1
           /\ beforeNDVI a <> None /\ afterNDVI a <> None /\ difference a <> None
           /\ percentage v <> None).
Proof.
  eexists. split; [vm_compute; reflexivity |].
  apply (ndvi_confidence_tells_availability keyless_world demo_ndvi_request).
  vm_compute. reflexivity.
Defined.

Lemma loss_pct_above (p c t : Q) :
  0 <= t -> (t < vegetation_loss_pct p c <-> 0 < p /\ c < (1 - t / 100) * p).
Proof.
  intros Ht. unfold vegetation_loss_pct.
  assert (E2 : (1 - t / 100) * p == p - t * p * (1 # 100)) by field.
  destruct (Qltb 0 p) eqn:Hp; [apply Qltb_lt in Hp | apply Qltb_ge in Hp].
  - assert (E : (p - c) / p * 100 * p == 100 * (p - c)) by (field; lra).
    rewrite E2, <- (Qmult_lt_r t ((p - c) / p * 100) p Hp), E.
    split; [intros H; split; [exact Hp | lra] | intros [_ H]; lra].
  - split; [intros H; lra | intros [H _]; lra].
Qed.



End SatelliteFacts.

Section DeforestationFacts.
Import Satellite SatelliteDemo.

(** ** The deforestation endpoint *)

Lemma round_half_even_near (x : Q) :
  x - (1 # 2) <= inject_Z (round_half_even x) <= x + (1 # 2).
Proof.
  unfold round_half_even.
  pose proof (Qfloor_le x) as Hlo. pose proof (Qlt_floor x) as Hhi.
  rewrite inject_Z_plus in Hhi. change (inject_Z 1) with 1 in Hhi.
  compare_all; [| | destruct (Z.even (Qfloor x))];
    rewrite ?inject_Z_plus; change (inject_Z 1) with 1;
    generalize dependent (inject_Z (Qfloor x)); intros; lra.
Qed.

Lemma py_round3_near (x : Q) :
  x - (1 # 2000) <= py_round x 3 <= x + (1 # 2000).
Proof.
  unfold py_round. change (inject_Z (10 ^ Z.of_nat 3)) with 1000.
  pose proof (round_half_even_near (x * 1000)) as H.
  generalize dependent (inject_Z (round_half_even (x * 1000))). intros r H.
  assert (E : r / 1000 == r * (1 # 1000)) by field. rewrite E. lra.
Qed.

(** The verdict of lines 187-202, case by case. *)
Lemma assess_cases (before after : option Q) :
  (assess before after = (false, 0.0, "low")
   /\ ~ (exists b a, before = Some b /\ after = Some a /\ 0 < b))
  \/ exists b a,
       before = Some b /\ after = Some a /\ 0 < b
       /\ let pct := vegetation_loss_pct b a in
          assess before after
          = (Qltb 20 pct,
             if Qltb 50 pct then 0.9 else if Qltb 25 pct then 0.75
             else if Qltb 10 pct then 0.6 else 0.5,
             if Qltb 50 pct then "critical" else if Qltb 25 pct then "high"
             else if Qltb 10 pct then "medium" else "low").
Proof.
  destruct before as [b |], after as [a |];
    try (left; split; [reflexivity | intros (b' & a' & ? & ? & _); discriminate]).
  unfold assess. destruct (Qltb 0 b) eqn:Hb.
  - assert (Hne : Qeq_bool b 0 = false).
    { apply Qltb_lt in Hb. destruct (Qeq_bool b 0) eqn:E; [| reflexivity].
      apply Qeq_bool_eq in E. lra. }
    rewrite Hne. cbn [negb andb]. right. exists b, a.
    split; [reflexivity |]. split; [reflexivity |].
    split; [now apply Qltb_lt |]. cbv zeta. unfold vegetation_loss_pct.
    rewrite Hb.
    assert (E : Qltb (0.2 * 100) ((b - a) / b * 100)
                = Qltb 20 ((b - a) / b * 100)).
    { apply Qltb_proper; [reflexivity | reflexivity]. }
    rewrite E.
    destruct (Qltb 50 _); [reflexivity |].
    destruct (Qltb 25 _); [reflexivity |].
    destruct (Qltb 10 _); reflexivity.
  - rewrite andb_false_r. left. split; [reflexivity |].
    intros (b' & a' & Eb & _ & Hpos). injection Eb as <-.
    apply Qltb_ge in Hb. lra.
Qed.

(** What a returned deforestation response is made of. *)
Lemma deforestation_inversion (w : world) (req : DeforestRequest)
    (resp : DeforestResponse) :
  deforestation w req = inr resp ->
  ndvi_endpoint w {| req_longitude := def_longitude req;
                     req_latitude := def_latitude req;
                     days_back := Some 60%Z |} = inr (analysis resp)
  /\ assess (beforeNDVI (ndviAnalysis (analysis resp)))
            (afterNDVI (ndviAnalysis (analysis resp)))
     = (detected resp, def_confidence resp, severity resp).
Proof.
  unfold deforestation, bind, ret.
  destruct (add_days (utcnow w) (-60)) as [e | past]; [discriminate |].
  destruct (ndvi_endpoint w _) as [e | ndvi_resp]; [discriminate |].
  destruct (assess _ _) as [[det conf] sev] eqn:Ha.
  intros H. injection H as <-. cbn. now rewrite Ha.
Qed.



(** X20. The two endpoints agree on sizeable NDVI values: when the
    deforestation endpoint detects a loss and the rounded earlier NDVI of its
    analysis is at least 0.02, the analysis it embeds confirms the vegetation
    loss.  (Detection compares the values rounded to three places against
    20%, confirmation the unrounded ones against 15%; below 0.02 the rounding
    can outweigh the margin.) *)
Theorem detected_loss_is_confirmed (w : world) (req : DeforestRequest)
    (resp : DeforestResponse) (b : Q) :
  deforestation w req = inr resp ->
  detected resp = true ->
  beforeNDVI (ndviAnalysis (analysis resp)) = Some b ->
  0.02 <= b ->
  confirmed (vegetationLoss (analysis resp)) = true
  /\ satelliteSource (ndviAnalysis (analysis resp)) = "nasa-modis".
Proof.
  intros H Hdet Hb Hbig. apply deforestation_inversion in H.
  destruct H as [Hndvi Ha].
  destruct (assess_cases (beforeNDVI (ndviAnalysis (analysis resp)))
              (afterNDVI (ndviAnalysis (analysis resp))))
    as [[Ha' _] | (b' & a & Hb' & Hafter & Hpos & Ha')].
  { rewrite Ha' in Ha. injection Ha as E _ _. congruence. }
  cbv zeta in Ha'. rewrite Ha' in Ha. injection Ha as E _ _.
  rewrite Hdet in E. apply Qltb_lt in E.
  apply loss_pct_above in E; [| lra]. destruct E as [_ E].
  assert (Eb : b' = b) by congruence. subst b'. clear Hb'.
  assert (E80 : (1 - 20 / 100) * b == 0.8 * b) by field.
  rewrite E80 in E. clear E80.
  destruct (ndvi_endpoint_cases _ _ _ Hndvi)
    as (d & past & _ & _ & [Hfb | (key & p & c & _ & _ & _ & Hrep)]).
  { rewrite Hfb in Hb. discriminate Hb. }
  unfold ndvi_report, bind, ret in Hrep.
  destruct (change_threshold w) as [e | threshold]; [discriminate |].
  remember (Qabs (ndvi p - ndvi c)) as gap eqn:Hgap.
  injection Hrep as Hresp. rewrite <- Hresp in Hb, Hafter |- *.
  cbn [beforeNDVI afterNDVI ndviAnalysis vegetationLoss confirmed
       satelliteSource] in *.
  split; [| reflexivity].
  injection Hb as Hb. injection Hafter as Hafter.
  pose proof (py_round3_near (ndvi p)) as Np.
  pose proof (py_round3_near (ndvi c)) as Nc.
  rewrite Hb in Np. rewrite Hafter in Nc.
  apply Qltb_lt. apply loss_pct_above; [lra |].
  assert (E85 : (1 - 15 / 100) * ndvi p == 0.85 * ndvi p) by field.
  rewrite E85. split; lra.
Qed.

Lemma detected_loss_is_confirmed_witness :
  exists resp,
    deforestation demo_world demo_deforest_request = inr resp
    /\ confirmed (vegetationLoss (analysis resp)) = true
    /\ satelliteSource (ndviAnalysis (analysis resp)) = "nasa-modis".
Proof.
  eexists. split; [vm_compute; reflexivity |].
  apply (detected_loss_is_confirmed demo_world demo_deforest_request _ 0.800).
  - vm_compute. reflexivity.
  - reflexivity.
  - vm_compute. reflexivity.
  - vm_compute. discriminate.
Defined.
End DeforestationFacts.

Section HistoricalFacts.
Import Satellite SatelliteDemo.

(** ** The historical endpoint *)

Lemma day_pos : (0 < day)%Z.
Proof. reflexivity. Qed.

Lemma add_days_instant (dt next : datetime) (n : Z) :
  add_days dt n = inr next ->
  next = {| ticks := ticks dt + n * day; utcoffset := utcoffset dt |}
  /\ instant next = (instant dt + n * day)%Z.
Proof.
  unfold add_days.
  destruct ((0 <=? ticks dt + n * day)%Z && (ticks dt + n * day <=? max_ticks)%Z);
    [| discriminate].
  intros H. injection H as <-. split; [reflexivity |].
  unfold instant. cbn. destruct (utcoffset dt); lia.
Qed.

Lemma nth_date_0 (start : datetime) (step : Z) : nth_date start step 0 = start.
Proof.
  destruct start as [t off]. unfold nth_date. cbn. f_equal. lia.
Qed.

Lemma nth_date_S (start next : datetime) (step : Z) (k : nat) :
  add_days start step = inr next ->
  nth_date next step k = nth_date start step (S k).
Proof.
  intros H. apply add_days_instant in H. destruct H as [-> _].
  unfold nth_date. cbn [ticks utcoffset]. f_equal. lia.
Qed.

(** The loop with enough fuel: it ends, and unless a date leaves the
    calendar it has appended one entry per pass. *)
Lemma sample_spec (w : world) (req : HistoricalRequest) (stop : datetime)
    (step : Z) (fuel : nat) :
  (0 < step)%Z ->
  forall (current : datetime) (data : list entry),
    let n := Z.to_nat ((instant stop - instant current) / (step * day) + 1) in
    (n + 1 <= fuel)%nat ->
    (exists e, sample fuel w req stop step current data = Some (inl e))
    \/ sample fuel w req stop step current data
       = Some (inr (data ++ map (fun k => make_entry w req (nth_date current step k))
                                (seq 0 n))).
Proof.
  intros Hstep. pose proof day_pos as Hday.
  assert (Hsd : (0 < step * day)%Z) by lia.
  induction fuel as [| fuel IH]; intros current data n Hfuel; [lia |].
  cbn [sample]. destruct (instant current <=? instant stop)%Z eqn:Hle.
  - apply Z.leb_le in Hle.
    destruct (add_days current step) as [e | next] eqn:Hnext;
      [left; now exists e |].
    destruct (add_days_instant _ _ _ Hnext) as [_ Hi].
    assert (Hq : ((instant stop - instant next) / (step * day)
                  = (instant stop - instant current) / (step * day) - 1)%Z).
    { rewrite Hi.
      replace (instant stop - (instant current + step * day))%Z
        with (instant stop - instant current + (-1) * (step * day))%Z by lia.
      rewrite Z.div_add by lia. lia. }
    assert (Hnn : (0 <= (instant stop - instant current) / (step * day))%Z).
    { apply Z.div_pos; lia. }
    assert (Hn : n = S (Z.to_nat ((instant stop - instant next) / (step * day) + 1))).
    { unfold n. rewrite Hq. lia. }
    specialize (IH next (data ++ [make_entry w req current])).
    cbv zeta in IH. destruct IH as [IH | IH]; [lia | now left |].
    assert (Hm : forall l,
               map (fun k => make_entry w req (nth_date next step k)) l
               = map (fun k => make_entry w req (nth_date current step (S k))) l).
    { intros l. apply map_ext. intros k.
      now rewrite (nth_date_S _ _ _ _ Hnext). }
    right. rewrite IH, Hn, <- app_assoc. cbn [seq map app].
    rewrite nth_date_0, <- seq_shift, map_map, Hm. reflexivity.
  - apply Z.leb_gt in Hle. right.
    assert (Hneg : ((instant stop - instant current) / (step * day) < 0)%Z).
    { apply Z.div_lt_upper_bound; lia. }
    replace n with 0%nat by (unfold n; lia). cbn. now rewrite app_nil_r.
Qed.

(** The three ways through lines 147-159, and what is left for the loop. *)
Lemma historical_cases (w : world) (req : HistoricalRequest) :
  (historical w req
   = Some (Rejected {| status_code := 400;
                       detail := "Invalid date format, use ISO YYYY-MM-DD" |})
   /\ ~ (exists start stop,
           fromisoformat w (hist_startDate req) = inr start
           /\ fromisoformat w (hist_endDate req) = inr stop))
  \/ exists start stop,
       fromisoformat w (hist_startDate req) = inr start
       /\ fromisoformat w (hist_endDate req) = inr stop
       /\ ((same_kind start stop = false
            /\ exists e, historical w req = Some (Crashed e))
           \/ (same_kind start stop = true
               /\ (instant stop - instant start < day)%Z
               /\ historical w req
                  = Some (Rejected {| status_code := 400;
                                      detail := "endDate must be after startDate" |}))
           \/ (same_kind start stop = true
               /\ (day <= instant stop - instant start)%Z
               /\ let d := ((instant stop - instant start) / day)%Z in
                  let step := Z.max 16 (d / 20) in
                  historical w req
                  = match sample (passes start stop step) w req stop step start [] with
                    | None => None
                    | Some (inl e) => Some (Crashed e)
                    | Some (inr data) => Some (Returned data)
                    end)).
Proof.
  unfold historical, days_between, bind, ret. pose proof day_pos as Hday.
  destruct (fromisoformat w (hist_startDate req)) as [e | start];
    [left; split; [reflexivity | intros (? & ? & ? & _); discriminate] |].
  destruct (fromisoformat w (hist_endDate req)) as [e | stop];
    [left; split; [reflexivity | intros (? & ? & _ & ?); discriminate] |].
  right. exists start, stop. split; [reflexivity |]. split; [reflexivity |].
  destruct (same_kind start stop); cbv beta iota.
  - right. destruct ((instant stop - instant start) / day <=? 0)%Z eqn:Hd.
    + left. split; [reflexivity |]. split; [| reflexivity].
      apply Z.leb_le in Hd.
      destruct (Z_lt_le_dec (instant stop - instant start) day) as [Hlt | Hge];
        [exact Hlt | exfalso].
      assert (1 <= (instant stop - instant start) / day)%Z
        by (apply Z.div_le_lower_bound; lia).
      lia.
    + right. split; [reflexivity |]. split; [| reflexivity].
      apply Z.leb_gt in Hd.
      destruct (Z_lt_le_dec (instant stop - instant start) day) as [Hlt | Hge];
        [exfalso | exact Hge].
      assert ((instant stop - instant start) / day <= 0)%Z; [| lia].
      destruct (Z_lt_le_dec (instant stop - instant start) 0).
      * assert ((instant stop - instant start) / day < 0)%Z
          by (apply Z.div_lt_upper_bound; lia).
        lia.
      * rewrite Z.div_small; lia.
  - left. split; [reflexivity |]. eexists. reflexivity.
Qed.

Lemma step_bounds (d : Z) :
  (1 <= d)%Z ->
  let step := Z.max 16 (d / 20) in
  (16 <= step)%Z /\ (0 <= d / step <= 21)%Z.
Proof.
  intros Hd step. assert (H16 : (16 <= step)%Z) by (unfold step; lia).
  split; [exact H16 |]. split; [apply Z.div_pos; lia |].
  assert (Hq : (d / 20 <= step)%Z) by (unfold step; lia).
  pose proof (Z.div_mod d 20 ltac:(lia)) as E.
  pose proof (Z.mod_pos_bound d 20 ltac:(lia)) as R.
  assert (Hlt : (d / step < 22)%Z); [| lia].
  apply Z.div_lt_upper_bound; lia.
Qed.

(** X21. The historical endpoint always answers: its loop ends for every
    pair of dates, since each pass moves [current] at least sixteen days
    towards the end date. *)
Theorem historical_terminates (w : world) (req : HistoricalRequest) :
  exists o, historical w req = Some o.
Proof.
  destruct (historical_cases w req)
    as [[H _] | (start & stop & _ & _ & [[_ [e H]] | [(_ & _ & H) | (_ & Hge & H)]])];
    try (eexists; exact H).
  cbv zeta in H. rewrite H. clear H. pose proof day_pos as Hday.
  set (d := ((instant stop - instant start) / day)%Z).
  assert (Hd : (1 <= d)%Z) by (apply Z.div_le_lower_bound; lia).
  destruct (step_bounds d Hd) as [H16 _]. cbv zeta in H16.
  set (step := Z.max 16 (d / 20)) in *.
  assert (Hnn : (0 <= (instant stop - instant start) / (step * day))%Z)
    by (apply Z.div_pos; lia).
  destruct (sample_spec w req stop step (passes start stop step)
              ltac:(lia) start []) as [[e He] | Hs].
  - unfold passes. lia.
  - rewrite He. now eexists.
  - rewrite Hs. now eexists.
Qed.

(** X22. Data returned by the historical endpoint holds one entry per
    sampling date: the start date and every [step]-th day after it up to
    the end date, with [step] the larger of 16 and a twentieth of the whole
    days between the two.  There are between one and 22 entries. *)
Theorem historical_sampling (w : world) (req : HistoricalRequest)
    (data : list entry) :
  historical w req = Some (Returned data) ->
  exists start stop,
    fromisoformat w (hist_startDate req) = inr start
    /\ fromisoformat w (hist_endDate req) = inr stop
    /\ let d := ((instant stop - instant start) / day)%Z in
       let step := Z.max 16 (d / 20) in
       (1 <= d)%Z
       /\ data = map (fun k => make_entry w req (nth_date start step k))
                     (seq 0 (length data))
       /\ Z.of_nat (length data) = (d / step + 1)%Z
       /\ (1 <= length data <= 22)%nat.
Proof.
  intros H.
  destruct (historical_cases w req)
    as [[H' _] | (start & stop & Hs & He
                  & [[_ [e H']] | [(_ & _ & H') | (_ & Hge & H')]])];
    try (rewrite H' in H; discriminate).
  exists start, stop. split; [exact Hs |]. split; [exact He |].
  cbv zeta in H' |- *. rewrite H' in H. clear H'. pose proof day_pos as Hday.
  set (d := ((instant stop - instant start) / day)%Z) in *.
  assert (Hd : (1 <= d)%Z) by (apply Z.div_le_lower_bound; lia).
  destruct (step_bounds d Hd) as [H16 [Hlo Hhi]]. cbv zeta in H16, Hlo, Hhi.
  set (step := Z.max 16 (d / 20)) in *.
  assert (Hdiv : ((instant stop - instant start) / (step * day) = d / step)%Z).
  { unfold d. rewrite (Z.mul_comm step day), Z.div_div by lia. reflexivity. }
  destruct (sample_spec w req stop step (passes start stop step)
              ltac:(lia) start []) as [[e Hx] | Hx].
  - unfold passes. rewrite Hdiv. lia.
  - rewrite Hx in H. discriminate.
  - rewrite Hx in H. injection H as <-. cbn [app]. rewrite Hdiv.
    rewrite length_map, length_seq. split; [exact Hd |].
    split; [reflexivity |]. lia.
Qed.

Lemma historical_sampling_witness :
  exists data,
    historical demo_world demo_historical_request = Some (Returned data)
    /\ length data = 21%nat
    /\ exists start stop,
         fromisoformat demo_world (hist_startDate demo_historical_request)
         = inr start
         /\ fromisoformat demo_world (hist_endDate demo_historical_request)
            = inr stop
         /\ let d := ((instant stop - instant start) / day)%Z in
            let step := Z.max 16 (d / 20) in
            (1 <= d)%Z
            /\ data = map (fun k => make_entry demo_world demo_historical_request
                                      (nth_date start step k))
                          (seq 0 (length data))
            /\ Z.of_nat (length data) = (d / step + 1)%Z
            /\ (1 <= length data <= 22)%nat.
Proof.
  eexists. split; [vm_compute; reflexivity |]. split; [reflexivity |].
  apply (historical_sampling demo_world demo_historical_request).
  vm_compute. reflexivity.
Defined.

(** X23. A date range is rejected with status 400 exactly when a date does
    not parse or when the end is less than 24 hours after the start -- also
    when it is later the same day; a naive date paired with an aware one is
    no rejection but an uncaught exception. *)
Theorem historical_rejections (w : world) (req : HistoricalRequest) :
  (forall e, historical w req = Some (Rejected e) -> status_code e = 400%Z)
  /\ (historical w req
      = Some (Rejected {| status_code := 400;
                          detail := "endDate must be after startDate" |})
      <-> exists start stop,
            fromisoformat w (hist_startDate req) = inr start
            /\ fromisoformat w (hist_endDate req) = inr stop
            /\ same_kind start stop = true
            /\ (instant stop - instant start < day)%Z)
  /\ (forall start stop,
        fromisoformat w (hist_startDate req) = inr start ->
        fromisoformat w (hist_endDate req) = inr stop ->
        same_kind start stop = false ->
        exists e, historical w req = Some (Crashed e)).
Proof.
  destruct (historical_cases w req)
    as [[H Hno] | (start & stop & Hs & He
                   & [[Hk [e H]] | [(Hk & Hlt & H) | (Hk & Hge & H)]])].
  - split; [intros e He; rewrite H in He; now injection He as <- |].
    split; [split |].
    + rewrite H. intros E. discriminate E.
    + intros (start & stop & Hs & He & _). exfalso. apply Hno. eauto.
    + intros start stop Hs He _. exfalso. apply Hno. eauto.
  - split; [intros e' He'; rewrite H in He'; discriminate |].
    split; [split |].
    + rewrite H. discriminate.
    + intros (start' & stop' & Hs' & He' & Hk' & _). congruence.
    + intros. now exists e.
  - split; [intros e He'; rewrite H in He'; now injection He' as <- |].
    split; [split |].
    + intros _. now exists start, stop.
    + intros _. exact H.
    + intros start' stop' Hs' He' Hk'. congruence.
  - cbv zeta in H.
    assert (Hout : forall e, historical w req <> Some (Rejected e)).
    { intros e. rewrite H.
      destruct (sample _ _ _ _ _ _ _) as [[? | ?] |]; discriminate. }
    split; [intros e He'; now apply Hout in He' |].
    split; [split |].
    + intros E. now apply Hout in E.
    + intros (start' & stop' & Hs' & He' & _ & Hlt).
      assert (start' = start) by congruence.
      assert (stop' = stop) by congruence. subst. lia.
    + intros start' stop' Hs' He' Hk'. congruence.
Qed.

Lemma make_entry_shape (w : world) (req : HistoricalRequest) (current : datetime) :
  let e := make_entry w req current in
  date e = strftime_ymd w current
  /\ ((entry_ndvi e = None /\ entry_confidence e = 0)
      \/ (usable_key w <> None /\ entry_ndvi e <> None
          /\ 0.2 <= entry_confidence e <= 1)).
Proof.
  unfold make_entry. destruct (usable_key w) as [key |];
    [| cbn; split; [reflexivity | now left]].
  destruct (get_nasa_modis_ndvi w _ _ current key) as [nd |] eqn:Hnd;
    [| cbn; split; [reflexivity | now left]].
  cbn. split; [reflexivity |]. right. split; [discriminate |].
  split; [discriminate |]. exact (lookup_confidence_range _ _ _ _ _ _ Hnd).
Qed.

(** X24. Every entry of the historical data either carries no NDVI and
    confidence 0, or an NDVI with a confidence in [0.2, 1]; when no API key
    is set, all entries are of the first kind. *)
Theorem historical_entries (w : world) (req : HistoricalRequest)
    (data : list entry) :
  historical w req = Some (Returned data) ->
  Forall (fun e => (entry_ndvi e = None /\ entry_confidence e = 0)
                   \/ (entry_ndvi e <> None /\ 0.2 <= entry_confidence e <= 1))
         data
  /\ (usable_key w = None ->
      Forall (fun e => entry_ndvi e = None /\ entry_confidence e = 0) data).
Proof.
  intros H. apply historical_sampling in H.
  destruct H as (start & stop & _ & _ & H). cbv zeta in H.
  destruct H as (_ & -> & _). split.
  - apply List.Forall_forall. intros e He. apply in_map_iff in He.
    destruct He as (k & <- & _).
    destruct (make_entry_shape w req
                (nth_date start (Z.max 16 ((instant stop - instant start) / day / 20)) k))
      as [_ [Hx | (_ & Hx)]]; [now left | now right].
  - intros Hkey. apply List.Forall_forall. intros e He. apply in_map_iff in He.
    destruct He as (k & <- & _).
    destruct (make_entry_shape w req
                (nth_date start (Z.max 16 ((instant stop - instant start) / day / 20)) k))
      as [_ [Hx | (Hx & _)]]; [exact Hx | contradiction].
Qed.

Lemma historical_entries_witness :
  exists data,
    historical keyless_world demo_historical_request = Some (Returned data)
    /\ Forall (fun e => (entry_ndvi e = None /\ entry_confidence e = 0)
                        \/ (entry_ndvi e <> None
                            /\ 0.2 <= entry_confidence e <= 1))
              data
    /\ (usable_key keyless_world = None ->
        Forall (fun e => entry_ndvi e = None /\ entry_confidence e = 0) data).
Proof.
  eexists. split; [vm_compute; reflexivity |].
  apply (historical_entries keyless_world demo_historical_request).
  vm_compute. reflexivity.
Defined.

End HistoricalFacts.
